(** * Jason Bot Trader: risk and strategy decision engine

    A shallow embedding of [src/risk/position-manager.js] (PositionManager,
    TrailingStopLoss, TakeProfitLevels, ExitManager, DrawdownManager) and of
    [src/strategies/base.js] (BaseStrategy.validateMarketData,
    StrategyManager), together with the [canTrade] gates of the grid and
    momentum strategies.

    Modelling conventions.
    - A JavaScript number is an exact rational ([Q]): rounding, NaN and the
      infinities of IEEE doubles are outside the model.  Comparisons are the
      boolean tests the source performs ([Qle_bool], [Qltb]).
    - [Date.now()] is an explicit argument [now : Z] (milliseconds).
    - [botEvents.emit] and [setTimeout] are recorded in an event trace that
      every operation returns next to the new state; log lines are dropped.
    - A JS [Map] keyed by the trading pair is a [gmap string _]. *)

From Stdlib Require Import QArith Qabs Lqa ZArith Lia Sorted.
From stdpp Require Import gmap strings list fin_maps.

(** ** Numbers *)

(** [x < y] as the source tests it. *)
Definition Qltb (x y : Q) : bool := negb (Qle_bool y x).

(** JS truthiness of a number: every number but zero. *)
Definition truthyQ (x : Q) : bool := negb (Qeq_bool x 0).

(** JS truthiness of a nullable integer ([null] and [0] are falsy). *)
Definition truthyZ (x : option Z) : bool :=
  match x with
  | Some z => negb (z =? 0)%Z
  | None => false
  end.

(** ** Events of [src/core/events.js] that the risk engine emits *)

Inductive Event :=
| StopLossTriggered (entryPrice exitPrice highestPrice pnlPercent : Q)
| TakeProfitTriggered (level : nat) (entryPrice exitPrice percent amountToSell pnlPercent : Q)
| DrawdownLevel (name : option string) (level : nat)
    (drawdownPercent peakCapital currentCapital : Q)
    (action : string) (duration : option Z)
| SetTimeoutResume (delayMs : Z)
| StrategyChangedConservative
| BotStopped (drawdown : Q)
| BotResumed.

(** ** Configuration ([config.bot], [config.risk], [config.analysis]) *)

Record DrawdownLevelCfg := {
  dl_percent : Q;
  dl_action : string;
  dl_duration : option Z;
  dl_message : string
}.

Record TakeProfitCfg := {
  tp_percent : Q;
  tp_amount : Q
}.

Record Config := {
  cfg_initialCapital : Q;
  cfg_maxPositionPercent : Q;
  cfg_stopLossTrailing : Q;
  cfg_takeProfitLevels : list TakeProfitCfg;
  cfg_drawdownLevels : list DrawdownLevelCfg;
  cfg_minLiquidity : Q;
  cfg_minVolume24h : Q
}.

(** The values [config] takes when no environment variable overrides them. *)
Definition default_config : Config := {|
  cfg_initialCapital := 50;
  cfg_maxPositionPercent := 1 # 10;
  cfg_stopLossTrailing := 3 # 100;
  cfg_takeProfitLevels :=
    [ {| tp_percent := 10 # 100; tp_amount := 25 # 100 |};
      {| tp_percent := 20 # 100; tp_amount := 50 # 100 |};
      {| tp_percent := 30 # 100; tp_amount := 25 # 100 |} ];
  cfg_drawdownLevels :=
    [ {| dl_percent := 5 # 100; dl_action := "pause";
         dl_duration := Some 1800%Z; dl_message := "Drawdown -5%" |};
      {| dl_percent := 10 # 100; dl_action := "pause_and_reset";
         dl_duration := Some 7200%Z; dl_message := "Drawdown -10%" |};
      {| dl_percent := 15 # 100; dl_action := "stop";
         dl_duration := None; dl_message := "Drawdown -15%" |} ];
  cfg_minLiquidity := 75000;
  cfg_minVolume24h := 25000
|}.

(** ** DrawdownManager *)

Module DrawdownManager.

Record t := {
  initialCapital : Q;
  peakCapital : Q;
  currentCapital : Q;
  currentDrawdown : Q;
  maxDrawdownReached : Q;
  levels : list DrawdownLevelCfg;
  triggeredLevels : list nat;
  isPaused : bool;
  pauseUntil : option Z;
  currentLevel : option nat
}.

Definition constructor (cfg : Config) : t := {|
  initialCapital := cfg.(cfg_initialCapital);
  peakCapital := cfg.(cfg_initialCapital);
  currentCapital := cfg.(cfg_initialCapital);
  currentDrawdown := 0;
  maxDrawdownReached := 0;
  levels := cfg.(cfg_drawdownLevels);
  triggeredLevels := [];
  isPaused := false;
  pauseUntil := None;
  currentLevel := None
|}.

(** [reset()] re-reads [config.bot.initialCapital] and keeps [this.levels]. *)
Definition reset (cfg : Config) (st : t) : t := {|
  initialCapital := cfg.(cfg_initialCapital);
  peakCapital := cfg.(cfg_initialCapital);
  currentCapital := cfg.(cfg_initialCapital);
  currentDrawdown := 0;
  maxDrawdownReached := 0;
  levels := st.(levels);
  triggeredLevels := [];
  isPaused := false;
  pauseUntil := None;
  currentLevel := None
|}.

Definition set_capital (c : Q) (st : t) : t := {|
  initialCapital := st.(initialCapital); peakCapital := st.(peakCapital);
  currentCapital := c; currentDrawdown := st.(currentDrawdown);
  maxDrawdownReached := st.(maxDrawdownReached); levels := st.(levels);
  triggeredLevels := st.(triggeredLevels); isPaused := st.(isPaused);
  pauseUntil := st.(pauseUntil); currentLevel := st.(currentLevel) |}.

Definition set_peak (p : Q) (st : t) : t := {|
  initialCapital := st.(initialCapital); peakCapital := p;
  currentCapital := st.(currentCapital); currentDrawdown := st.(currentDrawdown);
  maxDrawdownReached := st.(maxDrawdownReached); levels := st.(levels);
  triggeredLevels := st.(triggeredLevels); isPaused := st.(isPaused);
  pauseUntil := st.(pauseUntil); currentLevel := st.(currentLevel) |}.

Definition set_drawdown (d : Q) (st : t) : t := {|
  initialCapital := st.(initialCapital); peakCapital := st.(peakCapital);
  currentCapital := st.(currentCapital); currentDrawdown := d;
  maxDrawdownReached := st.(maxDrawdownReached); levels := st.(levels);
  triggeredLevels := st.(triggeredLevels); isPaused := st.(isPaused);
  pauseUntil := st.(pauseUntil); currentLevel := st.(currentLevel) |}.

Definition set_maxDrawdown (d : Q) (st : t) : t := {|
  initialCapital := st.(initialCapital); peakCapital := st.(peakCapital);
  currentCapital := st.(currentCapital); currentDrawdown := st.(currentDrawdown);
  maxDrawdownReached := d; levels := st.(levels);
  triggeredLevels := st.(triggeredLevels); isPaused := st.(isPaused);
  pauseUntil := st.(pauseUntil); currentLevel := st.(currentLevel) |}.

Definition set_pause (b : bool) (u : option Z) (st : t) : t := {|
  initialCapital := st.(initialCapital); peakCapital := st.(peakCapital);
  currentCapital := st.(currentCapital); currentDrawdown := st.(currentDrawdown);
  maxDrawdownReached := st.(maxDrawdownReached); levels := st.(levels);
  triggeredLevels := st.(triggeredLevels); isPaused := b;
  pauseUntil := u; currentLevel := st.(currentLevel) |}.

(** [triggeredLevels.push(i); currentLevel = i + 1]. *)
Definition mark_triggered (i : nat) (st : t) : t := {|
  initialCapital := st.(initialCapital); peakCapital := st.(peakCapital);
  currentCapital := st.(currentCapital); currentDrawdown := st.(currentDrawdown);
  maxDrawdownReached := st.(maxDrawdownReached); levels := st.(levels);
  triggeredLevels := st.(triggeredLevels) ++ [i]; isPaused := st.(isPaused);
  pauseUntil := st.(pauseUntil); currentLevel := Some (S i) |}.

Definition pauseTrading (now : Z) (durationSeconds : option Z) (st : t)
  : t * list Event :=
  if negb (truthyZ durationSeconds) then (st, [])
  else
    let d := default 0%Z durationSeconds in
    (set_pause true (Some (now + d * 1000)%Z) st,
     [SetTimeoutResume (d * 1000)%Z]).

Definition resumeTrading (st : t) : t * list Event :=
  if negb st.(isPaused) then (st, [])
  else (set_pause false None st, [BotResumed]).

Definition resetToConservative (st : t) : t * list Event :=
  (st, [StrategyChangedConservative]).

Definition stopCompletely (st : t) : t * list Event :=
  (st, [BotStopped (st.(currentDrawdown) * 100)]).

(** The [switch] on [level.action]; an action outside the three cases does
    nothing. *)
Definition executeAction (now : Z) (level : DrawdownLevelCfg) (st : t)
  : t * list Event :=
  if String.eqb level.(dl_action) "pause" then
    pauseTrading now level.(dl_duration) st
  else if String.eqb level.(dl_action) "pause_and_reset" then
    let '(st1, e1) := pauseTrading now level.(dl_duration) st in
    let '(st2, e2) := resetToConservative st1 in
    (st2, e1 ++ e2)
  else if String.eqb level.(dl_action) "stop" then
    stopCompletely st
  else (st, []).

(** The object literal [{0: LEVEL_1, 1: LEVEL_2, 2: LEVEL_3}[levelIndex]]. *)
Definition eventName (levelIndex : nat) : option string :=
  match levelIndex with
  | 0%nat => Some "risk.drawdown.level1"
  | 1%nat => Some "risk.drawdown.level2"
  | 2%nat => Some "risk.drawdown.level3"
  | _ => None
  end.

Definition triggerLevel (now : Z) (levelIndex : nat) (level : DrawdownLevelCfg)
    (st : t) : t * list Event :=
  let st1 := mark_triggered levelIndex st in
  let drawdownPercent := Qabs (st1.(currentDrawdown) * 100) in
  let ev := DrawdownLevel (eventName levelIndex) (S levelIndex) drawdownPercent
              st1.(peakCapital) st1.(currentCapital)
              level.(dl_action) level.(dl_duration) in
  let '(st2, es) := executeAction now level st1 in
  (st2, ev :: es).

(** [this.triggeredLevels.includes(i)]. *)
Definition includes (i : nat) (l : list nat) : bool :=
  existsb (Nat.eqb i) l.

(** The body of the [for] loop of [checkDrawdownLevels], from index [i] over
    the levels [ls] that remain. *)
Fixpoint checkLoop (now : Z) (i : nat) (ls : list DrawdownLevelCfg) (st : t)
  : t * list Event :=
  match ls with
  | [] => (st, [])
  | level :: rest =>
      let '(st1, e1) :=
        if Qle_bool st.(currentDrawdown) level.(dl_percent)
           && negb (includes i st.(triggeredLevels))
        then triggerLevel now i level st
        else (st, []) in
      let '(st2, e2) := checkLoop now (S i) rest st1 in
      (st2, e1 ++ e2)
  end.

Definition checkDrawdownLevels (now : Z) (st : t) : t * list Event :=
  checkLoop now 0 st.(levels) st.

(** The part of [updateCapital] before the level check.  With a peak of 0
    the quotient is [NaN] in JavaScript and no level test holds; the
    rational model has no such value, so statements about the drawdown are
    made for a positive peak. *)
Definition recompute (newCapital : Q) (st : t) : t :=
  let st1 := set_capital newCapital st in
  let st2 := if Qltb st1.(peakCapital) newCapital
             then set_peak newCapital st1 else st1 in
  let st3 := set_drawdown
               ((st2.(currentCapital) - st2.(peakCapital)) / st2.(peakCapital)) st2 in
  if Qltb st3.(currentDrawdown) st3.(maxDrawdownReached)
  then set_maxDrawdown st3.(currentDrawdown) st3 else st3.

Definition updateCapital (now : Z) (newCapital : Q) (st : t) : t * list Event :=
  checkDrawdownLevels now (recompute newCapital st).

Definition isTradingPaused (now : Z) (st : t) : bool * t * list Event :=
  if negb st.(isPaused) then (false, st, [])
  else
    match st.(pauseUntil) with
    | Some u =>
        if (u <=? now)%Z
        then let '(st1, es) := resumeTrading st in (false, st1, es)
        else (true, st, [])
    | None =>
        (* [Date.now() >= null] compares with 0 *)
        if (0 <=? now)%Z
        then let '(st1, es) := resumeTrading st in (false, st1, es)
        else (true, st, [])
    end.

End DrawdownManager.

(** ** DrawdownManager: runs and their traces *)

Module DrawdownRun.
Import DrawdownManager.

(** The level indices whose [DrawdownLevel] event a trace carries, in order:
    one per call of [triggerLevel], hence per executed action. *)
Definition fired (tr : list Event) : list nat :=
  omap (fun e => match e with
                 | DrawdownLevel _ lvl _ _ _ _ _ => Some (Nat.pred lvl)
                 | _ => None
                 end) tr.

(** The actions a trace executed, in order. *)
Definition fired_actions (tr : list Event) : list string :=
  omap (fun e => match e with
                 | DrawdownLevel _ _ _ _ _ a _ => Some a
                 | _ => None
                 end) tr.

(** The guard of the loop body for index [i], read against a drawdown and a
    list of already triggered indices. *)
Definition should_fire (dd : Q) (trig : list nat) (il : nat * DrawdownLevelCfg)
  : bool :=
  Qle_bool dd il.2.(dl_percent) && negb (includes il.1 trig).

(** The levels a check selects: indices [i, i + length ls) in ascending
    order, kept when the guard holds. *)
Definition selected (dd : Q) (trig : list nat) (i : nat)
    (ls : list DrawdownLevelCfg) : list (nat * DrawdownLevelCfg) :=
  List.filter (should_fire dd trig) (combine (seq i (length ls)) ls).

(** Two states agree on everything the level loop reads but never writes. *)
Definition same_capital (a b : t) : Prop :=
  peakCapital a = peakCapital b /\ currentCapital a = currentCapital b /\
  currentDrawdown a = currentDrawdown b /\
  maxDrawdownReached a = maxDrawdownReached b /\
  levels a = levels b /\ initialCapital a = initialCapital b.

(** Calls a client can make on a manager within one run (no [reset]). *)
Inductive Op :=
| OpUpdateCapital (now : Z) (newCapital : Q)
| OpResumeTrading
| OpIsTradingPaused (now : Z).

Definition exec (op : Op) (st : t) : t * list Event :=
  match op with
  | OpUpdateCapital now c => updateCapital now c st
  | OpResumeTrading => resumeTrading st
  | OpIsTradingPaused now => let '(_, st', es) := isTradingPaused now st in (st', es)
  end.

Fixpoint run (ops : list Op) (st : t) : t * list Event :=
  match ops with
  | [] => (st, [])
  | op :: rest =>
      let '(st1, e1) := exec op st in
      let '(st2, e2) := run rest st1 in
      (st2, e1 ++ e2)
  end.

(** States a manager can be in: built by the constructor, then any calls,
    [reset] included. *)
Inductive reachable (cfg : Config) : t -> Prop :=
| reach_new : reachable cfg (constructor cfg)
| reach_exec op st : reachable cfg st -> reachable cfg (exec op st).1
| reach_reset st : reachable cfg st -> reachable cfg (reset cfg st).

(** The numeric invariant of the capital fields. *)
Definition capital_inv (st : t) : Prop :=
  (0 < peakCapital st)%Q /\ (currentCapital st <= peakCapital st)%Q /\
  (currentDrawdown st ==
   (currentCapital st - peakCapital st) / peakCapital st)%Q.

(** *** What the configured actions must do

    Written from the three actions of the configuration, not from
    [executeAction]: the statements about a run compare the code with
    these. *)

(** The timer a pause of [duration] seconds schedules; none without a
    duration. *)
Definition configured_timer (duration : option Z) : list Event :=
  match duration with
  | Some d => if (d =? 0)%Z then [] else [SetTimeoutResume (d * 1000)%Z]
  | None => []
  end.

(** The events a level's action leaves behind at drawdown [drawdown]: a pause
    schedules its resume, a pause-and-reset also announces the conservative
    strategy, a stop announces that the bot stopped. *)
Definition configured_events (drawdown : Q) (level : DrawdownLevelCfg)
  : list Event :=
  if String.eqb level.(dl_action) "pause" then
    configured_timer level.(dl_duration)
  else if String.eqb level.(dl_action) "pause_and_reset" then
    configured_timer level.(dl_duration) ++ [StrategyChangedConservative]
  else if String.eqb level.(dl_action) "stop" then
    [BotStopped (drawdown * 100)]
  else [].

(** The seconds a level's action pauses trading for, if it pauses. *)
Definition configured_pause (level : DrawdownLevelCfg) : option Z :=
  if String.eqb level.(dl_action) "pause"
     || String.eqb level.(dl_action) "pause_and_reset"
  then match level.(dl_duration) with
       | Some d => if (d =? 0)%Z then None else Some d
       | None => None
       end
  else None.

(** The event [triggerLevel] emits for level [i] before its action. *)
Definition level_event (st : t) (i : nat) (level : DrawdownLevelCfg) : Event :=
  DrawdownLevel (eventName i) (S i) (Qabs (st.(currentDrawdown) * 100))
    st.(peakCapital) st.(currentCapital) level.(dl_action) level.(dl_duration).

(** The pause a state is in: the flag and the deadline. *)
Definition pause_state (st : t) : bool * option Z :=
  (st.(isPaused), st.(pauseUntil)).

(** The worked example of the circuit breaker: thresholds at -5%, -10% and
    -15% of a peak of 100. *)
Definition example_levels : list DrawdownLevelCfg :=
  [ {| dl_percent := - (5 # 100); dl_action := "pause";
       dl_duration := Some 1800%Z; dl_message := "level 1" |};
    {| dl_percent := - (10 # 100); dl_action := "pause_and_reset";
       dl_duration := Some 7200%Z; dl_message := "level 2" |};
    {| dl_percent := - (15 # 100); dl_action := "stop";
       dl_duration := None; dl_message := "level 3" |} ].

Definition example_config : Config := {|
  cfg_initialCapital := 100;
  cfg_maxPositionPercent := 1 # 10;
  cfg_stopLossTrailing := 3 # 100;
  cfg_takeProfitLevels := cfg_takeProfitLevels default_config;
  cfg_drawdownLevels := example_levels;
  cfg_minLiquidity := 75000;
  cfg_minVolume24h := 25000
|}.

End DrawdownRun.

(** ** TrailingStopLoss *)

Module TrailingStopLoss.

Record t := {
  entryPrice : Q;
  trailingPercent : Q;
  highestPrice : Q;
  stopPrice : Q;
  isTriggered : bool
}.

(** [trailingPercent || config.risk.stopLossTrailing]: an absent or zero
    argument falls back to the configured value. *)
Definition constructor (cfg : Config) (entryPrice : Q) (trailingPercent : option Q)
  : t :=
  let tp := match trailingPercent with
            | Some p => if truthyQ p then p else cfg.(cfg_stopLossTrailing)
            | None => cfg.(cfg_stopLossTrailing)
            end in
  {| entryPrice := entryPrice;
     trailingPercent := tp;
     highestPrice := entryPrice;
     stopPrice := entryPrice * (1 - tp);
     isTriggered := false |}.

Definition raise (currentPrice : Q) (st : t) : t :=
  if Qltb st.(highestPrice) currentPrice
  then {| entryPrice := st.(entryPrice);
          trailingPercent := st.(trailingPercent);
          highestPrice := currentPrice;
          stopPrice := currentPrice * (1 - st.(trailingPercent));
          isTriggered := st.(isTriggered) |}
  else st.

Definition latch (st : t) : t :=
  {| entryPrice := st.(entryPrice);
     trailingPercent := st.(trailingPercent);
     highestPrice := st.(highestPrice);
     stopPrice := st.(stopPrice);
     isTriggered := true |}.

Definition update (currentPrice : Q) (st : t) : bool * t * list Event :=
  let st1 := raise currentPrice st in
  if Qle_bool currentPrice st1.(stopPrice) && negb st1.(isTriggered)
  then
    let pnlPercent := ((currentPrice - st1.(entryPrice)) / st1.(entryPrice) * 100)%Q in
    (true, latch st1,
     [StopLossTriggered st1.(entryPrice) currentPrice st1.(highestPrice) pnlPercent])
  else (false, st1, []).

(** The state after a sequence of [update] calls. *)
Fixpoint updates (prices : list Q) (st : t) : t :=
  match prices with
  | [] => st
  | p :: rest => updates rest (update p st).1.2
  end.

(** The stop is always derived from the current high-water mark. *)
Definition derived (st : t) : Prop :=
  stopPrice st = (highestPrice st * (1 - trailingPercent st))%Q.

End TrailingStopLoss.

(** ** TakeProfitLevels *)

Module TakeProfitLevels.

Record Level := {
  percent : Q;
  amount : Q;
  targetPrice : Q;
  isTriggered : bool;
  levelIndex : nat
}.

Record t := {
  entryPrice : Q;
  levels : list Level;
  executedLevels : list Level
}.

(** [config.risk.takeProfitLevels.map((level, index) => ...)]. *)
Definition fromConfig (entryPrice : Q) (cs : list TakeProfitCfg) : list Level :=
  imap (fun index level =>
          {| percent := level.(tp_percent);
             amount := level.(tp_amount);
             targetPrice := entryPrice * (1 + level.(tp_percent));
             isTriggered := false;
             levelIndex := index + 1 |}) cs.

(** [levels || ...]: an array argument, even an empty one, is truthy. *)
Definition constructor (cfg : Config) (entryPrice : Q) (levels : option (list Level))
  : t :=
  {| entryPrice := entryPrice;
     levels := match levels with
               | Some ls => ls
               | None => fromConfig entryPrice cfg.(cfg_takeProfitLevels)
               end;
     executedLevels := [] |}.

Definition trigger (level : Level) : Level :=
  {| percent := level.(percent);
     amount := level.(amount);
     targetPrice := level.(targetPrice);
     isTriggered := true;
     levelIndex := level.(levelIndex) |}.

(** [!level.isTriggered && currentPrice >= level.targetPrice]. *)
Definition hit (currentPrice : Q) (level : Level) : bool :=
  negb level.(isTriggered) && Qle_bool level.(targetPrice) currentPrice.

(** The [for ... of this.levels] loop: the levels as the loop leaves them, the
    levels it triggered, and the events it emitted. *)
Fixpoint checkLoop (entry currentPrice : Q) (ls : list Level)
  : list Level * list Level * list Event :=
  match ls with
  | [] => ([], [], [])
  | level :: rest =>
      let '(rest', trig, evs) := checkLoop entry currentPrice rest in
      if hit currentPrice level
      then
        let pnlPercent := ((currentPrice - entry) / entry * 100)%Q in
        (trigger level :: rest', trigger level :: trig,
         TakeProfitTriggered level.(levelIndex) entry currentPrice
           (level.(percent) * 100) (level.(amount) * 100) pnlPercent :: evs)
      else (level :: rest', trig, evs)
  end.

Definition checkLevels (currentPrice : Q) (st : t)
  : list Level * t * list Event :=
  let '(ls', trig, evs) := checkLoop st.(entryPrice) currentPrice st.(levels) in
  (trig,
   {| entryPrice := st.(entryPrice);
      levels := ls';
      executedLevels := st.(executedLevels) ++ trig |},
   evs).

Definition allLevelsExecuted (st : t) : bool :=
  forallb isTriggered st.(levels).

Definition getNextLevel (st : t) : option Level :=
  List.find (fun level => negb level.(isTriggered)) st.(levels).

(** What one pass of the loop does to one level. *)
Definition step (currentPrice : Q) (level : Level) : Level :=
  if hit currentPrice level then trigger level else level.

(** The levels returned by each call of a sequence of [checkLevels] calls,
    and the final state. *)
Fixpoint checks (prices : list Q) (st : t) : list (list Level) * t :=
  match prices with
  | [] => ([], st)
  | p :: rest =>
      let '(trig, st1, _) := checkLevels p st in
      let '(trigs, st2) := checks rest st1 in
      (trig :: trigs, st2)
  end.

End TakeProfitLevels.

(** ** ExitManager *)

Module ExitManager.

Record Exit := {
  stopLoss : TrailingStopLoss.t;
  takeProfit : TakeProfitLevels.t;
  entryPrice : Q;
  startTime : Z
}.

Record PartialLevel := {
  pl_levelIndex : nat;
  pl_amountPercent : Q;
  pl_targetPrice : Q;
  pl_currentPrice : Q
}.

(** The object [update] returns, by shape. *)
Inductive Result :=
| NoAction
| FullExit (reason : string) (exitPrice pnlPercent : Q)
| PartialExit (partialExit : list PartialLevel).

Definition shouldExit (r : Result) : bool :=
  match r with
  | FullExit _ _ _ => true
  | _ => false
  end.

Definition reason (r : Result) : option string :=
  match r with
  | FullExit s _ _ => Some s
  | _ => None
  end.

Definition with_stopLoss (sl : TrailingStopLoss.t) (e : Exit) : Exit :=
  {| stopLoss := sl; takeProfit := e.(takeProfit);
     entryPrice := e.(entryPrice); startTime := e.(startTime) |}.

Definition with_takeProfit (tp : TakeProfitLevels.t) (e : Exit) : Exit :=
  {| stopLoss := e.(stopLoss); takeProfit := tp;
     entryPrice := e.(entryPrice); startTime := e.(startTime) |}.

Definition startManaging (cfg : Config) (now : Z) (pair : string) (entryPrice : Q)
    (activeExits : gmap string Exit) : gmap string Exit :=
  <[pair := {| stopLoss := TrailingStopLoss.constructor cfg entryPrice None;
               takeProfit := TakeProfitLevels.constructor cfg entryPrice None;
               entryPrice := entryPrice;
               startTime := now |}]> activeExits.

Definition update (pair : string) (currentPrice : Q)
    (activeExits : gmap string Exit) : Result * gmap string Exit * list Event :=
  match activeExits !! pair with
  | None => (NoAction, activeExits, [])
  | Some exit =>
      let '(stopTriggered, sl, e1) :=
        TrailingStopLoss.update currentPrice exit.(stopLoss) in
      let exit1 := with_stopLoss sl exit in
      let pnl := ((currentPrice - exit.(entryPrice)) / exit.(entryPrice) * 100)%Q in
      if stopTriggered
      then (FullExit "stop_loss" currentPrice pnl,
            <[pair := exit1]> activeExits, e1)
      else
        let '(triggeredLevels, tp, e2) :=
          TakeProfitLevels.checkLevels currentPrice exit1.(takeProfit) in
        let exit2 := with_takeProfit tp exit1 in
        let exits2 := <[pair := exit2]> activeExits in
        if (0 <? length triggeredLevels)%nat
        then
          if TakeProfitLevels.allLevelsExecuted tp
          then (FullExit "all_take_profit_levels" currentPrice pnl,
                exits2, e1 ++ e2)
          else (PartialExit
                  (map (fun level =>
                          {| pl_levelIndex := level.(TakeProfitLevels.levelIndex);
                             pl_amountPercent := level.(TakeProfitLevels.amount);
                             pl_targetPrice := level.(TakeProfitLevels.targetPrice);
                             pl_currentPrice := currentPrice |})
                       triggeredLevels),
                exits2, e1 ++ e2)
        else (NoAction, exits2, e1 ++ e2)
  end.

Definition stopManaging (pair : string) (activeExits : gmap string Exit)
  : gmap string Exit :=
  if bool_decide (is_Some (activeExits !! pair))
  then delete pair activeExits
  else activeExits.

Definition isManaging (pair : string) (activeExits : gmap string Exit) : bool :=
  bool_decide (is_Some (activeExits !! pair)).

(** The take-profit events of a trace. *)
Definition takeProfitEvents (tr : list Event) : list Event :=
  List.filter (fun e => match e with
                        | TakeProfitTriggered _ _ _ _ _ _ => true
                        | _ => false
                        end) tr.

(** A configuration whose first take-profit target lies below the entry
    price, so that one price can meet the stop and a target at once. *)
Definition tie_config : Config := {|
  cfg_initialCapital := 50;
  cfg_maxPositionPercent := 1 # 10;
  cfg_stopLossTrailing := 3 # 100;
  cfg_takeProfitLevels :=
    [ {| tp_percent := - (5 # 100); tp_amount := 25 # 100 |};
      {| tp_percent := 20 # 100; tp_amount := 75 # 100 |} ];
  cfg_drawdownLevels := cfg_drawdownLevels default_config;
  cfg_minLiquidity := 75000;
  cfg_minVolume24h := 25000
|}.

End ExitManager.

(** ** PositionManager *)

Module PositionManager.

Record Position := {
  pair : string;
  entryPrice : Q;
  entryTime : Z;
  investedAmount : Q;
  tokenAmount : Q;
  currentPrice : Q;
  unrealizedPnL : Q;
  unrealizedPnLPercent : Q
}.

Record TradeRecord := {
  tr_pair : string;
  tr_entryPrice : Q;
  tr_exitPrice : Q;
  tr_entryTime : Z;
  tr_exitTime : Z;
  tr_investedAmount : Q;
  tr_tokenAmount : Q;
  tr_realizedPnL : Q;
  tr_realizedPnLPercent : Q
}.

Record PositionSize := {
  amountUSD : Q;
  amountToken : Q;
  percent : Q
}.

Record t := {
  maxPositionPercent : Q;
  currentCapital : Q;
  openPositions : gmap string Position
}.

Definition constructor (cfg : Config) : t := {|
  maxPositionPercent := cfg.(cfg_maxPositionPercent);
  currentCapital := cfg.(cfg_initialCapital);
  openPositions := ∅
|}.

Definition updateCapital (newCapital : Q) (st : t) : t := {|
  maxPositionPercent := st.(maxPositionPercent);
  currentCapital := newCapital;
  openPositions := st.(openPositions)
|}.

Definition with_positions (m : gmap string Position) (st : t) : t := {|
  maxPositionPercent := st.(maxPositionPercent);
  currentCapital := st.(currentCapital);
  openPositions := m
|}.

(** The loop [capitalInPositions += position.investedAmount]. *)
Definition capitalInPositions (m : gmap string Position) : Q :=
  map_fold (fun _ position acc => (acc + position.(investedAmount))%Q) 0%Q m.

Definition getAvailableCapital (st : t) : Q :=
  (st.(currentCapital) - capitalInPositions st.(openPositions))%Q.

(** [Math.max(a, b)]. *)
Definition Math_max (a b : Q) : Q := if Qle_bool a b then b else a.

(** [calculatePositionSize].  At a price of 0, [amountToken] is [Infinity]
    or [NaN] in JavaScript (and [percent] likewise at a capital of 0);
    statements about them are made for non-zero divisors. *)
Definition calculatePositionSize (currentPrice : Q) (volatility : option Q)
    (st : t) : PositionSize :=
  let availableCapital := getAvailableCapital st in
  let baseAmount := (availableCapital * st.(maxPositionPercent))%Q in
  let baseAmount :=
    match volatility with
    | Some v => (baseAmount * Math_max (1 # 2) (1 - v / (1 # 2)))%Q
    | None => baseAmount
    end in
  {| amountUSD := baseAmount;
     amountToken := (baseAmount / currentPrice)%Q;
     percent := (baseAmount / st.(currentCapital) * 100)%Q |}.

Definition hasOpenPosition (pair : string) (st : t) : bool :=
  bool_decide (is_Some (st.(openPositions) !! pair)).

Definition openPosition (now : Z) (pair : string)
    (entryPrice amountUSD amountToken : Q) (st : t) : bool * t :=
  if hasOpenPosition pair st then (false, st)
  else
    let position := {|
      pair := pair;
      entryPrice := entryPrice;
      entryTime := now;
      investedAmount := amountUSD;
      tokenAmount := amountToken;
      currentPrice := entryPrice;
      unrealizedPnL := 0;
      unrealizedPnLPercent := 0 |} in
    (true, with_positions (<[pair := position]> st.(openPositions)) st).

Definition updatePosition (pair : string) (currentPrice : Q) (st : t)
  : option Position * t :=
  match st.(openPositions) !! pair with
  | None => (None, st)
  | Some position =>
      let currentValue := (position.(tokenAmount) * currentPrice)%Q in
      let pnl := (currentValue - position.(investedAmount))%Q in
      let position' := {|
        pair := position.(PositionManager.pair);
        entryPrice := position.(entryPrice);
        entryTime := position.(entryTime);
        investedAmount := position.(investedAmount);
        tokenAmount := position.(tokenAmount);
        currentPrice := currentPrice;
        unrealizedPnL := pnl;
        unrealizedPnLPercent := (pnl / position.(investedAmount) * 100)%Q |} in
      (Some position',
       with_positions (<[pair := position']> st.(openPositions)) st)
  end.

Definition closePosition (now : Z) (pair : string) (exitPrice : Q) (st : t)
  : option TradeRecord * t :=
  match st.(openPositions) !! pair with
  | None => (None, st)
  | Some position =>
      let exitValue := (position.(tokenAmount) * exitPrice)%Q in
      let realizedPnL := (exitValue - position.(investedAmount))%Q in
      let realizedPnLPercent := (realizedPnL / position.(investedAmount) * 100)%Q in
      let st1 := updateCapital (st.(currentCapital) + realizedPnL)%Q st in
      let st2 := with_positions (delete pair st1.(openPositions)) st1 in
      (Some {| tr_pair := pair;
               tr_entryPrice := position.(entryPrice);
               tr_exitPrice := exitPrice;
               tr_entryTime := position.(entryTime);
               tr_exitTime := now;
               tr_investedAmount := position.(investedAmount);
               tr_tokenAmount := position.(tokenAmount);
               tr_realizedPnL := realizedPnL;
               tr_realizedPnLPercent := realizedPnLPercent |},
       st2)
  end.

Definition getPosition (pair : string) (st : t) : option Position :=
  st.(openPositions) !! pair.

Definition numPositions (st : t) : nat := size st.(openPositions).

Definition canOpenPosition (st : t) : bool :=
  let availableCapital := getAvailableCapital st in
  let minPositionSize := 10%Q in
  if Qltb availableCapital minPositionSize then false else true.

Definition reset (cfg : Config) (st : t) : t := {|
  maxPositionPercent := st.(maxPositionPercent);
  currentCapital := cfg.(cfg_initialCapital);
  openPositions := ∅
|}.

(** Every call of the public interface, with arbitrary arguments. *)
Inductive reachable (cfg : Config) : t -> Prop :=
| reach_new : reachable cfg (constructor cfg)
| reach_updateCapital c st :
    reachable cfg st -> reachable cfg (updateCapital c st)
| reach_open now pair entry usd tok st :
    reachable cfg st -> reachable cfg (openPosition now pair entry usd tok st).2
| reach_update pair price st :
    reachable cfg st -> reachable cfg (updatePosition pair price st).2
| reach_close now pair price st :
    reachable cfg st -> reachable cfg (closePosition now pair price st).2
| reach_reset st : reachable cfg st -> reachable cfg (reset cfg st).




End PositionManager.

(** ** Strategies: the market-data gate *)

Module Strategy.

(** A market snapshot.  [None] is a field that is absent ([undefined]). *)
Record MarketData := {
  price : option Q;
  volume : option Q;
  liquidity : option Q;
  volatility : option Q;
  timestamp : option string
}.

(** JS truthiness of [marketData[field]] for a numeric field. *)
Definition truthyNum (x : option Q) : bool :=
  match x with
  | Some q => truthyQ q
  | None => false
  end.

(** JS truthiness of a string field: absent and empty are falsy. *)
Definition truthyStr (x : option string) : bool :=
  match x with
  | Some s => negb (String.eqb s "")
  | None => false
  end.

(** [!!marketData[field]] for the field names the gate asks for. *)
Definition fieldTruthy (marketData : MarketData) (field : string) : bool :=
  if String.eqb field "price" then truthyNum marketData.(price)
  else if String.eqb field "volume" then truthyNum marketData.(volume)
  else if String.eqb field "liquidity" then truthyNum marketData.(liquidity)
  else if String.eqb field "volatility" then truthyNum marketData.(volatility)
  else if String.eqb field "timestamp" then truthyStr marketData.(timestamp)
  else false.

Definition required : list string := ["price"; "volume"; "liquidity"; "timestamp"].

(** [BaseStrategy.validateMarketData]. *)
Definition missing (marketData : MarketData) : list string :=
  List.filter (fun field => negb (fieldTruthy marketData field)) required.

Definition validateMarketData (marketData : MarketData) : bool :=
  if (0 <? length (missing marketData))%nat then false else true.

(** [a < b] and [a > b] on a possibly absent left operand: a comparison with
    [undefined] is false. *)
Definition ltOpt (a : option Q) (b : Q) : bool :=
  match a with Some x => Qltb x b | None => false end.

Definition gtOpt (a : option Q) (b : Q) : bool :=
  match a with Some x => Qltb b x | None => false end.

(** [GridTradingStrategy.canTrade]. *)
Definition grid_canTrade (cfg : Config) (marketData : MarketData) : bool :=
  if negb (validateMarketData marketData) then false
  else if truthyNum marketData.(volatility)
          && gtOpt marketData.(volatility) (15 # 100) then false
  else if ltOpt marketData.(liquidity) cfg.(cfg_minLiquidity) then false
  else true.

(** [MomentumStrategy.canTrade]. *)
Definition momentum_canTrade (cfg : Config) (marketData : MarketData) : bool :=
  if negb (validateMarketData marketData) then false
  else if truthyNum marketData.(volatility)
          && ltOpt marketData.(volatility) (5 # 100) then false
  else if ltOpt marketData.(volume) cfg.(cfg_minVolume24h) then false
  else true.

(** The same snapshot with one of the numeric fields absent. *)
Definition without (field : string) (marketData : MarketData) : MarketData := {|
  price := if String.eqb field "price" then None else marketData.(price);
  volume := if String.eqb field "volume" then None else marketData.(volume);
  liquidity := if String.eqb field "liquidity" then None else marketData.(liquidity);
  volatility := marketData.(volatility);
  timestamp := marketData.(timestamp)
|}.

Definition numericField (marketData : MarketData) (field : string) : option Q :=
  if String.eqb field "price" then marketData.(price)
  else if String.eqb field "volume" then marketData.(volume)
  else if String.eqb field "liquidity" then marketData.(liquidity)
  else None.

(** A snapshot with every required field present and a traded volume of 0,
    and the same snapshot with a volume of 30000. *)
Definition quiet_snapshot : MarketData := {|
  price := Some 2000%Q;
  volume := Some 0%Q;
  liquidity := Some 100000%Q;
  volatility := Some (1 # 10);
  timestamp := Some "2025-11-05T12:00:00.000Z"
|}.

Definition busy_snapshot : MarketData := {|
  price := Some 2000%Q;
  volume := Some 30000%Q;
  liquidity := Some 100000%Q;
  volatility := Some (1 # 10);
  timestamp := Some "2025-11-05T12:00:00.000Z"
|}.

End Strategy.

(** ** StrategyManager *)

Module StrategyManager.

Inductive StrategyKey := Grid | Momentum.

(** What [this.strategies[strategyName]] evaluates to: one of the two
    strategies, a value inherited from [Object.prototype] (truthy, but not a
    strategy), or [undefined]. *)
Inductive Lookup :=
| Own (key : StrategyKey)
| Inherited
| Absent.

Definition inheritedKeys : list string :=
  ["constructor"; "toString"; "toLocaleString"; "valueOf"; "hasOwnProperty";
   "isPrototypeOf"; "propertyIsEnumerable"; "__proto__"; "__defineGetter__";
   "__defineSetter__"; "__lookupGetter__"; "__lookupSetter__"].

Definition lookupStrategy (strategyName : string) : Lookup :=
  if String.eqb strategyName "grid" then Own Grid
  else if String.eqb strategyName "momentum" then Own Momentum
  else if existsb (String.eqb strategyName) inheritedKeys then Inherited
  else Absent.

(** [this.currentStrategy]: [null], a strategy, or a foreign value left there
    by a call that threw. *)
Inductive Current :=
| CurNull
| CurStrategy (key : StrategyKey)
| CurForeign.

Record t := {
  gridIsActive : bool;
  momentumIsActive : bool;
  currentStrategy : Current;
  defaultStrategy : string;
  lastSwitch : option Z;
  switchCooldown : Z
}.

(** A call either returns a boolean or throws a [TypeError]. *)
Inductive Outcome :=
| Returned (b : bool)
| Threw.

Inductive SwitchEvent :=
| Activated (key : StrategyKey)
| StrategySelected (strategyName : string) (reason : option string).

Definition constructor (defaultStrategy : string) : t := {|
  gridIsActive := false;
  momentumIsActive := false;
  currentStrategy := CurNull;
  defaultStrategy := defaultStrategy;
  lastSwitch := None;
  switchCooldown := 300000
|}.

Definition setActive (key : StrategyKey) (b : bool) (st : t) : t := {|
  gridIsActive := match key with Grid => b | Momentum => st.(gridIsActive) end;
  momentumIsActive := match key with Momentum => b | Grid => st.(momentumIsActive) end;
  currentStrategy := st.(currentStrategy);
  defaultStrategy := st.(defaultStrategy);
  lastSwitch := st.(lastSwitch);
  switchCooldown := st.(switchCooldown)
|}.

Definition setCurrent (c : Current) (st : t) : t := {|
  gridIsActive := st.(gridIsActive);
  momentumIsActive := st.(momentumIsActive);
  currentStrategy := c;
  defaultStrategy := st.(defaultStrategy);
  lastSwitch := st.(lastSwitch);
  switchCooldown := st.(switchCooldown)
|}.

Definition setLastSwitch (l : option Z) (st : t) : t := {|
  gridIsActive := st.(gridIsActive);
  momentumIsActive := st.(momentumIsActive);
  currentStrategy := st.(currentStrategy);
  defaultStrategy := st.(defaultStrategy);
  lastSwitch := l;
  switchCooldown := st.(switchCooldown)
|}.

(** [this.lastSwitch && (Date.now() - this.lastSwitch < this.switchCooldown)]. *)
Definition inCooldown (now : Z) (st : t) : bool :=
  match st.(lastSwitch) with
  | Some last => truthyZ (Some last) && (now - last <? st.(switchCooldown))%Z
  | None => false
  end.

Definition selectStrategy (now : Z) (strategyName : string)
    (reason : option string) (st : t) : Outcome * t * list SwitchEvent :=
  if inCooldown now st then (Returned false, st, [])
  else
    match lookupStrategy strategyName with
    | Absent => (Returned false, st, [])
    | found =>
        (* [if (this.currentStrategy) this.currentStrategy.deactivate()] *)
        match st.(currentStrategy) with
        | CurForeign => (Threw, st, [])
        | cur =>
            let st1 := match cur with
                       | CurStrategy k => setActive k false st
                       | _ => st
                       end in
            match found with
            | Own key =>
                let st2 := setCurrent (CurStrategy key) st1 in
                let st3 := setActive key true st2 in
                let st4 := setLastSwitch (Some now) st3 in
                (Returned true, st4,
                 [Activated key; StrategySelected strategyName reason])
            | _ =>
                (* a value without [activate]: the call throws after the
                   assignment to [this.currentStrategy] *)
                (Threw, setCurrent CurForeign st1, [])
            end
        end
    end.

Definition forceSwitch (now : Z) (strategyName : string) (reason : string)
    (st : t) : Outcome * t * list SwitchEvent :=
  let originalSwitch := st.(lastSwitch) in
  let st1 := setLastSwitch None st in
  let '(success, st2, evs) := selectStrategy now strategyName (Some reason) st1 in
  match success with
  | Returned false => (Returned false, setLastSwitch originalSwitch st2, evs)
  | _ => (success, st2, evs)
  end.

End StrategyManager.

(** ** DrawdownManager: queries *)

Module DrawdownQueries.
Import DrawdownManager.


End DrawdownQueries.

(** ** DrawdownManager with the timers of [pauseTrading]

    [pauseTrading] hands [setTimeout] a callback that calls
    [resumeTrading].  The manager is paired with the callbacks that are
    still pending; the event loop may run a pending callback once it is due,
    in between two calls of the client. *)

Module DrawdownTimers.

Record t := {
  manager : DrawdownManager.t;
  pending : list Z  (* the time each pending callback is due, in ms *)
}.

(** The callbacks a trace scheduled at time [now]. *)
Definition scheduled (now : Z) (events : list Event) : list Z :=
  omap (fun e => match e with
                 | SetTimeoutResume delayMs => Some (now + delayMs)%Z
                 | _ => None
                 end) events.

Definition pauseTrading (now : Z) (durationSeconds : option Z) (s : t)
  : t * list Event :=
  let '(m, es) := DrawdownManager.pauseTrading now durationSeconds s.(manager) in
  ({| manager := m; pending := s.(pending) ++ scheduled now es |}, es).

Definition updateCapital (now : Z) (newCapital : Q) (s : t) : t * list Event :=
  let '(m, es) := DrawdownManager.updateCapital now newCapital s.(manager) in
  ({| manager := m; pending := s.(pending) ++ scheduled now es |}, es).

Definition isTradingPaused (now : Z) (s : t) : bool * t * list Event :=
  let '(r, m, es) := DrawdownManager.isTradingPaused now s.(manager) in
  (r, {| manager := m; pending := s.(pending) |}, es).


End DrawdownTimers.

(** ** TrailingStopLoss: what a sequence of calls returns *)

Module TrailingStopLossRuns.
Import TrailingStopLoss.

(** The value and the events of each [update] of a sequence of calls. *)
Fixpoint outcomes (prices : list Q) (st : t) : list (bool * list Event) :=
  match prices with
  | [] => []
  | p :: rest =>
      let '(r, st1, evs) := update p st in
      (r, evs) :: outcomes rest st1
  end.

End TrailingStopLossRuns.

(** ** TakeProfitLevels: states and orderings used in statements *)

Module TakeProfitStates.
Import TakeProfitLevels.

(** Nothing executed yet, no level triggered. *)
Definition fresh (st : t) : Prop :=
  executedLevels st = [] /\ Forall (fun l => isTriggered l = false) (levels st).

(** Triggering respects targets: a triggered level has every level with a
    target at or below its own triggered too. *)
Definition triggered_by_target (st : t) : Prop :=
  forall lj lk, lj ∈ levels st -> lk ∈ levels st ->
    (targetPrice lj <= targetPrice lk)%Q ->
    isTriggered lk = true -> isTriggered lj = true.

(** [getState().executedCount]. *)
Definition executedCount (st : t) : nat := length st.(executedLevels).

End TakeProfitStates.

(** ** ExitManager: sequences of calls *)

Module ExitManagerRuns.
Import ExitManager.

(** The results of a sequence of [update(pair, price)] calls, with the pair
    each one was for. *)
Fixpoint updates (calls : list (string * Q)) (activeExits : gmap string Exit)
  : list (string * Result) :=
  match calls with
  | [] => []
  | call :: rest =>
      let '(r, exits1, _) := update call.1 call.2 activeExits in
      (call.1, r) :: updates rest exits1
  end.

(** Is this the stop-loss result for [pair]? *)
Definition isStopLossFor (pair : string) (pr : string * Result) : bool :=
  String.eqb pr.1 pair &&
  match reason pr.2 with
  | Some s => String.eqb s "stop_loss"
  | None => false
  end.

End ExitManagerRuns.

(** ** PositionManager: exposure and unrealized P&L *)

Module PositionQueries.
Import PositionManager.

Record Exposure := {
  totalInvested : Q;
  exposurePercent : Q;
  exposurePositions : nat
}.

Definition getTotalExposure (st : t) : Exposure :=
  let totalInvested :=
    map_fold (fun _ position acc => (acc + position.(investedAmount))%Q) 0%Q
      st.(openPositions) in
  {| totalInvested := totalInvested;
     exposurePercent := (totalInvested / st.(currentCapital) * 100)%Q;
     exposurePositions := size st.(openPositions) |}.

Record UnrealizedPnL := {
  pnlAmount : Q;
  pnlPercent : Q
}.

(** [position.unrealizedPnL || 0]. *)
Definition orZero (x : Q) : Q := if truthyQ x then x else 0%Q.

Definition getTotalUnrealizedPnL (st : t) : UnrealizedPnL :=
  let totalPnL :=
    map_fold (fun _ position acc => (acc + orZero position.(unrealizedPnL))%Q) 0%Q
      st.(openPositions) in
  {| pnlAmount := totalPnL;
     pnlPercent := if Qltb 0 st.(currentCapital)
                   then (totalPnL / st.(currentCapital) * 100)%Q else 0%Q |}.

End PositionQueries.

(** ** BaseStrategy: trade metrics and helpers *)

Module BaseStrategy.

Record Trade := {
  side : string;
  pnl : option Q  (* [None]: the trade object has no [pnl] *)
}.

Record Metrics := {
  totalSignals : nat;
  executedTrades : nat;
  successRate : Q
}.

Record t := {
  name : string;
  isActive : bool;
  trades : list Trade;
  metrics : Metrics
}.

Definition natQ (n : nat) : Q := inject_Z (Z.of_nat n).

Definition constructor (name : string) : t := {|
  name := name;
  isActive := false;
  trades := [];
  metrics := {| totalSignals := 0; executedTrades := 0; successRate := 0 |}
|}.

(** [t.pnl > 0]; a comparison with [undefined] is false. *)
Definition profitable (trade : Trade) : bool :=
  match trade.(pnl) with
  | Some q => Qltb 0 q
  | None => false
  end.

Definition recordSignal (st : t) : t := {|
  name := st.(name); isActive := st.(isActive); trades := st.(trades);
  metrics := {| totalSignals := S st.(metrics).(totalSignals);
                executedTrades := st.(metrics).(executedTrades);
                successRate := st.(metrics).(successRate) |}
|}.

Definition recordTrade (trade : Trade) (st : t) : t :=
  let trades' := st.(trades) ++ [trade] in
  let successfulTrades := length (List.filter profitable trades') in
  {| name := st.(name); isActive := st.(isActive); trades := trades';
     metrics := {|
       totalSignals := st.(metrics).(totalSignals);
       executedTrades := S st.(metrics).(executedTrades);
       successRate :=
         if (0 <? length trades')%nat
         then (natQ successfulTrades / natQ (length trades') * 100)%Q
         else 0%Q |} |}.

(** [trade.pnl || 0]. *)
Definition pnlOrZero (trade : Trade) : Q :=
  match trade.(pnl) with
  | Some q => if truthyQ q then q else 0%Q
  | None => 0%Q
  end.

Definition calculateAveragePnL (st : t) : Q :=
  if (length st.(trades) =? 0)%nat then 0%Q
  else (fold_left (fun sum trade => (sum + pnlOrZero trade)%Q) st.(trades) 0%Q
        / natQ (length st.(trades)))%Q.

Definition resetMetrics (st : t) : t := {|
  name := st.(name); isActive := st.(isActive); trades := [];
  metrics := {| totalSignals := 0; executedTrades := 0; successRate := 0 |}
|}.

(** [calculatePriceChange]: 0 for an absent or zero previous price. *)
Definition calculatePriceChange (currentPrice : Q) (previousPrice : option Q) : Q :=
  match previousPrice with
  | Some p => if truthyQ p then ((currentPrice - p) / p * 100)%Q else 0%Q
  | None => 0%Q
  end.

Definition recordTrades (ts : list Trade) (st : t) : t :=
  fold_left (fun s trade => recordTrade trade s) ts st.

End BaseStrategy.

(** ** StrategyManager: trend, automatic selection, reset *)

Module StrategySelection.
Import StrategyManager.

(** [array.reduce((sum, p) => sum + p, 0)]. *)
Definition sum (l : list Q) : Q := fold_left Qplus l 0%Q.

(** [sum / array.length]. *)
Definition average (l : list Q) : Q := (sum l / BaseStrategy.natQ (length l))%Q.

(** [priceHistory.slice(-10)] and [priceHistory.slice(-20, -10)]. *)
Definition recent (priceHistory : list Q) : list Q :=
  drop (length priceHistory - 10) priceHistory.

Definition older (priceHistory : list Q) : list Q :=
  let start := (length priceHistory - 20)%nat in
  let stop := (length priceHistory - 10)%nat in
  take (stop - start) (drop start priceHistory).

(** [detectTrend].  An older-window average of 0 makes [diff] infinite or
    [NaN] in JavaScript; the rational model has no such value, so statements
    about the trend are made for positive prices. *)
Definition detectTrend (priceHistory : list Q) : string :=
  if (length priceHistory <? 10)%nat then "insufficient_data"
  else if (length (older priceHistory) =? 0)%nat then "insufficient_data"
  else
    let avgRecent := (sum (recent priceHistory)
                      / BaseStrategy.natQ (length (recent priceHistory)))%Q in
    let avgOlder := (sum (older priceHistory)
                     / BaseStrategy.natQ (length (older priceHistory)))%Q in
    let diff := ((avgRecent - avgOlder) / avgOlder)%Q in
    if Qltb (5 # 100) diff then "uptrend"
    else if Qltb diff (- (5 # 100)) then "downtrend"
    else "sideways".

(** The fields of a snapshot that the automatic selection reads. *)
Record MarketInput := {
  volatility : option Q;
  volume : option Q;
  avgVolume : option Q;
  priceHistory : option (list Q)
}.

(** [marketData.volume / (marketData.avgVolume || marketData.volume)];
    [None] is NaN (no volume, or 0 / 0). *)
Definition volumeRatio (marketData : MarketInput) : option Q :=
  match marketData.(volume) with
  | None => None
  | Some v =>
      let denominator :=
        match marketData.(avgVolume) with
        | Some a => if truthyQ a then a else v
        | None => v
        end in
      if Qeq_bool denominator 0 then None else Some (v / denominator)%Q
  end.

(** The strategy the market conditions select. *)
Definition selectedStrategy (marketData : MarketInput) : string :=
  let volatility := match marketData.(volatility) with
                    | Some v => if truthyQ v then v else 0%Q
                    | None => 0%Q
                    end in
  let trend := detectTrend (default [] marketData.(priceHistory)) in
  if Qltb (15 # 100) volatility
     && match volumeRatio marketData with
        | Some r => Qltb (15 # 10) r
        | None => false
        end
     && negb (String.eqb trend "sideways")
  then "momentum" else "grid".

(** [strategy.name], as the two constructors set it. *)
Definition strategyName (key : StrategyKey) : string :=
  match key with
  | Grid => "Grid Trading"
  | Momentum => "Momentum"
  end.

Definition toUpperCase (c : Ascii.ascii) : Ascii.ascii :=
  let n := Ascii.nat_of_ascii c in
  if (97 <=? n)%nat && (n <=? 122)%nat then Ascii.ascii_of_nat (n - 32) else c.

(** [s.charAt(0).toUpperCase() + s.slice(1)]. *)
Definition capitalize (s : string) : string :=
  match s with
  | EmptyString => EmptyString
  | String c rest => String (toUpperCase c) rest
  end.

(** [!this.currentStrategy || this.currentStrategy.name !== capitalized]. *)
Definition needsSelection (selected : string) (st : t) : bool :=
  match st.(currentStrategy) with
  | CurNull => true
  | CurStrategy key => negb (String.eqb (strategyName key) (capitalize selected))
  | CurForeign => true
  end.

(** How an [async] method without a result ends: its promise is fulfilled,
    or rejected by an exception. *)
Inductive Completion :=
| Fulfilled
| Rejected.

Definition completion (o : Outcome) : Completion :=
  match o with
  | Returned _ => Fulfilled
  | Threw => Rejected
  end.

(** [autoSelectStrategy]; the value of [selectStrategy] is dropped. *)
Definition autoSelectStrategy (now : Z) (marketData : MarketInput) (st : t)
  : Completion * t * list SwitchEvent :=
  let selected := selectedStrategy marketData in
  if needsSelection selected st
  then
    let '(o, st1, evs) := selectStrategy now selected (Some "market_conditions") st in
    (completion o, st1, evs)
  else (Fulfilled, st, []).

(** [initialize]: nothing in automatic mode, else select the default. *)
Definition initialize (now : Z) (st : t) : Completion * t * list SwitchEvent :=
  if String.eqb st.(defaultStrategy) "auto" then (Fulfilled, st, [])
  else
    let '(o, st1, evs) := selectStrategy now st.(defaultStrategy) (Some "default") st in
    (completion o, st1, evs).

(** [reset]: both strategies deactivated, no current strategy, no cooldown. *)
Definition reset (st : t) : t := {|
  gridIsActive := false;
  momentumIsActive := false;
  currentStrategy := CurNull;
  defaultStrategy := st.(defaultStrategy);
  lastSwitch := None;
  switchCooldown := st.(switchCooldown)
|}.

Inductive Op :=
| OpSelect (now : Z) (strategyName : string) (reason : option string)
| OpForce (now : Z) (strategyName : string) (reason : string)
| OpAuto (now : Z) (marketData : MarketInput)
| OpInitialize (now : Z)
| OpReset.

Definition exec (op : Op) (st : t) : t :=
  match op with
  | OpSelect now n r => (selectStrategy now n r st).1.2
  | OpForce now n r => (forceSwitch now n r st).1.2
  | OpAuto now md => (autoSelectStrategy now md st).1.2
  | OpInitialize now => (initialize now st).1.2
  | OpReset => reset st
  end.

Definition run (ops : list Op) (st : t) : t := fold_left (fun s op => exec op s) ops st.

(** The strategy that is current is the one, and the only one, active. *)
Definition exclusive (st : t) : Prop :=
  (gridIsActive st = true <-> currentStrategy st = CurStrategy Grid) /\
  (momentumIsActive st = true <-> currentStrategy st = CurStrategy Momentum).

End StrategySelection.

(** ** Sample inputs for the automatic selection *)

Module SelectionSamples.
Import StrategySelection.

(** Ten prices at 100 followed by ten at 110. *)
Definition rising : list Q := replicate 10 100%Q ++ replicate 10 110%Q.

(** High volatility and volume, no price history. *)
Definition hot_market : MarketInput := {|
  volatility := Some (20 # 100);
  volume := Some 2000%Q;
  avgVolume := Some 1000%Q;
  priceHistory := None
|}.

(** Low volatility. *)
Definition calm_market : MarketInput := {|
  volatility := Some (5 # 100);
  volume := Some 2000%Q;
  avgVolume := Some 1000%Q;
  priceHistory := None
|}.

End SelectionSamples.

(** ** GridTradingStrategy *)

Module GridTrading.

(** [config.strategies.grid]. *)
Record GridConfig := {
  numLevels : nat;
  rangeMin : Q;
  rangeMax : Q;
  amountPerLevel : Q;
  rebalanceInterval : Z  (* seconds *)
}.

Record Level := {
  levelIndex : nat;
  price : Q;
  multiplier : Q;
  action : string;
  amountPercent : Q;
  isTriggered : bool
}.

(** The signal [analyze] returns (its [reason] text is left out). *)
Record Signal := {
  sig_action : string;
  sig_confidence : Q;
  sig_price : Q;
  sig_levelIndex : nat;
  sig_amountPercent : Q
}.

Record t := {
  config : GridConfig;
  isActive : bool;
  totalSignals : nat;
  gridLevels : list Level;
  basePrice : option Q;
  lastRebalance : option Z
}.

Definition constructor (config : GridConfig) : t := {|
  config := config;
  isActive := false;
  totalSignals := 0;
  gridLevels := [];
  basePrice := None;
  lastRebalance := None
|}.

Definition activate (st : t) : t := {|
  config := st.(config); isActive := true; totalSignals := st.(totalSignals);
  gridLevels := st.(gridLevels); basePrice := st.(basePrice);
  lastRebalance := st.(lastRebalance) |}.

(** The step between two levels, [range / (numLevels - 1)].  With
    [numLevels = 1] the divisor is 0: JavaScript gives [Infinity] or [NaN],
    the level's multiplier and price are [NaN] and no comparison with them
    holds.  The rational model has no such value, so statements about level
    prices are made for [numLevels] other than 1. *)
Definition step (config : GridConfig) : Q :=
  ((config.(rangeMax) - config.(rangeMin))
   / (BaseStrategy.natQ config.(numLevels) - 1))%Q.

Definition levelAt (config : GridConfig) (basePrice : Q) (i : nat) : Level :=
  let multiplier := (config.(rangeMin) + step config * BaseStrategy.natQ i)%Q in
  {| levelIndex := i;
     price := (basePrice * (1 + multiplier))%Q;
     multiplier := multiplier;
     action := if Qltb multiplier 0 then "buy"
               else if Qltb 0 multiplier then "sell" else "neutral";
     amountPercent := config.(amountPerLevel);
     isTriggered := false |}.

(** The loop [for (let i = 0; i < numLevels; i++) levels.push(...)]. *)
Definition calculateGridLevels (config : GridConfig) (basePrice : Q) : list Level :=
  map (levelAt config basePrice) (seq 0 config.(numLevels)).

Definition initialize (now : Z) (basePrice : Q) (st : t) : t := {|
  config := st.(config); isActive := st.(isActive);
  totalSignals := st.(totalSignals);
  gridLevels := calculateGridLevels st.(config) basePrice;
  basePrice := Some basePrice;
  lastRebalance := Some now |}.

(** One turn of the loop of [findClosestLevel]: the position and level that
    is closest so far, with its distance ([None]: nothing yet, distance
    infinite). *)
Definition closer (currentPrice : Q) (acc : option (nat * Level * Q))
    (il : nat * Level) : option (nat * Level * Q) :=
  let distance := Qabs (currentPrice - il.2.(price)) in
  match acc with
  | None => Some (il.1, il.2, distance)
  | Some (_, _, minDistance) =>
      if Qltb distance minDistance then Some (il.1, il.2, distance) else acc
  end.

Definition closest (currentPrice : Q) (levels : list Level)
  : option (nat * Level * Q) :=
  fold_left (closer currentPrice) (combine (seq 0 (length levels)) levels) None.

(** What the loop of [findClosestLevel] has established once the levels
    [done] have been visited. *)
Definition closest_inv (currentPrice : Q) (done : list Level)
    (acc : option (nat * Level * Q)) : Prop :=
  match acc with
  | None => done = []
  | Some (i, l, d) =>
      done !! i = Some l /\ d = Qabs (currentPrice - price l) /\
      (forall j lj, done !! j = Some lj -> (d <= Qabs (currentPrice - price lj))%Q) /\
      (forall j lj, (j < i)%nat -> done !! j = Some lj ->
         (d < Qabs (currentPrice - price lj))%Q)
  end.

(** Two runs of the loop over grids with the same prices choose the same
    position at the same distance. *)
Definition same_choice (a b : option (nat * Level * Q)) : Prop :=
  match a, b with
  | None, None => True
  | Some (i, _, d), Some (i', _, d') => i = i' /\ d = d'
  | _, _ => False
  end.

Definition findClosestLevel (currentPrice : Q) (st : t) : option Level :=
  match closest currentPrice st.(gridLevels) with
  | Some (_, level, _) => Some level
  | None => None
  end.

Definition shouldRebalance (now : Z) (st : t) : bool :=
  if negb (truthyZ st.(lastRebalance)) then false
  else (st.(config).(rebalanceInterval) * 1000 <=? now - default 0%Z st.(lastRebalance))%Z.

Definition rebalance (now : Z) (newBasePrice : Q) (st : t) : t :=
  let priceChange := BaseStrategy.calculatePriceChange newBasePrice st.(basePrice) in
  if Qltb (Qabs priceChange) 5 then st
  else {|
    config := st.(config); isActive := st.(isActive);
    totalSignals := st.(totalSignals);
    gridLevels := calculateGridLevels st.(config) newBasePrice;
    basePrice := Some newBasePrice;
    lastRebalance := Some now |}.

Definition markTriggered (level : Level) : Level := {|
  levelIndex := level.(levelIndex); price := level.(price);
  multiplier := level.(multiplier); action := level.(action);
  amountPercent := level.(amountPercent); isTriggered := true |}.

(** [!this.basePrice]: null or 0. *)
Definition hasBase (st : t) : bool :=
  match st.(basePrice) with
  | Some b => truthyQ b
  | None => false
  end.

(** The grid as [analyze] sees it once initialised and rebalanced. *)
Definition prepare (now : Z) (currentPrice : Q) (st : t) : t :=
  let st1 := if hasBase st then st else initialize now currentPrice st in
  if shouldRebalance now st1 then rebalance now currentPrice st1 else st1.

Definition analyze (now : Z) (currentPrice : Q) (st : t) : option Signal * t :=
  if negb st.(isActive) then (None, st)
  else
    let st2 := prepare now currentPrice st in
    match closest currentPrice st2.(gridLevels) with
    | None => (None, st2)
    | Some (i, closestLevel, _) =>
        let distance :=
          Qabs ((currentPrice - closestLevel.(price)) / closestLevel.(price)) in
        (* over a level price of 0 the quotient is Infinity or NaN, and
           neither is below 0.005 *)
        let near := truthyQ closestLevel.(price) && Qltb distance (5 # 1000) in
        if near && negb closestLevel.(isTriggered)
        then
          (Some {| sig_action := closestLevel.(action);
                   sig_confidence := 8 # 10;
                   sig_price := currentPrice;
                   sig_levelIndex := closestLevel.(levelIndex);
                   sig_amountPercent := closestLevel.(amountPercent) |},
           {| config := st2.(config); isActive := st2.(isActive);
              totalSignals := S st2.(totalSignals);
              gridLevels := <[i := markTriggered closestLevel]> st2.(gridLevels);
              basePrice := st2.(basePrice);
              lastRebalance := st2.(lastRebalance) |})
        else (None, st2)
    end.

Definition reset (st : t) : t := {|
  config := st.(config); isActive := st.(isActive); totalSignals := 0;
  gridLevels := []; basePrice := None; lastRebalance := None |}.

(** A symmetric grid of five levels from -5% to +5%, rebalanced every 300 s. *)
Definition sample_config : GridConfig := {|
  numLevels := 5;
  rangeMin := - (5 # 100);
  rangeMax := 5 # 100;
  amountPerLevel := 2 # 100;
  rebalanceInterval := 300
|}.

(** A grid whose prices are exact in binary floating point as well: three
    levels from -50% to +50%, around 100 the prices 50, 100 and 150. *)
Definition dyadic_config : GridConfig := {|
  numLevels := 3;
  rangeMin := - (1 # 2);
  rangeMax := 1 # 2;
  amountPerLevel := 2 # 100;
  rebalanceInterval := 300
|}.

End GridTrading.

(** ** Indicators ([src/indicators/rsi.js], [src/indicators/ema.js]) *)

Module Indicators.

(** [array.slice(-n)]: the last [n] elements, the whole array when it is
    shorter; [slice(-0)] is [slice(0)], the whole array. *)
Definition slice_last {A} (n : nat) (l : list A) : list A :=
  match n with
  | O => l
  | S _ => drop (length l - n) l
  end.

(** The loop [for (i = 1; i < prices.length; i++)
    changes.push(prices[i] - prices[i - 1])]. *)
Fixpoint changes (prices : list Q) : list Q :=
  match prices with
  | [] => []
  | previous :: rest =>
      match rest with
      | [] => []
      | current :: _ => (current - previous)%Q :: changes rest
      end
  end.

Definition gain (change : Q) : Q := if Qltb 0 change then change else 0%Q.
Definition loss (change : Q) : Q := if Qltb change 0 then Qabs change else 0%Q.

(** [calculateRSI(prices, period)]; [None] is null. *)
Definition calculateRSI (prices : list Q) (period : nat) : option Q :=
  if (length prices <? period + 1)%nat then None
  else
    let gains := map gain (changes prices) in
    let losses := map loss (changes prices) in
    let recentGains := slice_last period gains in
    let recentLosses := slice_last period losses in
    let avgGain := (StrategySelection.sum recentGains / BaseStrategy.natQ period)%Q in
    let avgLoss := (StrategySelection.sum recentLosses / BaseStrategy.natQ period)%Q in
    if Qeq_bool avgLoss 0 then Some 100%Q
    else
      let rs := (avgGain / avgLoss)%Q in
      Some (100 - 100 / (1 + rs))%Q.

(** One turn of the loop of [calculateEMA]. *)
Definition emaStep (multiplier : Q) (ema price : Q) : Q :=
  ((price - ema) * multiplier + ema)%Q.

(** [calculateEMA(prices, period)]; [None] is null. *)
Definition calculateEMA (prices : list Q) (period : nat) : option Q :=
  if (length prices <? period)%nat then None
  else
    let multiplier := (2 / (BaseStrategy.natQ period + 1))%Q in
    let firstPrices := take period prices in
    let ema := (StrategySelection.sum firstPrices / BaseStrategy.natQ period)%Q in
    Some (fold_left (emaStep multiplier) (drop period prices) ema).

End Indicators.

(** ** MomentumStrategy: the price and volume history *)

Module Momentum.

Record t := {
  lookbackPeriod : nat;
  priceHistory : list Q;
  volumeHistory : list Q
}.

(** The histories as the constructor and [reset] leave them. *)
Definition empty (lookbackPeriod : nat) : t :=
  {| lookbackPeriod := lookbackPeriod; priceHistory := []; volumeHistory := [] |}.

(** [array.shift()]. *)
Definition shift (l : list Q) : list Q := tail l.

(** [updateHistory(marketData)]: [data] is [(price, volume)]. *)
Definition updateHistory (data : Q * Q) (st : t) : t :=
  let priceHistory := st.(priceHistory) ++ [data.1] in
  let volumeHistory := st.(volumeHistory) ++ [data.2] in
  let maxHistory := (st.(lookbackPeriod) + 10)%nat in
  {| lookbackPeriod := st.(lookbackPeriod);
     priceHistory :=
       if (maxHistory <? length priceHistory)%nat then shift priceHistory
       else priceHistory;
     volumeHistory :=
       if (maxHistory <? length volumeHistory)%nat then shift volumeHistory
       else volumeHistory |}.

Definition updates (feed : list (Q * Q)) (st : t) : t :=
  fold_left (fun s data => updateHistory data s) feed st.

(** [calculateAverageVolume()]. *)
Definition calculateAverageVolume (st : t) : Q :=
  if (length st.(volumeHistory) =? 0)%nat then 0%Q
  else (StrategySelection.sum st.(volumeHistory)
        / BaseStrategy.natQ (length st.(volumeHistory)))%Q.

End Momentum.

(** * Proofs *)

(** ** Boolean comparisons on rationals *)

Lemma Qltb_lt (x y : Q) : Qltb x y = true <-> (x < y)%Q.
Proof.
  unfold Qltb. rewrite negb_true_iff. split; intros H.
  - apply Qnot_le_lt. intros Hle. apply Qle_bool_iff in Hle. congruence.
  - destruct (Qle_bool y x) eqn:E; [|reflexivity].
    apply Qle_bool_iff in E. exfalso. apply (Qlt_not_le _ _ H E).
Qed.

Lemma Qltb_ge (x y : Q) : Qltb x y = false <-> (y <= x)%Q.
Proof.
  unfold Qltb. rewrite negb_false_iff. apply Qle_bool_iff.
Qed.

Lemma Qle_bool_false (x y : Q) : Qle_bool x y = false -> (y < x)%Q.
Proof.
  intros H. apply Qnot_le_lt. intros Hle. apply Qle_bool_iff in Hle. congruence.
Qed.

(** ** DrawdownManager: the level loop *)

Module DrawdownFacts.
Import DrawdownManager DrawdownRun.

Lemma same_capital_refl st : same_capital st st.
Proof. repeat split. Qed.

Lemma same_capital_trans a b c :
  same_capital a b -> same_capital b c -> same_capital a c.
Proof.
  unfold same_capital. intros (?&?&?&?&?&?) (?&?&?&?&?&?).
  repeat split; congruence.
Qed.

Lemma same_capital_sym a b : same_capital a b -> same_capital b a.
Proof. unfold same_capital. intros (?&?&?&?&?&?). repeat split; congruence. Qed.

Lemma pauseTrading_keeps now d st :
  same_capital st (pauseTrading now d st).1 /\
  triggeredLevels (pauseTrading now d st).1 = triggeredLevels st /\
  fired (pauseTrading now d st).2 = [].
Proof.
  unfold pauseTrading. destruct (negb (truthyZ d)); simpl;
    repeat split; reflexivity.
Qed.

Lemma pauseTrading_trace now d a b :
  (pauseTrading now d a).2 = (pauseTrading now d b).2.
Proof. unfold pauseTrading. destruct (negb (truthyZ d)); reflexivity. Qed.

Lemma executeAction_keeps now level st :
  same_capital st (executeAction now level st).1 /\
  triggeredLevels (executeAction now level st).1 = triggeredLevels st /\
  fired (executeAction now level st).2 = [].
Proof.
  unfold executeAction.
  destruct (String.eqb _ "pause"); [apply pauseTrading_keeps|].
  destruct (String.eqb _ "pause_and_reset").
  - pose proof (pauseTrading_keeps now (dl_duration level) st) as (Hc & Ht & Hf).
    destruct (pauseTrading now (dl_duration level) st) as [st1 e1]; simpl in *.
    repeat split; try apply Hc; [exact Ht|].
    unfold fired in *. rewrite omap_app, Hf. reflexivity.
  - destruct (String.eqb _ "stop"); simpl; repeat split; reflexivity.
Qed.

Lemma executeAction_trace now level a b :
  same_capital a b ->
  (executeAction now level a).2 = (executeAction now level b).2.
Proof.
  intros (_ & _ & Hdd & _). unfold executeAction.
  destruct (String.eqb _ "pause"); [apply pauseTrading_trace|].
  destruct (String.eqb _ "pause_and_reset").
  - pose proof (pauseTrading_trace now (dl_duration level) a b) as H.
    destruct (pauseTrading now (dl_duration level) a),
             (pauseTrading now (dl_duration level) b); simpl in *.
    congruence.
  - destruct (String.eqb _ "stop"); simpl; [|reflexivity].
    unfold stopCompletely. simpl. rewrite Hdd. reflexivity.
Qed.

Lemma triggerLevel_keeps now i level st :
  same_capital st (triggerLevel now i level st).1 /\
  triggeredLevels (triggerLevel now i level st).1 = triggeredLevels st ++ [i] /\
  fired (triggerLevel now i level st).2 = [i].
Proof.
  unfold triggerLevel.
  pose proof (executeAction_keeps now level (mark_triggered i st)) as (Hc & Ht & Hf).
  destruct (executeAction now level (mark_triggered i st)) as [st2 es]; simpl in *.
  split; [|split].
  - eapply same_capital_trans; [|exact Hc]. repeat split.
  - exact Ht.
  - unfold fired in *. simpl. rewrite Hf. reflexivity.
Qed.

Lemma triggerLevel_trace now i level a b :
  same_capital a b ->
  (triggerLevel now i level a).2 = (triggerLevel now i level b).2.
Proof.
  intros Hab. unfold triggerLevel.
  assert (Hm : same_capital (mark_triggered i a) (mark_triggered i b)).
  { destruct Hab as (?&?&?&?&?&?). repeat split; simpl; assumption. }
  pose proof (executeAction_trace now level _ _ Hm) as He.
  destruct Hab as (Hp & Hc & Hd & _).
  destruct (executeAction now level (mark_triggered i a)),
           (executeAction now level (mark_triggered i b)); simpl in *.
  rewrite Hp, Hc, Hd, He. reflexivity.
Qed.

Lemma includes_app_other i j trig :
  i <> j -> includes j (trig ++ [i]) = includes j trig.
Proof.
  intros Hne. unfold includes. rewrite existsb_app. simpl.
  destruct (Nat.eqb_spec j i); [congruence|].
  rewrite !orb_false_r. reflexivity.
Qed.

Lemma includes_elem_of i trig : includes i trig = true <-> i ∈ trig.
Proof.
  unfold includes. rewrite existsb_exists. split.
  - intros (x & Hx & Heq). apply Nat.eqb_eq in Heq. subst.
    apply list_elem_of_In. exact Hx.
  - intros H. exists i. split; [apply list_elem_of_In, H|apply Nat.eqb_refl].
Qed.

(** Pushing index [i] does not change the selection among later indices. *)
Lemma selected_push dd trig i j ls :
  (i < j)%nat -> selected dd (trig ++ [i]) j ls = selected dd trig j ls.
Proof.
  intros Hlt. unfold selected. apply filter_ext_in.
  intros [k l] Hin. apply in_combine_l in Hin. apply in_seq in Hin.
  unfold should_fire. simpl. rewrite includes_app_other by lia. reflexivity.
Qed.

Lemma selected_cons dd trig i level rest :
  selected dd trig i (level :: rest) =
  if Qle_bool dd (dl_percent level) && negb (includes i trig)
  then (i, level) :: selected dd trig (S i) rest
  else selected dd trig (S i) rest.
Proof. reflexivity. Qed.

(** What one pass of the loop does, in terms of the state it starts from. *)
Lemma checkLoop_spec now ls : forall i st,
  let sel := selected (currentDrawdown st) (triggeredLevels st) i ls in
  same_capital st (checkLoop now i ls st).1 /\
  triggeredLevels (checkLoop now i ls st).1 = triggeredLevels st ++ sel.*1 /\
  fired (checkLoop now i ls st).2 = sel.*1 /\
  (checkLoop now i ls st).2 =
    flat_map (fun il => (triggerLevel now il.1 il.2 st).2) sel.
Proof.
  induction ls as [|level rest IH]; intros i st sel.
  - simpl. subst sel. unfold selected. simpl. rewrite app_nil_r.
    repeat split.
  - subst sel. rewrite selected_cons. simpl checkLoop.
    destruct (Qle_bool (currentDrawdown st) (dl_percent level)
              && negb (includes i (triggeredLevels st))) eqn:Hg.
    + pose proof (triggerLevel_keeps now i level st) as (Hc & Ht & Hf).
      destruct (triggerLevel now i level st) as [st1 e1] eqn:Etl.
      cbn [fst snd] in Hc, Ht, Hf.
      specialize (IH (S i) st1). cbv zeta in IH.
      destruct IH as (Hc' & Ht' & Hf' & Htr').
      assert (Hsel : selected (currentDrawdown st1) (triggeredLevels st1) (S i) rest
                     = selected (currentDrawdown st) (triggeredLevels st) (S i) rest).
      { destruct Hc as (_ & _ & Hd & _). rewrite <- Hd, Ht.
        apply selected_push. lia. }
      rewrite Hsel in Ht', Hf', Htr'.
      destruct (checkLoop now (S i) rest st1) as [st2 e2].
      cbn [fst snd] in *.
      split; [eapply same_capital_trans; eassumption|].
      split; [rewrite Ht', Ht, <- app_assoc; reflexivity|].
      split; [unfold fired in *; rewrite omap_app, Hf, Hf'; reflexivity|].
      cbn [flat_map fst snd]. rewrite Etl. cbn [snd]. f_equal.
      rewrite Htr'. apply flat_map_ext. intros [k l]. cbn [fst snd].
      apply triggerLevel_trace, same_capital_sym, Hc.
    + specialize (IH (S i) st). cbv zeta in IH.
      destruct IH as (Hc' & Ht' & Hf' & Htr').
      destruct (checkLoop now (S i) rest st) as [st2 e2].
      cbn [fst snd] in *. rewrite app_nil_l.
      repeat split; try apply Hc'; assumption.
Qed.

Lemma in_combine_seq {A} (ls : list A) : forall k i (x : A),
  In (i, x) (combine (seq k (length ls)) ls) <->
  (k <= i)%nat /\ ls !! (i - k)%nat = Some x.
Proof.
  induction ls as [|y ls IH]; intros k i x; simpl.
  - split; [tauto|]. intros [_ H]. discriminate.
  - rewrite IH. split.
    + intros [H|[Hle Hl]].
      * inversion H; subst. split; [lia|]. rewrite Nat.sub_diag. reflexivity.
      * split; [lia|]. replace (i - k)%nat with (S (i - S k)) by lia. exact Hl.
    + intros [Hle Hl]. destruct (decide (i = k)) as [->|Hne].
      * rewrite Nat.sub_diag in Hl. simpl in Hl. left. congruence.
      * right. split; [lia|].
        replace (i - k)%nat with (S (i - S k)) in Hl by lia. exact Hl.
Qed.

Lemma selected_bounds dd trig ls : forall i il,
  In il (selected dd trig i ls) -> (i <= il.1)%nat.
Proof.
  intros i [k l] Hin. unfold selected in Hin.
  apply filter_In in Hin as [Hin _]. apply in_combine_seq in Hin. simpl. lia.
Qed.

Lemma selected_sorted dd trig ls : forall i,
  StronglySorted lt (selected dd trig i ls).*1.
Proof.
  induction ls as [|level rest IH]; intros i.
  - constructor.
  - rewrite selected_cons. destruct (_ && _); [|apply IH].
    rewrite fmap_cons. constructor; [apply IH|].
    apply Forall_forall. intros k Hk. apply list_elem_of_fmap in Hk as (il & -> & Hil).
    apply list_elem_of_In, selected_bounds in Hil. simpl. lia.
Qed.

Lemma selected_elem_of dd trig ls i :
  i ∈ (selected dd trig 0 ls).*1 <->
  exists l, ls !! i = Some l /\ Qle_bool dd (dl_percent l) = true /\ i ∉ trig.
Proof.
  rewrite list_elem_of_fmap. split.
  - intros ([k l] & -> & Hin). apply list_elem_of_In in Hin.
    unfold selected in Hin. apply filter_In in Hin as [Hin Hg].
    apply in_combine_seq in Hin as [_ Hl]. rewrite Nat.sub_0_r in Hl.
    unfold should_fire in Hg. simpl in *. apply andb_true_iff in Hg as [Hd Hn].
    exists l. split; [exact Hl|]. split; [exact Hd|].
    intros Hc. apply includes_elem_of in Hc. rewrite Hc in Hn. discriminate.
  - intros (l & Hl & Hd & Hn). exists (i, l). split; [reflexivity|].
    apply list_elem_of_In. unfold selected. apply filter_In. split.
    + apply in_combine_seq. rewrite Nat.sub_0_r. split; [lia|exact Hl].
    + unfold should_fire. simpl. rewrite Hd. simpl.
      destruct (includes i trig) eqn:E; [|reflexivity].
      apply includes_elem_of in E. contradiction.
Qed.

Lemma selected_NoDup dd trig ls i : NoDup (trig ++ (selected dd trig i ls).*1) <-> NoDup trig.
Proof.
  rewrite NoDup_app. split; [tauto|]. intros Hnd. split; [exact Hnd|]. split.
  - intros k Hk Hsel. apply list_elem_of_fmap in Hsel as ([k' l] & -> & Hin).
    apply list_elem_of_In in Hin. unfold selected in Hin.
    apply filter_In in Hin as [_ Hg]. unfold should_fire in Hg. simpl in *.
    apply andb_true_iff in Hg as [_ Hn]. apply includes_elem_of in Hk.
    rewrite Hk in Hn. discriminate.
  - pose proof (selected_sorted dd trig ls i) as Hs.
    induction Hs as [|k l Hs IH Hall]; constructor; [|exact IH].
    intros Hk. rewrite Forall_forall in Hall. apply Hall in Hk. lia.
Qed.

(** *** [recompute]: the arithmetic of [updateCapital] *)

Lemma recompute_peak c st :
  peakCapital (recompute c st) = if Qltb (peakCapital st) c then c else peakCapital st.
Proof.
  unfold recompute. simpl. destruct (Qltb (peakCapital st) c); simpl;
    match goal with |- context [if ?b then _ else _] => destruct b end; reflexivity.
Qed.

Lemma recompute_current c st : currentCapital (recompute c st) = c.
Proof.
  unfold recompute. simpl. destruct (Qltb (peakCapital st) c); simpl;
    match goal with |- context [if ?b then _ else _] => destruct b end; reflexivity.
Qed.

Lemma recompute_drawdown c st :
  currentDrawdown (recompute c st) =
  ((currentCapital (recompute c st) - peakCapital (recompute c st))
   / peakCapital (recompute c st))%Q.
Proof.
  unfold recompute. simpl. destruct (Qltb (peakCapital st) c); simpl;
    match goal with |- context [if ?b then _ else _] => destruct b end; reflexivity.
Qed.

Lemma recompute_triggered c st :
  triggeredLevels (recompute c st) = triggeredLevels st /\
  levels (recompute c st) = levels st.
Proof.
  unfold recompute. simpl. destruct (Qltb (peakCapital st) c); simpl;
    match goal with |- context [if ?b then _ else _] => destruct b end;
    split; reflexivity.
Qed.

Lemma updateCapital_capital now c st :
  same_capital (recompute c st) (updateCapital now c st).1.
Proof. unfold updateCapital, checkDrawdownLevels. apply checkLoop_spec. Qed.

(** *** Capital invariant along runs *)

Lemma capital_inv_same a b : same_capital a b -> capital_inv a -> capital_inv b.
Proof.
  unfold capital_inv. intros (Hp & Hc & Hd & _). rewrite Hp, Hc, Hd. tauto.
Qed.

Lemma capital_inv_drawdown st : capital_inv st -> (currentDrawdown st <= 0)%Q.
Proof.
  intros (Hpos & Hle & Hdd). rewrite Hdd.
  apply Qle_shift_div_r; [exact Hpos|]. lra.
Qed.

Lemma recompute_inv c st : capital_inv st -> capital_inv (recompute c st).
Proof.
  intros (Hpos & _ & _). unfold capital_inv.
  rewrite recompute_drawdown, recompute_current, recompute_peak.
  destruct (Qltb (peakCapital st) c) eqn:E.
  - apply Qltb_lt in E. split; [lra|]. split; [lra|reflexivity].
  - apply Qltb_ge in E. split; [lra|]. split; [lra|reflexivity].
Qed.

Lemma exec_same_capital op st :
  match op with
  | OpUpdateCapital now c => same_capital (recompute c st) (exec op st).1
  | _ => same_capital st (exec op st).1
  end.
Proof.
  destruct op as [now c| |now]; simpl.
  - apply updateCapital_capital.
  - unfold resumeTrading. destruct (negb (isPaused st)); repeat split.
  - unfold isTradingPaused, resumeTrading.
    destruct (isPaused st); simpl; [|repeat split].
    destruct (pauseUntil st) as [u|];
      match goal with |- context [if ?b then _ else _] => destruct b end;
      repeat split.
Qed.

Lemma exec_inv op st : capital_inv st -> capital_inv (exec op st).1.
Proof.
  intros Hinv. pose proof (exec_same_capital op st) as H.
  destruct op; (eapply capital_inv_same; [exact H|]);
    [apply recompute_inv| |]; exact Hinv.
Qed.

Lemma exec_peak op st : (peakCapital st <= peakCapital (exec op st).1)%Q.
Proof.
  pose proof (exec_same_capital op st) as H.
  destruct op as [now c| |now]; destruct H as (Hp & _); rewrite <- Hp;
    try apply Qle_refl.
  rewrite recompute_peak. destruct (Qltb (peakCapital st) c) eqn:E.
  - apply Qltb_lt in E. lra.
  - apply Qle_refl.
Qed.

Lemma run_app_step op ops st :
  run (op :: ops) st =
  ((run ops (exec op st).1).1, (exec op st).2 ++ (run ops (exec op st).1).2).
Proof.
  simpl. destruct (exec op st) as [st1 e1]. simpl.
  destruct (run ops st1) as [st2 e2]. reflexivity.
Qed.

Lemma run_peak ops : forall st,
  (peakCapital st <= peakCapital (run ops st).1)%Q.
Proof.
  induction ops as [|op ops IH]; intros st; [apply Qle_refl|].
  rewrite run_app_step. simpl.
  eapply Qle_trans; [apply exec_peak|]. apply IH.
Qed.

Section PositiveCapital.

(** The manager is built from a configuration whose initial capital is
    positive, as the configuration tests require. *)
Variable cfg : Config.
Hypothesis initial_positive : (0 < cfg_initialCapital cfg)%Q.

Lemma constructor_inv : capital_inv (constructor cfg).
Proof.
  unfold capital_inv, constructor. simpl.
  repeat split; [exact initial_positive|apply Qle_refl|].
  field. intros H. pose proof initial_positive as Hpos.
  rewrite H in Hpos. apply (Qlt_irrefl 0 Hpos).
Qed.

Lemma reachable_inv st : reachable cfg st -> capital_inv st.
Proof.
  intros Hr. induction Hr as [|op st Hr IH|st Hr IH].
  - apply constructor_inv.
  - apply exec_inv, IH.
  - apply constructor_inv.
Qed.

Lemma run_reachable ops : forall st,
  reachable cfg st -> reachable cfg (run ops st).1.
Proof.
  induction ops as [|op ops IH]; intros st Hr; [exact Hr|].
  rewrite run_app_step. simpl. apply IH. constructor. exact Hr.
Qed.

(** C1. After construction or reset, along every sequence of calls, each
    [updateCapital(newCapital)] raises [peakCapital] exactly when [newCapital]
    exceeds it and otherwise keeps it, so the peak never decreases; and after
    the call [currentDrawdown] is [(currentCapital - peakCapital) / peakCapital]
    and is at most 0.  The configured initial capital is positive. *)
Theorem updateCapital_peak_monotone_drawdown_nonpositive
    (st : t) (now : Z) (newCapital : Q) :
  reachable cfg st ->
  let st' := (updateCapital now newCapital st).1 in
  peakCapital st' =
    (if Qltb (peakCapital st) newCapital then newCapital else peakCapital st) /\
  (peakCapital st <= peakCapital st')%Q /\
  currentCapital st' = newCapital /\
  currentDrawdown st' =
    ((currentCapital st' - peakCapital st') / peakCapital st')%Q /\
  (currentDrawdown st' <= 0)%Q /\
  (forall ops, (peakCapital st' <= peakCapital (run ops st').1)%Q /\
               (currentDrawdown (run ops st').1 <= 0)%Q).
Proof.
  intros Hr st'.
  assert (Hr' : reachable cfg st')
    by exact (reach_exec cfg (OpUpdateCapital now newCapital) st Hr).
  pose proof (reachable_inv st' Hr') as Hinv'.
  pose proof (updateCapital_capital now newCapital st) as (Hp & Hc & Hd & _).
  fold st' in Hp, Hc, Hd.
  split; [rewrite <- Hp; apply recompute_peak|].
  split; [exact (exec_peak (OpUpdateCapital now newCapital) st)|].
  split; [rewrite <- Hc; apply recompute_current|].
  split; [rewrite <- Hd, <- Hc, <- Hp; apply recompute_drawdown|].
  split; [apply capital_inv_drawdown, Hinv'|].
  intros ops. split; [apply run_peak|].
  apply capital_inv_drawdown, reachable_inv, run_reachable, Hr'.
Qed.

End PositiveCapital.

(** C1 at the default configuration: a fall from 50 to 40. *)
Lemma updateCapital_peak_monotone_witness :
  (0 < cfg_initialCapital default_config)%Q /\
  reachable default_config (constructor default_config) /\
  (currentDrawdown (updateCapital 0 40 (constructor default_config)).1 <= 0)%Q.
Proof.
  assert (H0 : (0 < cfg_initialCapital default_config)%Q) by reflexivity.
  split; [exact H0|]. split; [constructor|].
  pose proof (updateCapital_peak_monotone_drawdown_nonpositive
                default_config H0 (constructor default_config) 0 40
                (reach_new default_config)) as H.
  cbv zeta in H. destruct H as (_ & _ & _ & _ & H & _). exact H.
Defined.

(** *** One-shot levels *)

Lemma exec_triggered op st :
  triggeredLevels (exec op st).1 = triggeredLevels st ++ fired (exec op st).2 /\
  (NoDup (triggeredLevels st) -> NoDup (triggeredLevels (exec op st).1)).
Proof.
  destruct op as [now c| |now]; simpl.
  - unfold updateCapital, checkDrawdownLevels.
    pose proof (checkLoop_spec now (levels (recompute c st)) 0%nat (recompute c st))
      as (_ & Ht & Hf & _).
    destruct (recompute_triggered c st) as [Htr _]. rewrite Htr in Ht.
    rewrite Ht, Hf, Htr. split; [reflexivity|]. apply selected_NoDup.
  - unfold resumeTrading. destruct (negb (isPaused st)); simpl;
      rewrite app_nil_r; auto.
  - unfold isTradingPaused, resumeTrading.
    destruct (isPaused st); simpl; [|rewrite app_nil_r; auto].
    destruct (pauseUntil st) as [u|];
      match goal with |- context [if ?b then _ else _] => destruct b end;
      simpl; rewrite app_nil_r; auto.
Qed.

Lemma run_triggered ops : forall st,
  NoDup (triggeredLevels st) ->
  triggeredLevels (run ops st).1 = triggeredLevels st ++ fired (run ops st).2 /\
  NoDup (triggeredLevels (run ops st).1).
Proof.
  induction ops as [|op ops IH]; intros st Hnd.
  - simpl. rewrite app_nil_r. auto.
  - rewrite run_app_step. cbn [fst snd].
    destruct (exec_triggered op st) as [He Hn].
    destruct (IH (exec op st).1 (Hn Hnd)) as [Hr Hn'].
    split; [|exact Hn'].
    rewrite Hr, He. unfold fired. rewrite omap_app, app_assoc. reflexivity.
Qed.

Lemma updateCapital_fired now c st :
  fired (updateCapital now c st).2 =
  (selected (currentDrawdown (recompute c st)) (triggeredLevels st) 0
     (levels st)).*1.
Proof.
  unfold updateCapital, checkDrawdownLevels.
  pose proof (checkLoop_spec now (levels (recompute c st)) 0%nat (recompute c st))
    as (_ & _ & Hf & _).
  destruct (recompute_triggered c st) as [Htr Hl]. rewrite Htr, Hl in Hf.
  rewrite Hl. exact Hf.
Qed.

(** C3. Within one run (a manager fresh from the constructor or from
    [reset], then any calls but [reset]) no level index is fired twice: the
    trace of the whole run carries each index at most once, the indices fired
    are exactly [triggeredLevels], and once an index is in [triggeredLevels] a
    later [updateCapital] does not fire it again, whatever the drawdown did in
    between. *)
Theorem drawdown_level_fires_at_most_once (cfg : Config) (st0 : t) (ops : list Op) :
  let start := reset cfg st0 in
  NoDup (fired (run ops (constructor cfg)).2) /\
  triggeredLevels (run ops (constructor cfg)).1 = fired (run ops (constructor cfg)).2 /\
  NoDup (fired (run ops start).2) /\
  triggeredLevels (run ops start).1 = fired (run ops start).2 /\
  (forall st i now c,
     i ∈ triggeredLevels st ->
     i ∉ fired (updateCapital now c st).2).
Proof.
  intros start.
  assert (Hn0 : NoDup (triggeredLevels (constructor cfg))) by constructor.
  assert (Hn1 : NoDup (triggeredLevels start)) by constructor.
  destruct (run_triggered ops _ Hn0) as [He0 Hd0].
  destruct (run_triggered ops _ Hn1) as [He1 Hd1].
  simpl in He0, He1.
  split; [rewrite <- He0; exact Hd0|]. split; [exact He0|].
  split; [rewrite <- He1; exact Hd1|]. split; [exact He1|].
  intros st i now c Hin Hf. rewrite updateCapital_fired in Hf.
  apply selected_elem_of in Hf as (l & _ & _ & Hn). contradiction.
Qed.

(** C3 on an oscillation: capital 94, 100, 94 under a peak of 100 fires
    level 1 once, and a later fall to 90 does not fire it again. *)
Lemma drawdown_level_fires_at_most_once_witness :
  let r := run [OpUpdateCapital 0 94; OpUpdateCapital 1 100; OpUpdateCapital 2 94]
             (constructor example_config) in
  fired r.2 = [0%nat] /\ NoDup (fired r.2) /\
  0%nat ∈ triggeredLevels r.1 /\
  0%nat ∉ fired (updateCapital 3 90 r.1).2.
Proof.
  cbv zeta.
  destruct (drawdown_level_fires_at_most_once example_config
              (constructor example_config)
              [OpUpdateCapital 0 94; OpUpdateCapital 1 100; OpUpdateCapital 2 94])
    as (Hnd & _ & _ & _ & Hno).
  assert (Hin : 0%nat ∈ triggeredLevels
            (run [OpUpdateCapital 0 94; OpUpdateCapital 1 100; OpUpdateCapital 2 94]
               (constructor example_config)).1).
  { replace (triggeredLevels _) with [0%nat] by (vm_compute; reflexivity).
    apply list_elem_of_here. }
  split; [vm_compute; reflexivity|]. split; [exact Hnd|]. split; [exact Hin|].
  exact (Hno _ 0%nat 3%Z 90%Q Hin).
Defined.

(** *** The actions against what the configuration asks for *)

Lemma executeAction_effect now level st :
  (executeAction now level st).2 = configured_events (currentDrawdown st) level /\
  pause_state (executeAction now level st).1 =
    match configured_pause level with
    | Some d => (true, Some (now + d * 1000)%Z)
    | None => pause_state st
    end.
Proof.
  unfold executeAction, configured_events, configured_pause, configured_timer,
    pauseTrading, resetToConservative, stopCompletely, truthyZ.
  destruct (String.eqb (dl_action level) "pause");
    [|destruct (String.eqb (dl_action level) "pause_and_reset");
      [|destruct (String.eqb (dl_action level) "stop")]];
    cbn [orb]; destruct (dl_duration level) as [d|];
    try destruct (d =? 0)%Z; cbn; split; reflexivity.
Qed.

Lemma triggerLevel_effect now i level st :
  (triggerLevel now i level st).2 =
    level_event st i level :: configured_events (currentDrawdown st) level /\
  pause_state (triggerLevel now i level st).1 =
    match configured_pause level with
    | Some d => (true, Some (now + d * 1000)%Z)
    | None => pause_state st
    end.
Proof.
  unfold triggerLevel.
  destruct (executeAction_effect now level (mark_triggered i st)) as [He Hp].
  destruct (executeAction now level (mark_triggered i st)) as [st2 es].
  cbn [fst snd] in *. rewrite He, Hp. split; reflexivity.
Qed.

Lemma last_omap_cons {A B} (f : A -> option B) x l :
  last (omap f (x :: l)) =
  match last (omap f l) with
  | Some y => Some y
  | None => f x
  end.
Proof.
  change (omap f (x :: l))
    with (match f x with Some y => y :: omap f l | None => omap f l end).
  destruct (f x) as [y|].
  - rewrite last_cons. reflexivity.
  - destruct (last (omap f l)); reflexivity.
Qed.

(** The pause the loop leaves is the one of the last pausing level it
    fired. *)
Lemma checkLoop_pause now ls : forall i st,
  let sel := selected (currentDrawdown st) (triggeredLevels st) i ls in
  pause_state (checkLoop now i ls st).1 =
    match last (omap configured_pause sel.*2) with
    | Some d => (true, Some (now + d * 1000)%Z)
    | None => pause_state st
    end.
Proof.
  induction ls as [|level rest IH]; intros i st sel; [reflexivity|].
  subst sel. rewrite selected_cons. simpl checkLoop.
  destruct (Qle_bool (currentDrawdown st) (dl_percent level)
            && negb (includes i (triggeredLevels st))) eqn:Hg.
  - pose proof (triggerLevel_keeps now i level st) as (Hc & Ht & _).
    destruct (triggerLevel_effect now i level st) as [_ Hp].
    destruct (triggerLevel now i level st) as [st1 e1].
    cbn [fst snd] in Hc, Ht, Hp.
    specialize (IH (S i) st1). cbv zeta in IH.
    assert (Hsel : selected (currentDrawdown st1) (triggeredLevels st1) (S i) rest
                   = selected (currentDrawdown st) (triggeredLevels st) (S i) rest).
    { destruct Hc as (_ & _ & Hd & _). rewrite <- Hd, Ht.
      apply selected_push. lia. }
    rewrite Hsel in IH.
    destruct (checkLoop now (S i) rest st1) as [st2 e2]. cbn [fst snd] in *.
    rewrite fmap_cons. cbn [snd]. rewrite last_omap_cons, IH, Hp.
    destruct (last (omap configured_pause
                (selected (currentDrawdown st) (triggeredLevels st) (S i) rest).*2));
      reflexivity.
  - specialize (IH (S i) st). cbv zeta in IH.
    destruct (checkLoop now (S i) rest st) as [st2 e2]. exact IH.
Qed.

Lemma recompute_pause c st : pause_state (recompute c st) = pause_state st.
Proof.
  unfold recompute. simpl. destruct (Qltb (peakCapital st) c); simpl;
    match goal with |- context [if ?b then _ else _] => destruct b end; reflexivity.
Qed.

(** C7. One [updateCapital] call on a manager with a positive peak fires
    every level whose threshold the new drawdown satisfies and whose index is
    not yet in [triggeredLevels], all within that call and in ascending index
    order, and each fired level executes its configured action: the trace of
    the call is, level by level, the level's event followed by what its
    action must emit (a pause schedules its resume after [duration] seconds,
    a pause-and-reset also announces the conservative strategy, a stop
    announces that the bot stopped with the drawdown in percent), and the
    call leaves trading paused until [now + 1000 * duration] of the last
    fired level that pauses, or as it was when none does.  With thresholds
    -5% (pause, 1800 s), -10% (pause_and_reset, 7200 s), -15% (stop), a peak
    of 100 and a drop to 84, levels 1, 2 and 3 fire in that order with the
    seven events written out below, the call ends with the stop action, and
    trading is paused for 7200 s. *)
Theorem updateCapital_fires_all_satisfied_levels (st : t) (now : Z) (newCapital : Q) :
  (0 < peakCapital st)%Q ->
  let st0 := recompute newCapital st in
  let tr := (updateCapital now newCapital st).2 in
  let sel := selected (currentDrawdown st0) (triggeredLevels st) 0 (levels st) in
  (forall i l, levels st !! i = Some l ->
     (i ∈ fired tr <->
      (currentDrawdown st0 <= dl_percent l)%Q /\ i ∉ triggeredLevels st)) /\
  StronglySorted lt (fired tr) /\
  fired tr = sel.*1 /\
  tr = flat_map (fun il => (triggerLevel now il.1 il.2 st0).2) sel /\
  tr = flat_map (fun il => level_event st0 il.1 il.2
                           :: configured_events (currentDrawdown st0) il.2) sel /\
  pause_state (updateCapital now newCapital st).1 =
    match last (omap configured_pause sel.*2) with
    | Some d => (true, Some (now + d * 1000)%Z)
    | None => pause_state st
    end /\
  triggeredLevels (updateCapital now newCapital st).1 = triggeredLevels st ++ fired tr /\
  let ex := updateCapital now 84 (constructor example_config) in
  let dd := Qabs (currentDrawdown (recompute 84 (constructor example_config)) * 100) in
  fired ex.2 = [0; 1; 2]%nat /\
  fired_actions ex.2 = ["pause"; "pause_and_reset"; "stop"] /\
  (dd == 16)%Q /\
  ex.2 = [ DrawdownLevel (Some "risk.drawdown.level1") 1 dd 100 84
             "pause" (Some 1800%Z);
           SetTimeoutResume 1800000;
           DrawdownLevel (Some "risk.drawdown.level2") 2 dd 100 84
             "pause_and_reset" (Some 7200%Z);
           SetTimeoutResume 7200000;
           StrategyChangedConservative;
           DrawdownLevel (Some "risk.drawdown.level3") 3 dd 100 84
             "stop" None;
           BotStopped (currentDrawdown (recompute 84 (constructor example_config))
                       * 100) ] /\
  (exists d, last ex.2 = Some (BotStopped d)) /\
  pause_state ex.1 = (true, Some (now + 7200000)%Z) /\
  triggeredLevels ex.1 = [0; 1; 2]%nat /\
  currentLevel ex.1 = Some 3%nat.
Proof.
  intros _ st0 tr sel.
  assert (Hf : fired tr = sel.*1) by apply updateCapital_fired.
  assert (Htr : tr = flat_map (fun il => (triggerLevel now il.1 il.2 st0).2) sel).
  { subst tr sel st0. unfold updateCapital, checkDrawdownLevels.
    pose proof (checkLoop_spec now (levels (recompute newCapital st)) 0%nat
                  (recompute newCapital st)) as (_ & _ & _ & Ht).
    destruct (recompute_triggered newCapital st) as [Htr Hl].
    rewrite Htr, Hl in Ht. rewrite Hl. exact Ht. }
  split.
  { intros i l Hl. rewrite Hf. subst sel. rewrite selected_elem_of. split.
    - intros (l' & Hl' & Hd & Hn). rewrite Hl in Hl'. inversion Hl'; subst.
      split; [apply Qle_bool_iff, Hd|exact Hn].
    - intros [Hd Hn]. exists l. split; [exact Hl|].
      split; [apply Qle_bool_iff, Hd|exact Hn]. }
  split; [rewrite Hf; apply selected_sorted|].
  split; [exact Hf|].
  split; [exact Htr|].
  split.
  { rewrite Htr. apply flat_map_ext. intros [i l]. cbn [fst snd].
    apply triggerLevel_effect. }
  split.
  { subst sel st0. unfold updateCapital, checkDrawdownLevels.
    pose proof (checkLoop_pause now (levels (recompute newCapital st)) 0%nat
                  (recompute newCapital st)) as Hp. cbv zeta in Hp.
    destruct (recompute_triggered newCapital st) as [Ht Hl].
    rewrite Ht, Hl, recompute_pause in Hp. rewrite Hl. exact Hp. }
  split.
  { exact (proj1 (exec_triggered (OpUpdateCapital now newCapital) st)). }
  cbv zeta. split; [vm_compute; reflexivity|]. split; [vm_compute; reflexivity|].
  split; [vm_compute; reflexivity|].
  split; [vm_compute; reflexivity|].
  split.
  { exists (currentDrawdown (recompute 84 (constructor example_config)) * 100)%Q.
    vm_compute. reflexivity. }
  split; [|split]; vm_compute; reflexivity.
Qed.

(** C7 on the example at clock 0: the drop to 84 leaves exactly these seven
    events and a pause until 7 200 000 ms, the deadline of level 2. *)
Lemma updateCapital_fires_all_witness :
  let st := constructor example_config in
  let r := updateCapital 0 84 st in
  let dd := Qabs (currentDrawdown (recompute 84 st) * 100) in
  (0 < peakCapital st)%Q /\
  (1%nat ∈ fired r.2 <->
   (currentDrawdown (recompute 84 st) <= - (10 # 100))%Q /\ 1%nat ∉ triggeredLevels st) /\
  r.2 = [ DrawdownLevel (Some "risk.drawdown.level1") 1 dd 100 84
            "pause" (Some 1800%Z);
          SetTimeoutResume 1800000;
          DrawdownLevel (Some "risk.drawdown.level2") 2 dd 100 84
            "pause_and_reset" (Some 7200%Z);
          SetTimeoutResume 7200000;
          StrategyChangedConservative;
          DrawdownLevel (Some "risk.drawdown.level3") 3 dd 100 84
            "stop" None;
          BotStopped (currentDrawdown (recompute 84 st) * 100) ] /\
  pause_state r.1 = (true, Some 7200000%Z).
Proof.
  cbv zeta.
  assert (Hpeak : (0 < peakCapital (constructor example_config))%Q) by reflexivity.
  destruct (updateCapital_fires_all_satisfied_levels (constructor example_config) 0 84
              Hpeak) as (H & _ & _ & _ & Htrace & Hpause & _).
  split; [exact Hpeak|]. split; [exact (H 1%nat _ eq_refl)|]. split.
  - rewrite Htrace. vm_compute. reflexivity.
  - rewrite Hpause. vm_compute. reflexivity.
Defined.

(** With the thresholds of the default configuration, which are positive
    (0.05, 0.10, 0.15), the guard [currentDrawdown <= level.percent] holds for
    every drawdown: the first [updateCapital] fires the three levels even
    when capital has grown. *)
Remark default_levels_fire_on_a_gain :
  fired (updateCapital 0 55 (constructor default_config)).2 = [0; 1; 2]%nat.
Proof. vm_compute. reflexivity. Qed.

End DrawdownFacts.

(** ** TrailingStopLoss *)

Module TrailingStopLossFacts.
Import TrailingStopLoss.

Lemma update_state price st :
  (update price st).1.2 =
  (if Qle_bool price (stopPrice (raise price st)) && negb (isTriggered (raise price st))
   then latch (raise price st) else raise price st).
Proof. unfold update. destruct (_ && _); reflexivity. Qed.

Lemma raise_fields price st :
  trailingPercent (raise price st) = trailingPercent st /\
  entryPrice (raise price st) = entryPrice st /\
  isTriggered (raise price st) = isTriggered st /\
  highestPrice (raise price st) =
    (if Qltb (highestPrice st) price then price else highestPrice st) /\
  stopPrice (raise price st) =
    (if Qltb (highestPrice st) price
     then (price * (1 - trailingPercent st))%Q else stopPrice st).
Proof. unfold raise. destruct (Qltb (highestPrice st) price); repeat split. Qed.

Lemma update_fields price st :
  let st' := (update price st).1.2 in
  trailingPercent st' = trailingPercent st /\
  entryPrice st' = entryPrice st /\
  highestPrice st' =
    (if Qltb (highestPrice st) price then price else highestPrice st) /\
  stopPrice st' =
    (if Qltb (highestPrice st) price
     then (price * (1 - trailingPercent st))%Q else stopPrice st) /\
  (isTriggered st = true -> isTriggered st' = true).
Proof.
  intros st'. subst st'. rewrite update_state.
  destruct (raise_fields price st) as (Ht & He & Hi & Hh & Hs).
  destruct (_ && _); simpl; rewrite ?Ht, ?He, ?Hh, ?Hs, ?Hi; repeat split; auto.
Qed.

Lemma constructor_derived cfg entry tpo : derived (constructor cfg entry tpo).
Proof. reflexivity. Qed.

Lemma update_derived price st : derived st -> derived (update price st).1.2.
Proof.
  unfold derived. intros Hd.
  destruct (update_fields price st) as (Ht & _ & Hh & Hs & _).
  rewrite Ht, Hh, Hs. destruct (Qltb (highestPrice st) price); auto.
Qed.

Lemma updates_derived prices : forall st, derived st -> derived (updates prices st).
Proof.
  induction prices as [|p ps IH]; intros st Hd; [exact Hd|].
  simpl. apply IH, update_derived, Hd.
Qed.

Lemma updates_trailingPercent prices : forall st,
  trailingPercent (updates prices st) = trailingPercent st.
Proof.
  induction prices as [|p ps IH]; intros st; [reflexivity|].
  simpl. rewrite IH. apply update_fields.
Qed.

Lemma update_stop_le price st :
  derived st -> (trailingPercent st <= 1)%Q ->
  (stopPrice st <= stopPrice (update price st).1.2)%Q.
Proof.
  intros Hd Htp. destruct (update_fields price st) as (_ & _ & _ & Hs & _).
  rewrite Hs. destruct (Qltb (highestPrice st) price) eqn:E; [|apply Qle_refl].
  apply Qltb_lt in E. rewrite Hd. nra.
Qed.

Lemma updates_stop_le prices : forall st,
  derived st -> (trailingPercent st <= 1)%Q ->
  (stopPrice st <= stopPrice (updates prices st))%Q.
Proof.
  induction prices as [|p ps IH]; intros st Hd Htp; [apply Qle_refl|].
  simpl. eapply Qle_trans; [apply update_stop_le; assumption|].
  apply IH; [apply update_derived, Hd|].
  destruct (update_fields p st) as (Ht & _). rewrite Ht. exact Htp.
Qed.

Lemma updates_latch prices : forall st,
  isTriggered st = true -> isTriggered (updates prices st) = true.
Proof.
  induction prices as [|p ps IH]; intros st Hi; [exact Hi|].
  simpl. apply IH, update_fields, Hi.
Qed.

(** C5 as stated fails: with a trailing percent above 1 the factor
    [1 - trailingPercent] is negative, and a new high lowers the stop
    (entry 100, trailing percent 2: the stop goes from -100 to -110). *)
Lemma stopPrice_decreases_when_trailing_above_one :
  let st := constructor default_config 100 (Some 2%Q) in
  ~ (stopPrice st <= stopPrice (update 110 st).1.2)%Q.
Proof. cbv zeta. intros H. vm_compute in H. apply H. reflexivity. Qed.

(** C5, amended.  For a TrailingStopLoss whose trailing percent is at most 1,
    after any sequence of [update] calls a further [update(currentPrice)]
    never lowers [stopPrice]; it changes [stopPrice] only when [highestPrice]
    strictly increases, and then to [highestPrice * (1 - trailingPercent)];
    and [isTriggered], once true, stays true.  Both facts extend to every
    longer sequence of calls. *)
Theorem stopPrice_nondecreasing_isTriggered_latch
    (cfg : Config) (entry : Q) (tpo : option Q) (prices : list Q) (price : Q) :
  let st := updates prices (constructor cfg entry tpo) in
  let st' := (update price st).1.2 in
  (trailingPercent (constructor cfg entry tpo) <= 1)%Q ->
  (stopPrice st <= stopPrice st')%Q /\
  (stopPrice st' = stopPrice st \/
   (highestPrice st < highestPrice st')%Q /\
   stopPrice st' = (highestPrice st' * (1 - trailingPercent st'))%Q) /\
  (isTriggered st = true -> isTriggered st' = true) /\
  (forall more,
     (stopPrice st' <= stopPrice (updates more st'))%Q /\
     (isTriggered st' = true -> isTriggered (updates more st') = true)).
Proof.
  intros st st' Htp.
  assert (Hd : derived st) by apply updates_derived, constructor_derived.
  assert (Ht : (trailingPercent st <= 1)%Q).
  { subst st. rewrite updates_trailingPercent. exact Htp. }
  assert (Hd' : derived st') by apply update_derived, Hd.
  destruct (update_fields price st) as (Ht' & _ & Hh & Hs & Hl).
  fold st' in Ht', Hh, Hs, Hl.
  split; [apply update_stop_le; assumption|].
  split.
  { destruct (Qltb (highestPrice st) price) eqn:E.
    - right. apply Qltb_lt in E. rewrite Hh. split; [exact E|].
      rewrite Hs, Ht'. reflexivity.
    - left. exact Hs. }
  split; [exact Hl|].
  intros more. split; [|apply updates_latch].
  apply updates_stop_le; [exact Hd'|]. rewrite Ht'. exact Ht.
Qed.

(** C5, amended, at entry 100 and trailing percent 0.03: after a rise to
    110 the fall to 106 keeps the stop and triggers it. *)
Lemma stopPrice_nondecreasing_witness :
  let st := updates [110%Q] (constructor default_config 100 None) in
  (trailingPercent (constructor default_config 100 None) <= 1)%Q /\
  (stopPrice st <= stopPrice (update 106 st).1.2)%Q /\
  isTriggered (update 106 st).1.2 = true.
Proof.
  cbv zeta.
  assert (Htp : (trailingPercent (constructor default_config 100 None) <= 1)%Q)
    by (vm_compute; discriminate).
  split; [exact Htp|]. split; [|vm_compute; reflexivity].
  pose proof (stopPrice_nondecreasing_isTriggered_latch
                default_config 100 None [110%Q] 106) as H.
  cbv zeta in H. destruct (H Htp) as (H1 & _). exact H1.
Defined.

End TrailingStopLossFacts.

(** ** TakeProfitLevels *)

Module TakeProfitFacts.
Import TakeProfitLevels.

Lemma takeProfit_checkLoop_spec entry price ls :
  (checkLoop entry price ls).1.1 = step price <$> ls /\
  (checkLoop entry price ls).1.2 = trigger <$> List.filter (hit price) ls.
Proof.
  induction ls as [|l ls [IH1 IH2]]; [split; reflexivity|].
  simpl. destruct (checkLoop entry price ls) as [[ls' trig] evs].
  simpl in IH1, IH2. unfold step at 1.
  destruct (hit price l); simpl; rewrite IH1, IH2; split; reflexivity.
Qed.

Lemma checkLevels_levels price st :
  levels (checkLevels price st).1.2 = step price <$> levels st.
Proof.
  unfold checkLevels.
  pose proof (takeProfit_checkLoop_spec (entryPrice st) price (levels st)) as [H _].
  destruct (checkLoop _ _ _) as [[ls' trig] evs]. exact H.
Qed.

Lemma checkLevels_returned price st :
  (checkLevels price st).1.1 = trigger <$> List.filter (hit price) (levels st).
Proof.
  unfold checkLevels.
  pose proof (takeProfit_checkLoop_spec (entryPrice st) price (levels st)) as [_ H].
  destruct (checkLoop _ _ _) as [[ls' trig] evs]. exact H.
Qed.

Lemma step_fields price l :
  percent (step price l) = percent l /\ amount (step price l) = amount l /\
  targetPrice (step price l) = targetPrice l /\
  levelIndex (step price l) = levelIndex l /\
  isTriggered (step price l) =
    isTriggered l || Qle_bool (targetPrice l) price.
Proof.
  unfold step, hit. destruct (isTriggered l) eqn:E; simpl.
  - rewrite E. repeat split.
  - destruct (Qle_bool (targetPrice l) price); simpl; rewrite ?E; repeat split.
Qed.

Lemma step_levelIndex price (ls : list Level) :
  levelIndex <$> (step price <$> ls) = levelIndex <$> ls.
Proof.
  rewrite <- list_fmap_compose. apply list_fmap_ext.
  intros _ l _. simpl. apply step_fields.
Qed.

Lemma checks_cons p ps st :
  checks (p :: ps) st =
  ((checkLevels p st).1.1 :: (checks ps (checkLevels p st).1.2).1,
   (checks ps (checkLevels p st).1.2).2).
Proof.
  simpl. destruct (checkLevels p st) as [[trig st1] evs]. simpl.
  destruct (checks ps st1). reflexivity.
Qed.

Lemma levelIndex_inj_on (ls : list Level) x y :
  NoDup (levelIndex <$> ls) -> x ∈ ls -> y ∈ ls ->
  levelIndex x = levelIndex y -> x = y.
Proof.
  induction ls as [|a ls IH]; intros Hnd Hx Hy Heq.
  - inversion Hx.
  - rewrite fmap_cons in Hnd. apply NoDup_cons in Hnd as [Hna Hnd].
    apply elem_of_cons in Hx as [->|Hx]; apply elem_of_cons in Hy as [->|Hy].
    + reflexivity.
    + exfalso. apply Hna. rewrite Heq. apply list_elem_of_fmap. eauto.
    + exfalso. apply Hna. rewrite <- Heq. apply list_elem_of_fmap. eauto.
    + apply IH; assumption.
Qed.

Lemma filter_levelIndex_NoDup f (ls : list Level) :
  NoDup (levelIndex <$> ls) -> NoDup (levelIndex <$> List.filter f ls).
Proof.
  induction ls as [|a ls IH]; intros Hnd; [constructor|].
  rewrite fmap_cons in Hnd. apply NoDup_cons in Hnd as [Hna Hnd].
  simpl. destruct (f a); [|apply IH, Hnd].
  rewrite fmap_cons. apply NoDup_cons. split; [|apply IH, Hnd].
  intros Hin. apply Hna. apply list_elem_of_fmap in Hin as (l & El & Hl).
  apply list_elem_of_fmap. exists l. split; [exact El|].
  apply list_elem_of_In. apply list_elem_of_In, filter_In in Hl. tauto.
Qed.

(** Every index returned along a sequence of calls belongs to a level that
    was untriggered at the start, and no index is returned twice. *)
Lemma checks_NoDup prices : forall st,
  NoDup (levelIndex <$> levels st) ->
  NoDup (levelIndex <$> concat (checks prices st).1) /\
  (forall i, i ∈ levelIndex <$> concat (checks prices st).1 ->
     exists l, l ∈ levels st /\ levelIndex l = i /\ isTriggered l = false).
Proof.
  induction prices as [|p ps IH]; intros st Hnd.
  - simpl. split; [constructor|]. intros i Hi. inversion Hi.
  - rewrite checks_cons. cbn [fst snd concat]. rewrite fmap_app.
    set (st1 := (checkLevels p st).1.2).
    assert (Hnd1 : NoDup (levelIndex <$> levels st1)).
    { subst st1. rewrite checkLevels_levels, step_levelIndex. exact Hnd. }
    destruct (IH st1 Hnd1) as [IHn IHu].
    assert (Hret : forall i, i ∈ levelIndex <$> (checkLevels p st).1.1 ->
              exists l, l ∈ levels st /\ levelIndex l = i /\ hit p l = true).
    { intros i Hi. rewrite checkLevels_returned in Hi.
      apply list_elem_of_fmap in Hi as (l' & -> & Hl').
      apply list_elem_of_fmap in Hl' as (l & -> & Hl).
      apply list_elem_of_In, filter_In in Hl as [Hl Hh].
      exists l. split; [apply list_elem_of_In, Hl|]. split; [reflexivity|exact Hh]. }
    assert (Hlater : forall i, i ∈ levelIndex <$> concat (checks ps st1).1 ->
              exists l, l ∈ levels st /\ levelIndex l = i /\ hit p l = false /\
                        isTriggered l = false).
    { intros i Hi. apply IHu in Hi as (l' & Hl' & Hidx & Hun).
      subst st1. rewrite checkLevels_levels in Hl'.
      apply list_elem_of_fmap in Hl' as (l & -> & Hl).
      exists l. split; [exact Hl|]. split; [rewrite <- Hidx; symmetry; apply step_fields|].
      unfold step in Hun. destruct (hit p l); [discriminate|]. auto. }
    split.
    + apply NoDup_app. split; [|split; [|exact IHn]].
      * rewrite checkLevels_returned, <- list_fmap_compose.
        change (levelIndex ∘ trigger) with levelIndex.
        apply filter_levelIndex_NoDup, Hnd.
      * intros i Hi1 Hi2.
        apply Hret in Hi1 as (l1 & Hl1 & Hx1 & Hh1).
        apply Hlater in Hi2 as (l2 & Hl2 & Hx2 & Hh2 & _).
        assert (l1 = l2) by (apply (levelIndex_inj_on (levels st)); congruence).
        congruence.
    + intros i Hi. apply elem_of_app in Hi as [Hi|Hi].
      * apply Hret in Hi as (l & Hl & Hx & Hh). exists l.
        split; [exact Hl|]. split; [exact Hx|].
        unfold hit in Hh. destruct (isTriggered l); [discriminate|reflexivity].
      * apply Hlater in Hi as (l & Hl & Hx & _ & Hu). eauto.
Qed.

Lemma imap_levelIndex (cs : list TakeProfitCfg) : forall (g : nat -> TakeProfitCfg -> Level) n,
  (forall i c, levelIndex (g i c) = (n + i + 1)%nat) ->
  levelIndex <$> imap g cs = seq (n + 1) (length cs).
Proof.
  induction cs as [|c cs IH]; intros g n Hg; [reflexivity|].
  simpl. rewrite Hg. f_equal; [lia|].
  replace (S (n + 1)) with (S n + 1)%nat by lia. apply IH.
  intros i c'. simpl. rewrite Hg. lia.
Qed.

Lemma fromConfig_levelIndex entry cs :
  levelIndex <$> fromConfig entry cs = seq 1 (length cs).
Proof. unfold fromConfig. apply (imap_levelIndex cs _ 0). reflexivity. Qed.

Lemma allLevelsExecuted_iff st :
  allLevelsExecuted st = true <-> forall l, l ∈ levels st -> isTriggered l = true.
Proof.
  unfold allLevelsExecuted. rewrite forallb_forall. split; intros H l Hl.
  - apply H, list_elem_of_In, Hl.
  - apply H, list_elem_of_In, Hl.
Qed.

(** C6. A [checkLevels(currentPrice)] call leaves each level as it was except
    that [isTriggered] becomes true exactly when it was true already or
    [currentPrice >= targetPrice]: a level turns triggered only in a call
    whose price reaches its target, and every untriggered level whose target
    is reached turns triggered in that one call.  The call returns exactly
    the levels that were untriggered and reached.  Across any sequence of
    calls no level index is returned twice.  [allLevelsExecuted()] is true iff
    every level's [isTriggered] is true.  With entry 100 and levels at +10%,
    +20%, +30%, one call at 135 returns the three levels and leaves all
    executed. *)
Theorem takeProfit_levels_trigger_once_at_target (st : t) (price : Q) :
  let st' := (checkLevels price st).1.2 in
  let returned := (checkLevels price st).1.1 in
  (forall k l, levels st !! k = Some l ->
     exists l', levels st' !! k = Some l' /\
       targetPrice l' = targetPrice l /\ levelIndex l' = levelIndex l /\
       isTriggered l' = isTriggered l || Qle_bool (targetPrice l) price) /\
  length (levels st') = length (levels st) /\
  returned = trigger <$> List.filter (hit price) (levels st) /\
  (allLevelsExecuted st = true <->
   forall l, l ∈ levels st -> isTriggered l = true) /\
  (forall prices, NoDup (levelIndex <$> levels st) ->
     NoDup (levelIndex <$> concat (checks prices st).1)) /\
  (forall cfg entry prices,
     NoDup (levelIndex <$> concat (checks prices (constructor cfg entry None)).1)) /\
  let ex := checkLevels 135 (constructor default_config 100 None) in
  levelIndex <$> ex.1.1 = [1; 2; 3]%nat /\ allLevelsExecuted ex.1.2 = true.
Proof.
  intros st' returned. subst st' returned.
  split.
  { intros k l Hl. rewrite checkLevels_levels. exists (step price l).
    split; [rewrite list_lookup_fmap, Hl; reflexivity|].
    destruct (step_fields price l) as (_ & _ & Ht & Hi & Htr). auto. }
  split; [rewrite checkLevels_levels; apply length_fmap|].
  split; [apply checkLevels_returned|].
  split; [apply allLevelsExecuted_iff|].
  split; [intros prices Hnd; apply checks_NoDup, Hnd|].
  split.
  { intros cfg entry prices. apply checks_NoDup. simpl.
    rewrite fromConfig_levelIndex. apply NoDup_seq. }
  cbv zeta. split; reflexivity.
Qed.

(** C6 on the default levels at entry 100 and prices 105, 115, 112, 140. *)
Lemma takeProfit_levels_trigger_once_witness :
  let st := constructor default_config 100 None in
  NoDup (levelIndex <$> levels st) /\
  NoDup (levelIndex <$> concat (checks [105%Q; 115%Q; 112%Q; 140%Q] st).1).
Proof.
  cbv zeta.
  assert (H : NoDup (levelIndex <$> levels (constructor default_config 100 None))).
  { unfold constructor. cbn [levels].
    rewrite fromConfig_levelIndex. apply NoDup_seq. }
  split; [exact H|].
  pose proof (takeProfit_levels_trigger_once_at_target
                (constructor default_config 100 None) 0) as T.
  cbv zeta in T. destruct T as (_ & _ & _ & _ & T & _).
  apply T, H.
Defined.

End TakeProfitFacts.

(** ** ExitManager *)

Module ExitManagerFacts.
Import ExitManager.

(** C2. When the trailing stop triggers in [update(pair, currentPrice)] on a
    managed pair, the call returns the full exit with reason ['stop_loss'],
    the exit price and the P&L percent, and it does not evaluate the
    take-profit levels: the take-profit record of the pair is unchanged and no
    take-profit event is emitted, whatever targets the price also meets. *)
Theorem stop_loss_precedes_take_profit
    (activeExits : gmap string Exit) (pair : string) (currentPrice : Q)
    (exit : Exit) (sl : TrailingStopLoss.t) (evs : list Event) :
  activeExits !! pair = Some exit ->
  TrailingStopLoss.update currentPrice (stopLoss exit) = (true, sl, evs) ->
  let r := (update pair currentPrice activeExits).1.1 in
  let activeExits' := (update pair currentPrice activeExits).1.2 in
  let tr := (update pair currentPrice activeExits).2 in
  r = FullExit "stop_loss" currentPrice
        ((currentPrice - entryPrice exit) / entryPrice exit * 100) /\
  shouldExit r = true /\ reason r = Some "stop_loss" /\
  (exists exit', activeExits' !! pair = Some exit' /\
     takeProfit exit' = takeProfit exit /\ stopLoss exit' = sl /\
     TrailingStopLoss.isTriggered sl = true) /\
  (forall other, other <> pair -> activeExits' !! other = activeExits !! other) /\
  takeProfitEvents tr = [].
Proof.
  intros Hex Hsl r activeExits' tr. subst r activeExits' tr.
  unfold update. rewrite Hex, Hsl. cbn [fst snd].
  split; [reflexivity|]. split; [reflexivity|]. split; [reflexivity|].
  unfold TrailingStopLoss.update in Hsl.
  destruct (_ && _) eqn:Hg in Hsl; [|discriminate].
  inversion Hsl; subst. split; [|split].
  - eexists. rewrite lookup_insert_eq. split; [reflexivity|]. repeat split.
  - intros other Hne. rewrite lookup_insert_ne by congruence. reflexivity.
  - reflexivity.
Qed.

(** C2 on a tie: entry 100, stop at 97, first target at 95, price 96. *)
Lemma stop_loss_precedes_take_profit_witness :
  let exits := startManaging tie_config 0 "ETH/USDC" 100 ∅ in
  (exists exit, exits !! "ETH/USDC" = Some exit /\
     (* the price 96 meets the stop at 97 and the first target at 95 *)
     (TrailingStopLoss.update 96 (stopLoss exit)).1.1 = true /\
     (exists l, l ∈ TakeProfitLevels.levels (takeProfit exit) /\
                TakeProfitLevels.hit 96 l = true)) /\
  reason (update "ETH/USDC" 96 exits).1.1 = Some "stop_loss" /\
  takeProfitEvents (update "ETH/USDC" 96 exits).2 = [].
Proof.
  cbv zeta.
  pose proof (stop_loss_precedes_take_profit
                (startManaging tie_config 0 "ETH/USDC" 100 ∅) "ETH/USDC" 96
                _ _ _ (lookup_insert_eq _ _ _) eq_refl) as H.
  cbv zeta in H. destruct H as (_ & _ & Hr & _ & _ & Ht).
  split; [|split; [exact Hr|exact Ht]].
  eexists. split; [apply lookup_insert_eq|]. split; [reflexivity|].
  eexists. split; [apply list_elem_of_here|]. reflexivity.
Defined.

End ExitManagerFacts.

(** ** PositionManager *)

Module PositionManagerFacts.
Import PositionManager.

Lemma capital_empty : capitalInPositions ∅ = 0%Q.
Proof. unfold capitalInPositions. apply map_fold_empty. Qed.

Lemma capital_insert (m : gmap string Position) k p :
  m !! k = None ->
  (capitalInPositions (<[k:=p]> m) == capitalInPositions m + investedAmount p)%Q.
Proof.
  intros Hk. unfold capitalInPositions.
  apply (map_fold_insert Qeq (fun _ position acc => (acc + investedAmount position)%Q)).
  - intros j z a b Hab. rewrite Hab. reflexivity.
  - intros j1 j2 z1 z2 y _ _ _. cbv beta. ring.
  - exact Hk.
Qed.

Lemma capital_delete (m : gmap string Position) k p :
  m !! k = Some p ->
  (capitalInPositions m == capitalInPositions (delete k m) + investedAmount p)%Q.
Proof.
  intros Hk. unfold capitalInPositions.
  apply (map_fold_delete Qeq (fun _ position acc => (acc + investedAmount position)%Q)).
  - intros j z a b Hab. rewrite Hab. reflexivity.
  - intros j1 j2 z1 z2 y _ _ _. cbv beta. ring.
  - exact Hk.
Qed.

Lemma capital_replace (m : gmap string Position) k p p' :
  m !! k = Some p -> investedAmount p' = investedAmount p ->
  (capitalInPositions (<[k:=p']> m) == capitalInPositions m)%Q.
Proof.
  intros Hk Hinv. rewrite <- insert_delete_eq.
  rewrite capital_insert by apply lookup_delete_eq.
  rewrite (capital_delete m k p Hk), Hinv. reflexivity.
Qed.


Lemma Math_max_bounds v :
  (0 <= v)%Q -> (1 # 2 <= Math_max (1 # 2) (1 - v / (1 # 2)) <= 1)%Q.
Proof.
  intros Hv. unfold Math_max.
  assert (Hd : (v / (1 # 2) == 2 * v)%Q) by (field; discriminate).
  destruct (Qle_bool (1 # 2) (1 - v / (1 # 2))) eqn:E.
  - apply Qle_bool_iff in E. rewrite Hd in *. split; lra.
  - split; lra.
Qed.



Section Sizing.

(** The manager is built from a configuration with a non-negative initial
    capital and a position fraction between 0 and 1. *)
Variable cfg : Config.
Hypothesis Hcap : (0 <= cfg_initialCapital cfg)%Q.
Hypothesis Hpct : (0 <= cfg_maxPositionPercent cfg <= 1)%Q.


Lemma open_fresh_available now pair entry usd tok st :
  hasOpenPosition pair st = false ->
  (getAvailableCapital (openPosition now pair entry usd tok st).2 ==
   getAvailableCapital st - usd)%Q.
Proof.
  intros Hno. unfold openPosition. rewrite Hno. cbn [snd].
  unfold hasOpenPosition in Hno. apply bool_decide_eq_false in Hno.
  apply eq_None_not_Some in Hno.
  unfold getAvailableCapital.
  cbn [with_positions currentCapital openPositions].
  rewrite capital_insert by exact Hno. cbn [investedAmount]. ring.
Qed.

Lemma open_fresh_invested now pair entry usd tok st :
  hasOpenPosition pair st = false ->
  (capitalInPositions (openPositions (openPosition now pair entry usd tok st).2) ==
   capitalInPositions (openPositions st) + usd)%Q.
Proof.
  intros Hno. unfold openPosition. rewrite Hno. cbn [snd].
  unfold hasOpenPosition in Hno. apply bool_decide_eq_false in Hno.
  apply eq_None_not_Some in Hno.
  cbn [with_positions openPositions].
  rewrite capital_insert by exact Hno. reflexivity.
Qed.



End Sizing.

(** Without that condition on [updateCapital] the value goes negative even
    after a sized open: 4 invested out of 50, then [updateCapital(0)]. *)
Remark availableCapital_negative_after_updateCapital :
  let st := constructor default_config in
  let size := calculatePositionSize 2000 (Some (1 # 10)) st in
  let st1 := (openPosition 0 "ETH/USDC" 2000 (amountUSD size) (amountToken size) st).2 in
  reachable default_config (updateCapital 0 st1) /\
  (getAvailableCapital (updateCapital 0 st1) == - 4)%Q.
Proof.
  cbv zeta. split; [apply reach_updateCapital, reach_open, reach_new|].
  unfold getAvailableCapital. cbn [updateCapital currentCapital openPositions].
  rewrite open_fresh_invested by reflexivity.
  cbn [constructor openPositions]. rewrite capital_empty.
  vm_compute. reflexivity.
Qed.


(** C8. When a position for [pair] is already open, [openPosition] returns
    false and leaves the manager as it was: same capital, same number of open
    positions, same position for the pair. *)
Theorem openPosition_existing_pair_is_noop
    (now : Z) (pair : string) (entryPrice amountUSD amountToken : Q) (st : t) :
  hasOpenPosition pair st = true ->
  let r := openPosition now pair entryPrice amountUSD amountToken st in
  r.1 = false /\ r.2 = st /\
  currentCapital r.2 = currentCapital st /\
  numPositions r.2 = numPositions st /\
  getPosition pair r.2 = getPosition pair st.
Proof.
  intros Hhas r. subst r. unfold openPosition. rewrite Hhas.
  repeat split.
Qed.

(** C8 on a second [openPosition] for a pair that is open. *)
Lemma openPosition_existing_pair_witness :
  let st := (openPosition 0 "ETH/USDC" 2000 5 (5 / 2000) (constructor default_config)).2 in
  hasOpenPosition "ETH/USDC" st = true /\
  openPosition 7 "ETH/USDC" 2100 5 (5 / 2100) st = (false, st).
Proof.
  cbv zeta.
  assert (H : hasOpenPosition "ETH/USDC"
                (openPosition 0 "ETH/USDC" 2000 5 (5 / 2000) (constructor default_config)).2
              = true) by reflexivity.
  split; [exact H|].
  destruct (openPosition_existing_pair_is_noop 7 "ETH/USDC" 2100 5 (5 / 2100) _ H)
    as (H1 & H2 & _).
  apply injective_projections; assumption.
Defined.

End PositionManagerFacts.

(** ** StrategyManager *)

Module StrategyManagerFacts.
Import StrategyManager.

Lemma setLastSwitch_restore st :
  setLastSwitch (lastSwitch st) (setLastSwitch None st) = st.
Proof. destruct st; reflexivity. Qed.

Lemma inCooldown_cleared now st : inCooldown now (setLastSwitch None st) = false.
Proof. reflexivity. Qed.

Lemma inCooldown_true now last st :
  lastSwitch st = Some last -> last <> 0%Z ->
  (now < last + switchCooldown st)%Z -> inCooldown now st = true.
Proof.
  intros Hl Hne Hlt. unfold inCooldown. rewrite Hl. simpl.
  apply andb_true_iff. split.
  - apply negb_true_iff, Z.eqb_neq, Hne.
  - apply Z.ltb_lt. lia.
Qed.

Lemma selectStrategy_success now name reason st st' evs :
  selectStrategy now name reason st = (Returned true, st', evs) ->
  lastSwitch st' = Some now /\ switchCooldown st' = switchCooldown st /\
  exists key, lookupStrategy name = Own key /\ currentStrategy st' = CurStrategy key.
Proof.
  unfold selectStrategy. destruct (inCooldown now st); [discriminate|].
  destruct (lookupStrategy name) as [key| |]; [| |discriminate];
    destruct (currentStrategy st) as [|k|]; try discriminate;
    intros H; inversion H; subst; simpl; eauto.
Qed.

Lemma selectStrategy_failure now name reason st st' evs :
  selectStrategy now name reason st = (Returned false, st', evs) ->
  st' = st /\ evs = [].
Proof.
  unfold selectStrategy. destruct (inCooldown now st).
  - intros H; inversion H; auto.
  - destruct (lookupStrategy name) as [key| |];
      [| |intros H; inversion H; auto];
      destruct (currentStrategy st) as [|k|]; discriminate.
Qed.

(** C9. After a switch that succeeded at time [t], every [selectStrategy]
    request made before [t + switchCooldown] (300000 ms unless changed)
    returns false and changes nothing.  [forceSwitch] clears [lastSwitch]
    before selecting, so it succeeds for a valid strategy name whatever the
    cooldown; when the selection is rejected it puts the previous [lastSwitch]
    back, leaving the manager as it was.  The clock reading [t] is not the
    zero of the epoch. *)
Theorem switch_cooldown_rejects_forceSwitch_bypasses :
  (forall st0 st1 t0 name reason evs,
     selectStrategy t0 name reason st0 = (Returned true, st1, evs) ->
     t0 <> 0%Z ->
     lastSwitch st1 = Some t0 /\
     switchCooldown st1 = switchCooldown st0 /\
     forall now name' reason',
       (now < t0 + switchCooldown st1)%Z ->
       selectStrategy now name' reason' st1 = (Returned false, st1, [])) /\
  (forall d, switchCooldown (constructor d) = 300000%Z) /\
  (forall st now name why key,
     lookupStrategy name = Own key ->
     currentStrategy st <> CurForeign ->
     exists st2 evs2,
       forceSwitch now name why st = (Returned true, st2, evs2) /\
       currentStrategy st2 = CurStrategy key /\ lastSwitch st2 = Some now) /\
  (forall st now name why st2 evs2,
     forceSwitch now name why st = (Returned false, st2, evs2) ->
     st2 = st /\ lastSwitch st2 = lastSwitch st /\ evs2 = []) /\
  (forall st now name why,
     lookupStrategy name = Absent ->
     forceSwitch now name why st = (Returned false, st, [])).
Proof.
  split.
  { intros st0 st1 t0 name reason evs Hsel Hne.
    destruct (selectStrategy_success _ _ _ _ _ _ Hsel) as (Hl & Hc & _).
    split; [exact Hl|]. split; [exact Hc|].
    intros now name' reason' Hlt. unfold selectStrategy.
    rewrite (inCooldown_true now t0 st1 Hl Hne Hlt). reflexivity. }
  split; [reflexivity|].
  split.
  { intros st now name why key Hk Hcur. unfold forceSwitch, selectStrategy.
    rewrite inCooldown_cleared, Hk. cbn [currentStrategy setLastSwitch].
    destruct (currentStrategy st) as [|k|]; [| |contradiction];
      eexists _, _; (split; [reflexivity|]); split; reflexivity. }
  split.
  { intros st now name why st2 evs2. unfold forceSwitch.
    destruct (selectStrategy now name (Some why) (setLastSwitch None st))
      as [[o s] e] eqn:E.
    destruct o as [[|]|]; intros H; inversion H; subst.
    apply selectStrategy_failure in E as [-> ->].
    rewrite setLastSwitch_restore. auto. }
  intros st now name why Habs. unfold forceSwitch, selectStrategy.
  rewrite inCooldown_cleared, Habs. rewrite setLastSwitch_restore. reflexivity.
Qed.

(** C9 on a run: grid selected at clock 1000, a request at 200000 rejected,
    a forced switch at 200000 accepted, a forced switch to an unknown name
    rejected with the state as before. *)
Lemma switch_cooldown_witness :
  let st0 := constructor "auto" in
  let r := selectStrategy 1000 "grid" None st0 in
  r.1.1 = Returned true /\ 1000%Z <> 0%Z /\
  selectStrategy 200000 "momentum" None r.1.2 = (Returned false, r.1.2, []) /\
  (forceSwitch 200000 "momentum" "drawdown_reset" r.1.2).1.1 = Returned true /\
  forceSwitch 200000 "scalping" "manual" r.1.2 = (Returned false, r.1.2, []).
Proof.
  cbv zeta.
  assert (Hne : 1000%Z <> 0%Z) by discriminate.
  destruct switch_cooldown_rejects_forceSwitch_bypasses
    as (Hcool & _ & _ & _ & Habs).
  destruct (Hcool (constructor "auto") _ 1000%Z "grid" None _ eq_refl Hne)
    as (_ & _ & Hrej).
  split; [reflexivity|]. split; [exact Hne|].
  split; [apply Hrej; reflexivity|].
  split; [reflexivity|]. apply Habs. reflexivity.
Defined.

End StrategyManagerFacts.

(** ** Strategies: zero-valued market data *)

Module StrategyFacts.
Import Strategy.

Lemma truthyQ_zero q : (q == 0)%Q -> truthyQ q = false.
Proof.
  intros H. unfold truthyQ. apply negb_false_iff, Qeq_bool_iff, H.
Qed.

Lemma validate_false_of_missing md field :
  In field (missing md) -> validateMarketData md = false.
Proof.
  unfold validateMarketData. destruct (missing md); [intros []|reflexivity].
Qed.

Lemma canTrade_false_of_invalid cfg md :
  validateMarketData md = false ->
  grid_canTrade cfg md = false /\ momentum_canTrade cfg md = false.
Proof.
  intros H. unfold grid_canTrade, momentum_canTrade. rewrite H. split; reflexivity.
Qed.

Lemma falsy_field_missing md field :
  In field ["price"; "volume"; "liquidity"] ->
  fieldTruthy md field = false -> In field (missing md).
Proof.
  intros Hin Hf. unfold missing. apply filter_In. split.
  - unfold required. simpl in *. tauto.
  - rewrite Hf. reflexivity.
Qed.

(** C10. When a numeric required field ([price], [volume] or [liquidity]) is
    present with value 0, [validateMarketData] lists it as missing and
    returns false, and [canTrade] of the grid and of the momentum strategy
    return false: the same results as for the snapshot without that field. *)
Theorem zero_valued_field_rejected_as_missing
    (cfg : Config) (md : MarketData) (field : string) (q : Q) :
  In field ["price"; "volume"; "liquidity"] ->
  numericField md field = Some q ->
  (q == 0)%Q ->
  In field (missing md) /\
  validateMarketData md = false /\
  grid_canTrade cfg md = false /\
  momentum_canTrade cfg md = false /\
  In field (missing (without field md)) /\
  validateMarketData (without field md) = validateMarketData md /\
  grid_canTrade cfg (without field md) = grid_canTrade cfg md /\
  momentum_canTrade cfg (without field md) = momentum_canTrade cfg md.
Proof.
  intros Hin Hq Hz.
  assert (Hf : fieldTruthy md field = false).
  { simpl in Hin. destruct Hin as [<-|[<-|[<-|[]]]];
      unfold numericField in Hq; unfold fieldTruthy; cbn in Hq |- *;
      rewrite Hq; apply truthyQ_zero, Hz. }
  assert (Hf' : fieldTruthy (without field md) field = false).
  { simpl in Hin. destruct Hin as [<-|[<-|[<-|[]]]]; reflexivity. }
  pose proof (falsy_field_missing md field Hin Hf) as Hm.
  pose proof (falsy_field_missing _ field Hin Hf') as Hm'.
  pose proof (validate_false_of_missing _ _ Hm) as Hv.
  pose proof (validate_false_of_missing _ _ Hm') as Hv'.
  destruct (canTrade_false_of_invalid cfg _ Hv) as [Hg Hmo].
  destruct (canTrade_false_of_invalid cfg _ Hv') as [Hg' Hmo'].
  repeat split; congruence.
Qed.

(** C10 on a snapshot whose volume is 0, next to the same snapshot with a
    volume of 30000. *)
Lemma zero_valued_field_witness :
  In "volume" ["price"; "volume"; "liquidity"] /\
  numericField quiet_snapshot "volume" = Some 0%Q /\
  (0 == 0)%Q /\
  validateMarketData quiet_snapshot = false /\
  grid_canTrade default_config quiet_snapshot = false /\
  momentum_canTrade default_config quiet_snapshot = false /\
  validateMarketData busy_snapshot = true /\
  grid_canTrade default_config busy_snapshot = true.
Proof.
  assert (Hin : In "volume" ["price"; "volume"; "liquidity"]) by (simpl; tauto).
  assert (Hz : (0 == 0)%Q) by reflexivity.
  destruct (zero_valued_field_rejected_as_missing default_config quiet_snapshot
              "volume" 0 Hin eq_refl Hz) as (_ & Hv & Hg & Hm & _).
  repeat split; assumption || reflexivity.
Defined.

End StrategyFacts.

(** ** DrawdownManager: bounds, pause and reset *)

Module DrawdownMore.
Import DrawdownManager DrawdownRun DrawdownQueries DrawdownFacts.

Lemma recompute_maxDrawdown c st :
  maxDrawdownReached (recompute c st) =
  (if Qltb (currentDrawdown (recompute c st)) (maxDrawdownReached st)
   then currentDrawdown (recompute c st) else maxDrawdownReached st).
Proof.
  unfold recompute. cbv zeta.
  set (st3 := set_drawdown _ _).
  assert (Hm : maxDrawdownReached st3 = maxDrawdownReached st).
  { subst st3. simpl. destruct (Qltb (peakCapital st) c); reflexivity. }
  rewrite <- Hm. clearbody st3.
  destruct (Qltb (currentDrawdown st3) (maxDrawdownReached st3)) eqn:E;
    simpl; rewrite E; reflexivity.
Qed.

Lemma exec_maxDrawdown op st :
  (maxDrawdownReached (exec op st).1 <= maxDrawdownReached st)%Q /\
  ((maxDrawdownReached st <= currentDrawdown st)%Q ->
   (maxDrawdownReached (exec op st).1 <= currentDrawdown (exec op st).1)%Q).
Proof.
  pose proof (exec_same_capital op st) as H.
  destruct op as [now c| |now]; destruct H as (_ & _ & Hd & Hm & _);
    rewrite <- Hm, <- Hd; try (split; [apply Qle_refl|tauto]).
  rewrite recompute_maxDrawdown.
  destruct (Qltb (currentDrawdown (recompute c st)) (maxDrawdownReached st)) eqn:E.
  - apply Qltb_lt in E. split; [lra|intros _; apply Qle_refl].
  - apply Qltb_ge in E. split; [apply Qle_refl|intros _; exact E].
Qed.

Section AnyConfiguration.

Variable cfg : Config.

Lemma reachable_levels st : reachable cfg st -> levels st = cfg_drawdownLevels cfg.
Proof.
  intros Hr. induction Hr as [|op st Hr IH|st Hr IH]; [reflexivity| |exact IH].
  pose proof (exec_same_capital op st) as H.
  destruct op as [now c| |now]; destruct H as (_ & _ & _ & _ & Hl & _);
    rewrite <- Hl; [|exact IH|exact IH].
  rewrite (proj2 (recompute_triggered c st)). exact IH.
Qed.

Lemma reachable_maxDrawdown st :
  reachable cfg st ->
  (maxDrawdownReached st <= currentDrawdown st)%Q /\ (maxDrawdownReached st <= 0)%Q.
Proof.
  intros Hr. induction Hr as [|op st Hr [IH1 IH2]|st Hr IH].
  - simpl. split; apply Qle_refl.
  - destruct (exec_maxDrawdown op st) as [Hle Hdd]. split; [auto|lra].
  - simpl. split; apply Qle_refl.
Qed.

(** X1. [maxDrawdownReached] is the running minimum of the drawdown: in every
    reachable state it is at most the current drawdown and at most 0, one
    [updateCapital] replaces it by the new drawdown exactly when that is
    lower, and no call other than [reset] raises it. *)
Theorem maxDrawdownReached_running_minimum (st : t) :
  reachable cfg st ->
  (maxDrawdownReached st <= currentDrawdown st)%Q /\
  (maxDrawdownReached st <= 0)%Q /\
  (forall now c,
     let st' := (updateCapital now c st).1 in
     maxDrawdownReached st' =
       (if Qltb (currentDrawdown st') (maxDrawdownReached st)
        then currentDrawdown st' else maxDrawdownReached st)) /\
  (forall ops, (maxDrawdownReached (run ops st).1 <= maxDrawdownReached st)%Q).
Proof.
  intros Hr. destruct (reachable_maxDrawdown st Hr) as [H1 H2].
  split; [exact H1|]. split; [exact H2|]. split.
  - intros now c st'. subst st'.
    pose proof (updateCapital_capital now c st) as (_ & _ & Hd & Hm & _).
    rewrite <- Hm, <- Hd. apply recompute_maxDrawdown.
  - intros ops. revert st Hr H1 H2.
    induction ops as [|op ops IH]; intros st Hr H1 H2; [apply Qle_refl|].
    rewrite run_app_step. cbn [fst].
    destruct (exec_maxDrawdown op st) as [Hle Hdd].
    eapply Qle_trans; [|exact Hle].
    apply IH; [constructor; exact Hr|auto|lra].
Qed.

(** [reset] brings every reachable manager back to the state the
    constructor builds, whatever calls came before. *)
Theorem reset_restores_constructed_state (st : t) :
  reachable cfg st -> reset cfg st = constructor cfg.
Proof.
  intros Hr. unfold reset, constructor. rewrite (reachable_levels st Hr). reflexivity.
Qed.

End AnyConfiguration.

(** The running minimum on the example: 94, then 100, then 97 under a peak
    of 100 keeps the minimum of -6%. *)
Lemma maxDrawdownReached_witness :
  let st := (run [OpUpdateCapital 0 94; OpUpdateCapital 1 100] (constructor example_config)).1 in
  reachable example_config st /\
  (maxDrawdownReached (updateCapital 2 97 st).1 == - (6 # 100))%Q.
Proof.
  cbv zeta.
  assert (Hr : reachable example_config
            (run [OpUpdateCapital 0 94; OpUpdateCapital 1 100]
               (constructor example_config)).1)
    by (apply run_reachable, reach_new).
  split; [exact Hr|].
  destruct (maxDrawdownReached_running_minimum example_config _ Hr)
    as (_ & _ & Hstep & _).
  rewrite (Hstep 2%Z 97%Q). vm_compute. reflexivity.
Defined.

Lemma reset_restores_witness :
  let st := (run [OpUpdateCapital 0 84; OpIsTradingPaused 5] (constructor example_config)).1 in
  reachable example_config st /\ st <> constructor example_config /\
  reset example_config st = constructor example_config.
Proof.
  cbv zeta.
  assert (Hr : reachable example_config
            (run [OpUpdateCapital 0 84; OpIsTradingPaused 5]
               (constructor example_config)).1)
    by (apply run_reachable, reach_new).
  split; [exact Hr|]. split.
  - intros H. apply (f_equal triggeredLevels) in H. vm_compute in H. discriminate.
  - exact (reset_restores_constructed_state example_config _ Hr).
Defined.

Section PositiveInitialCapital.

Variable cfg : Config.
Hypothesis initial_positive : (0 < cfg_initialCapital cfg)%Q.

(** X2. For a configuration with [initialCapital > 0]: after
    [updateCapital(newCapital)] on a reachable manager the drawdown
    is 0 exactly when the new capital is at or above the old peak and
    negative otherwise; it is at least -1 when the new capital is not
    negative and above -1 when it is positive. *)
Theorem currentDrawdown_range (st : t) (now : Z) (newCapital : Q) :
  reachable cfg st ->
  let st' := (updateCapital now newCapital st).1 in
  ((peakCapital st <= newCapital)%Q -> (currentDrawdown st' == 0)%Q) /\
  ((newCapital < peakCapital st)%Q -> (currentDrawdown st' < 0)%Q) /\
  ((0 <= newCapital)%Q -> (-1 <= currentDrawdown st')%Q) /\
  ((0 < newCapital)%Q -> (-1 < currentDrawdown st')%Q).
Proof.
  intros Hr st'. subst st'.
  pose proof (reachable_inv cfg initial_positive st Hr) as (Hpos & _ & _).
  pose proof (updateCapital_capital now newCapital st) as (_ & _ & Hd & _).
  rewrite <- Hd, recompute_drawdown, recompute_current, recompute_peak.
  destruct (Qltb (peakCapital st) newCapital) eqn:E.
  - apply Qltb_lt in E.
    assert (Hz : ((newCapital - newCapital) / newCapital == 0)%Q)
      by (field; lra).
    rewrite Hz. repeat split; intros; lra.
  - apply Qltb_ge in E. set (p := peakCapital st) in *.
    assert (Hdiv : ((newCapital - p) / p == newCapital / p - 1)%Q)
      by (field; lra).
    rewrite Hdiv.
    split; [intros Hge; assert (Heq : (newCapital == p)%Q) by lra;
            rewrite Heq; field; lra|].
    split.
    + intros Hlt. assert (newCapital / p < 1)%Q; [|lra].
      apply Qlt_shift_div_r; lra.
    + split; intros Hc.
      * assert (0 <= newCapital / p)%Q; [|lra].
        apply Qle_shift_div_l; lra.
      * assert (0 < newCapital / p)%Q; [|lra].
        apply Qlt_shift_div_l; lra.
Qed.

End PositiveInitialCapital.

(** The drawdown range at the default configuration: from 50, a fall to 45
    gives a negative drawdown above -1. *)
Lemma currentDrawdown_range_witness :
  (0 < cfg_initialCapital default_config)%Q /\
  reachable default_config (constructor default_config) /\
  (45 < peakCapital (constructor default_config))%Q /\
  (currentDrawdown (updateCapital 0 45 (constructor default_config)).1 < 0)%Q /\
  (-1 < currentDrawdown (updateCapital 0 45 (constructor default_config)).1)%Q.
Proof.
  assert (H0 : (0 < cfg_initialCapital default_config)%Q) by reflexivity.
  assert (Hlt : (45 < peakCapital (constructor default_config))%Q) by reflexivity.
  split; [exact H0|]. split; [constructor|]. split; [exact Hlt|].
  pose proof (currentDrawdown_range default_config H0 (constructor default_config)
                0 45 (reach_new default_config)) as H.
  cbv zeta in H. destruct H as (_ & Hneg & _ & Hlow).
  split; [exact (Hneg Hlt)|]. apply Hlow. reflexivity.
Defined.




Lemma executeAction_currentLevel now level st :
  currentLevel (executeAction now level st).1 = currentLevel st.
Proof.
  unfold executeAction, pauseTrading, resetToConservative, stopCompletely.
  repeat match goal with |- context [if ?b then _ else _] => destruct b end;
    reflexivity.
Qed.

Lemma triggerLevel_currentLevel now i level st :
  currentLevel (triggerLevel now i level st).1 = Some (S i).
Proof.
  unfold triggerLevel.
  pose proof (executeAction_currentLevel now level (mark_triggered i st)) as H.
  destruct (executeAction now level (mark_triggered i st)). exact H.
Qed.

Lemma checkLoop_quiet now ls : forall i st,
  selected (currentDrawdown st) (triggeredLevels st) i ls = [] ->
  checkLoop now i ls st = (st, []).
Proof.
  induction ls as [|level rest IH]; intros i st Hsel; [reflexivity|].
  rewrite selected_cons in Hsel. simpl.
  destruct (Qle_bool (currentDrawdown st) (dl_percent level)
            && negb (includes i (triggeredLevels st))); [discriminate|].
  rewrite (IH _ _ Hsel). reflexivity.
Qed.

Lemma checkLoop_currentLevel now ls : forall i st,
  currentLevel (checkLoop now i ls st).1 =
  match last (fired (checkLoop now i ls st).2) with
  | Some j => Some (S j)
  | None => currentLevel st
  end.
Proof.
  induction ls as [|level rest IH]; intros i st; [reflexivity|].
  simpl.
  destruct (Qle_bool (currentDrawdown st) (dl_percent level)
            && negb (includes i (triggeredLevels st))).
  - pose proof (triggerLevel_keeps now i level st) as (_ & _ & Hf).
    pose proof (triggerLevel_currentLevel now i level st) as Hc.
    destruct (triggerLevel now i level st) as [st1 e1]. cbn [fst snd] in *.
    specialize (IH (S i) st1).
    destruct (checkLoop now (S i) rest st1) as [st2 e2]. cbn [fst snd] in *.
    unfold fired in *. rewrite omap_app, Hf. simpl app. rewrite last_cons.
    rewrite IH. destruct (last (omap _ e2)); [reflexivity|exact Hc].
  - specialize (IH (S i) st).
    destruct (checkLoop now (S i) rest st) as [st2 e2]. exact IH.
Qed.

Lemma sorted_last_is_max (l : list nat) j :
  StronglySorted lt l -> last l = Some j -> forall k, k ∈ l -> (k <= j)%nat.
Proof.
  induction 1 as [|x l Hs IH Hall]; intros Hl k Hk; [inversion Hk|].
  rewrite Forall_forall in Hall.
  destruct l as [|y l'].
  - simpl in Hl. inversion Hl; subst. apply list_elem_of_singleton in Hk. lia.
  - rewrite last_cons in Hl.
    destruct (last (y :: l')) as [z|] eqn:E.
    2:{ apply last_None in E. discriminate. }
    inversion Hl; subst.
    apply elem_of_cons in Hk as [->|Hk]; [|apply IH; auto].
    assert (Hz : j ∈ y :: l') by (apply last_Some_elem_of, E).
    apply Hall in Hz. lia.
Qed.

(** X4. An [updateCapital] that crosses no untriggered threshold only
    recomputes the capital fields and emits nothing; one that fires levels
    leaves [currentLevel] at the deepest level fired in that call (index
    plus one). *)
Theorem updateCapital_quiet_or_deepest_level (st : t) (now : Z) (newCapital : Q) :
  let r := updateCapital now newCapital st in
  (fired r.2 = [] -> r = (recompute newCapital st, [])) /\
  (forall j, last (fired r.2) = Some j ->
     currentLevel r.1 = Some (S j) /\ forall k, k ∈ fired r.2 -> (k <= j)%nat).
Proof.
  intros r. subst r. split.
  - intros Hf. rewrite updateCapital_fired in Hf.
    unfold updateCapital, checkDrawdownLevels. apply checkLoop_quiet.
    destruct (recompute_triggered newCapital st) as [-> ->].
    apply fmap_nil_inv in Hf. exact Hf.
  - intros j Hj. split.
    + unfold updateCapital, checkDrawdownLevels in *.
      rewrite checkLoop_currentLevel, Hj. reflexivity.
    + apply sorted_last_is_max; [|exact Hj].
      rewrite updateCapital_fired. apply selected_sorted.
Qed.

(** On the example: a rise to 103 is quiet; a fall to 89 fires levels 1 and
    2 and leaves [currentLevel] at 2. *)
Lemma updateCapital_quiet_or_deepest_witness :
  let st := constructor example_config in
  fired (updateCapital 0 103 st).2 = [] /\
  updateCapital 0 103 st = (recompute 103 st, []) /\
  last (fired (updateCapital 0 89 st).2) = Some 1%nat /\
  currentLevel (updateCapital 0 89 st).1 = Some 2%nat.
Proof.
  cbv zeta.
  assert (Hq : fired (updateCapital 0 103 (constructor example_config)).2 = [])
    by (vm_compute; reflexivity).
  assert (Hl : last (fired (updateCapital 0 89 (constructor example_config)).2)
               = Some 1%nat) by (vm_compute; reflexivity).
  pose proof (updateCapital_quiet_or_deepest_level (constructor example_config) 0 103) as H1.
  pose proof (updateCapital_quiet_or_deepest_level (constructor example_config) 0 89) as H2.
  cbv zeta in H1, H2. destruct H1 as [H1 _]. destruct H2 as [_ H2].
  split; [exact Hq|]. split; [exact (H1 Hq)|]. split; [exact Hl|].
  exact (proj1 (H2 1%nat Hl)).
Defined.

End DrawdownMore.

(** ** TrailingStopLoss: high-water mark and trigger *)

Module TrailingStopLossMore.
Import TrailingStopLoss TrailingStopLossRuns TrailingStopLossFacts.

Lemma outcomes_cons p ps st :
  outcomes (p :: ps) st =
  ((update p st).1.1, (update p st).2) :: outcomes ps (update p st).1.2.
Proof. simpl. destruct (update p st) as [[r st1] evs]. reflexivity. Qed.

Lemma update_highest_ge p st :
  (highestPrice st <= highestPrice (update p st).1.2)%Q /\
  (p <= highestPrice (update p st).1.2)%Q /\
  (highestPrice (update p st).1.2 = highestPrice st \/
   highestPrice (update p st).1.2 = p).
Proof.
  destruct (update_fields p st) as (_ & _ & Hh & _).
  rewrite Hh. destruct (Qltb (highestPrice st) p) eqn:E.
  - apply Qltb_lt in E. split; [lra|]. split; [lra|auto].
  - apply Qltb_ge in E. split; [lra|]. split; [lra|auto].
Qed.

(** X5. [highestPrice] is the running maximum: after any sequence of
    [update] calls it is at least the value it started from and at least
    every price seen, and it is the starting value or one of those prices. *)
Theorem highestPrice_is_running_maximum (prices : list Q) (st : t) :
  let st' := updates prices st in
  (highestPrice st <= highestPrice st')%Q /\
  (forall p, p ∈ prices -> (p <= highestPrice st')%Q) /\
  (highestPrice st' = highestPrice st \/ highestPrice st' ∈ prices) /\
  entryPrice st' = entryPrice st /\ trailingPercent st' = trailingPercent st.
Proof.
  revert st. induction prices as [|p ps IH]; intros st; simpl.
  - split; [lra|]. split; [intros p Hp; inversion Hp|]. auto.
  - destruct (IH (update p st).1.2) as (H1 & H2 & H3 & H4 & H5).
    destruct (update_highest_ge p st) as (G1 & G2 & G3).
    destruct (update_fields p st) as (Ft & Fe & _).
    split; [lra|]. split; [|split; [|split; congruence]].
    + intros q Hq. apply elem_of_cons in Hq as [->|Hq]; [lra|auto].
    + destruct H3 as [H3|H3].
      * rewrite H3. destruct G3 as [G3|G3]; rewrite G3; [auto|].
        right. apply list_elem_of_here.
      * right. apply list_elem_of_further, H3.
Qed.

(** From entry 100 the prices 110, 106, 120 leave the high at 120. *)
Lemma highestPrice_is_running_maximum_witness :
  let st := constructor default_config 100 None in
  let st' := updates [110%Q; 106%Q; 120%Q] st in
  (highestPrice st' == 120)%Q /\ (highestPrice st <= highestPrice st')%Q /\
  (forall p, p ∈ [110%Q; 106%Q; 120%Q] -> (p <= highestPrice st')%Q).
Proof.
  cbv zeta. split; [vm_compute; reflexivity|].
  pose proof (highestPrice_is_running_maximum [110%Q; 106%Q; 120%Q]
                (constructor default_config 100 None)) as T.
  cbv zeta in T. destruct T as (T1 & T2 & _). split; [exact T1|exact T2].
Defined.

Lemma outcomes_after_trigger prices : forall st,
  isTriggered st = true ->
  Forall (fun o => o = (false, [])) (outcomes prices st).
Proof.
  induction prices as [|p ps IH]; intros st Ht; [constructor|].
  rewrite outcomes_cons. constructor.
  - unfold update. destruct (raise_fields p st) as (_ & _ & Hi & _).
    rewrite Hi, Ht, andb_false_r. reflexivity.
  - apply IH. apply update_fields, Ht.
Qed.

Lemma update_true_latches p st :
  (update p st).1.1 = true ->
  isTriggered st = false /\ isTriggered (update p st).1.2 = true /\
  exists pnl hi, (update p st).2 = [StopLossTriggered (entryPrice st) p hi pnl].
Proof.
  unfold update. destruct (raise_fields p st) as (_ & He & Hi & _).
  destruct (_ && _) eqn:E; [|discriminate]. intros _.
  apply andb_true_iff in E as [_ E]. rewrite Hi in E.
  split; [destruct (isTriggered st); [discriminate|reflexivity]|].
  split; [reflexivity|]. simpl. rewrite He. eauto.
Qed.

Lemma update_false_silent p st :
  (update p st).1.1 = false -> (update p st).2 = [].
Proof. unfold update. destruct (_ && _); [discriminate|reflexivity]. Qed.

Lemma filter_all_false (l : list (bool * list Event)) :
  Forall (fun o => o = (false, [])) l -> List.filter fst l = [].
Proof.
  induction 1 as [|o l Ho _ IHl]; [reflexivity|]. subst o. exact IHl.
Qed.

(** X6. Over any sequence of [update] calls the stop is reported at most
    once: at most one call returns true, a call emits the stop-loss event
    exactly when it returns true, and after a true every later call returns
    false and emits nothing. *)
Theorem stop_reported_at_most_once (prices : list Q) (st : t) :
  (length (List.filter fst (outcomes prices st)) <= 1)%nat /\
  Forall (fun o => o.1 = false <-> o.2 = []) (outcomes prices st) /\
  (forall before after r evs,
     outcomes prices st = before ++ (r, evs) :: after ->
     r = true -> Forall (fun o => o = (false, [])) after).
Proof.
  revert st. induction prices as [|p ps IH]; intros st.
  - simpl. split; [lia|]. split; [constructor|].
    intros [|? ?] ? ? ? H; discriminate.
  - rewrite outcomes_cons.
    destruct (IH (update p st).1.2) as (IH1 & IH2 & IH3).
    destruct ((update p st).1.1) eqn:Er.
    + destruct (update_true_latches p st Er) as (_ & Hl & pnl & hi & Hev).
      pose proof (outcomes_after_trigger ps _ Hl) as Hall.
      split; [|split].
      * simpl. rewrite (filter_all_false _ Hall). simpl. lia.
      * constructor; [|exact IH2]. simpl. rewrite Hev. split; discriminate.
      * intros before after r evs Heq Hr. destruct before as [|b bs].
        -- simpl in Heq. inversion Heq; subst. exact Hall.
        -- simpl in Heq. inversion Heq as [[Hb Hrest]].
           rewrite Hrest in Hall. apply Forall_app in Hall as [_ Hall].
           inversion Hall; assumption.
    + pose proof (update_false_silent p st Er) as Hev.
      split; [exact IH1|]. split.
      * constructor; [|exact IH2]. simpl. rewrite Hev. tauto.
      * intros before after r evs Heq Hr. destruct before as [|b bs].
        -- simpl in Heq. inversion Heq; subst. discriminate.
        -- simpl in Heq. inversion Heq as [[Hb Hrest]].
           eapply IH3; eauto.
Qed.

(** The stop is reported once on 110, 106, 104, 120, 90 from entry 100. *)
Lemma stop_reported_at_most_once_witness :
  let st := constructor default_config 100 None in
  let os := outcomes [110%Q; 106%Q; 104%Q; 120%Q; 90%Q] st in
  os.*1 = [false; true; false; false; false] /\
  (length (List.filter fst os) <= 1)%nat.
Proof.
  cbv zeta. split; [vm_compute; reflexivity|].
  apply (stop_reported_at_most_once
           [110%Q; 106%Q; 104%Q; 120%Q; 90%Q] (constructor default_config 100 None)).
Defined.

(** X7. For a stop derived from its high-water mark, with a positive
    trailing percent and a positive high, [update(currentPrice)] returns true
    exactly when the stop was not triggered before and the price is at or
    below [highestPrice * (1 - trailingPercent)]; a new high never triggers.
    When it returns true the event carries the P&L percent relative to the
    entry price. *)
Theorem stop_triggers_at_trailing_distance (st : t) (currentPrice : Q) :
  derived st ->
  (0 < trailingPercent st)%Q ->
  (0 < highestPrice st)%Q ->
  ((update currentPrice st).1.1 = true <->
   isTriggered st = false /\
   (currentPrice <= highestPrice st * (1 - trailingPercent st))%Q) /\
  ((highestPrice st < currentPrice)%Q -> (update currentPrice st).1.1 = false) /\
  ((update currentPrice st).1.1 = true ->
   (update currentPrice st).2 =
   [StopLossTriggered (entryPrice st) currentPrice (highestPrice st)
      ((currentPrice - entryPrice st) / entryPrice st * 100)]).
Proof.
  intros Hd Htp Hhi.
  destruct (raise_fields currentPrice st) as (Ft & Fe & Fi & Fh & Fs).
  assert (Hnew : (highestPrice st < currentPrice)%Q ->
                 (update currentPrice st).1.1 = false).
  { intros Hlt. unfold update. rewrite Fs, Fi.
    apply Qltb_lt in Hlt as Hb. rewrite Hb.
    assert (Hs : Qle_bool currentPrice (currentPrice * (1 - trailingPercent st)) = false).
    { destruct (Qle_bool _ _) eqn:E; [|reflexivity].
      apply Qle_bool_iff in E. apply Qltb_lt in Hb. nra. }
    rewrite Hs. reflexivity. }
  split; [|split; [exact Hnew|]].
  - destruct (Qlt_le_dec (highestPrice st) currentPrice) as [Hlt|Hle].
    + rewrite (Hnew Hlt). split; [discriminate|]. intros [_ H]. nra.
    + apply Qltb_ge in Hle as Hb. unfold update. rewrite Fs, Fi, Hb, Hd.
      destruct (Qle_bool currentPrice (highestPrice st * (1 - trailingPercent st))) eqn:E;
        destruct (isTriggered st); simpl.
      * split; [discriminate|intros [H _]; discriminate].
      * split; [|reflexivity]. intros _. split; [reflexivity|].
        apply Qle_bool_iff, E.
      * split; [discriminate|intros [H _]; discriminate].
      * split; [discriminate|]. intros [_ H]. apply Qle_bool_iff in H. congruence.
  - intros Htrue. destruct (Qlt_le_dec (highestPrice st) currentPrice) as [Hlt|Hle].
    + rewrite (Hnew Hlt) in Htrue. discriminate.
    + apply Qltb_ge in Hle as Hb. revert Htrue. unfold update.
      rewrite Fs, Fi, Fe, Fh, Hb.
      destruct (_ && _); [reflexivity|discriminate].
Qed.

(** Entry 100 and trailing 3%: after a high of 110 the stop is 106.7, and a
    price of 106 triggers it with a P&L of +6%. *)
Lemma stop_triggers_at_trailing_distance_witness :
  let st := updates [110%Q] (constructor default_config 100 None) in
  derived st /\ (0 < trailingPercent st)%Q /\ (0 < highestPrice st)%Q /\
  (stopPrice st == 1067 # 10)%Q /\
  (update 106 st).1.1 = true /\
  (exists hi pnl, (update 106 st).2 = [StopLossTriggered 100 106 hi pnl] /\
                  (pnl == 6)%Q).
Proof.
  cbv zeta.
  assert (Hd : derived (updates [110%Q] (constructor default_config 100 None)))
    by (apply updates_derived, constructor_derived).
  assert (Ht : (0 < trailingPercent (updates [110%Q] (constructor default_config 100 None)))%Q)
    by (vm_compute; reflexivity).
  assert (Hh : (0 < highestPrice (updates [110%Q] (constructor default_config 100 None)))%Q)
    by (vm_compute; reflexivity).
  split; [exact Hd|]. split; [exact Ht|]. split; [exact Hh|].
  split; [vm_compute; reflexivity|].
  destruct (stop_triggers_at_trailing_distance _ 106 Hd Ht Hh) as (Hiff & _ & Hev).
  assert (Htrue : (update 106 (updates [110%Q] (constructor default_config 100 None))).1.1 = true).
  { apply Hiff. split; [vm_compute; reflexivity|vm_compute; discriminate]. }
  split; [exact Htrue|].
  eexists _, _. split; [rewrite (Hev Htrue); vm_compute; reflexivity|].
  vm_compute. reflexivity.
Defined.

End TrailingStopLossMore.

(** ** TakeProfitLevels: next level, bookkeeping, order of triggering *)

Module TakeProfitMore.
Import TakeProfitLevels TakeProfitStates TakeProfitFacts.

Lemma find_untriggered_none (ls : list Level) :
  List.find (fun l => negb (isTriggered l)) ls = None <-> forallb isTriggered ls = true.
Proof.
  induction ls as [|l ls IH]; simpl; [tauto|].
  destruct (isTriggered l); simpl; [exact IH|]. split; discriminate.
Qed.

Lemma find_untriggered_first (ls : list Level) l :
  List.find (fun l => negb (isTriggered l)) ls = Some l ->
  isTriggered l = false /\
  exists k, ls !! k = Some l /\
    forall j l', (j < k)%nat -> ls !! j = Some l' -> isTriggered l' = true.
Proof.
  induction ls as [|x ls IH]; simpl; [discriminate|].
  destruct (isTriggered x) eqn:E; simpl.
  - intros H. destruct (IH H) as (Hl & k & Hk & Hbefore).
    split; [exact Hl|]. exists (S k). split; [exact Hk|].
    intros [|j] l' Hj Hl'; simpl in Hl'.
    + inversion Hl'; subst. exact E.
    + apply (Hbefore j); [lia|exact Hl'].
  - intros H. inversion H; subst. split; [exact E|].
    exists 0%nat. split; [reflexivity|]. intros j l' Hj. lia.
Qed.

(** X8. [getNextLevel()] returns null exactly when [allLevelsExecuted()] is
    true; otherwise it returns the first untriggered level of the array.
    After [checkLevels(currentPrice)] the next level, if any, has its target
    strictly above that price. *)
Theorem getNextLevel_first_untriggered (st : t) :
  (getNextLevel st = None <-> allLevelsExecuted st = true) /\
  (forall l, getNextLevel st = Some l ->
     isTriggered l = false /\
     exists k, levels st !! k = Some l /\
       forall j l', (j < k)%nat -> levels st !! j = Some l' -> isTriggered l' = true) /\
  (forall price l,
     getNextLevel (checkLevels price st).1.2 = Some l ->
     (price < targetPrice l)%Q).
Proof.
  split; [apply find_untriggered_none|]. split; [apply find_untriggered_first|].
  intros price l H. apply find_untriggered_first in H as (Hun & k & Hk & _).
  rewrite checkLevels_levels, list_lookup_fmap in Hk.
  destruct (levels st !! k) as [l0|]; [|discriminate]. simpl in Hk.
  inversion Hk; subst. clear Hk.
  destruct (step_fields price l0) as (_ & _ & Ht & _ & Htr).
  rewrite Ht. rewrite Htr in Hun. apply orb_false_iff in Hun as [_ Hun].
  apply Qle_bool_false. exact Hun.
Qed.

(** Default levels at entry 100: after a check at 115 the next level is the
    second one, with target 120. *)
Lemma getNextLevel_witness :
  let st := (checkLevels 115 (constructor default_config 100 None)).1.2 in
  (exists l, getNextLevel st = Some l /\ levelIndex l = 2%nat /\
             (115 < targetPrice l)%Q) /\
  allLevelsExecuted st = false.
Proof.
  cbv zeta. split; [|vm_compute; reflexivity].
  destruct (getNextLevel_first_untriggered (constructor default_config 100 None))
    as (_ & _ & H).
  eexists. split; [vm_compute; reflexivity|]. split; [reflexivity|].
  apply (H 115%Q). vm_compute. reflexivity.
Defined.

Lemma checkLevels_executed price st :
  executedLevels (checkLevels price st).1.2 =
  executedLevels st ++ (checkLevels price st).1.1.
Proof.
  unfold checkLevels. destruct (checkLoop _ _ _) as [[ls' trig] evs]. reflexivity.
Qed.

Lemma count_triggered_step price (ls : list Level) :
  length (List.filter isTriggered (step price <$> ls)) =
  (length (List.filter isTriggered ls) + length (List.filter (hit price) ls))%nat.
Proof.
  induction ls as [|l ls IH]; [reflexivity|].
  rewrite fmap_cons. cbn [List.filter].
  destruct (step_fields price l) as (_ & _ & _ & _ & Hs). rewrite Hs.
  assert (Hh : hit price l = negb (isTriggered l) && Qle_bool (targetPrice l) price)
    by reflexivity.
  rewrite Hh.
  destruct (isTriggered l), (Qle_bool (targetPrice l) price);
    cbn [orb andb negb length]; rewrite IH; lia.
Qed.

Lemma checks_bookkeeping prices : forall st,
  executedLevels (checks prices st).2 = executedLevels st ++ concat (checks prices st).1 /\
  length (List.filter isTriggered (levels (checks prices st).2)) =
    (length (List.filter isTriggered (levels st)) + length (concat (checks prices st).1))%nat /\
  length (levels (checks prices st).2) = length (levels st) /\
  (Forall (fun l => isTriggered l = true) (executedLevels st) ->
   Forall (fun l => isTriggered l = true) (executedLevels (checks prices st).2)).
Proof.
  induction prices as [|p ps IH]; intros st.
  - simpl. rewrite app_nil_r. repeat split; auto.
  - rewrite checks_cons. cbn [fst snd concat].
    destruct (IH (checkLevels p st).1.2) as (H1 & H2 & H3 & H4).
    split; [|split; [|split]].
    + rewrite H1, checkLevels_executed, app_assoc. reflexivity.
    + rewrite H2, checkLevels_levels, count_triggered_step, length_app,
        checkLevels_returned, length_fmap. lia.
    + rewrite H3, checkLevels_levels, length_fmap. reflexivity.
    + intros Hall. apply H4. rewrite checkLevels_executed.
      apply Forall_app. split; [exact Hall|].
      rewrite checkLevels_returned. apply Forall_fmap, Forall_forall.
      intros l _. reflexivity.
Qed.

Lemma fresh_constructor cfg entry : fresh (constructor cfg entry None).
Proof.
  split; [reflexivity|]. simpl. unfold fromConfig.
  apply Forall_forall. intros l Hl. apply elem_of_lookup_imap in Hl as (i & c & -> & _).
  reflexivity.
Qed.

Lemma filter_triggered_fresh (ls : list Level) :
  Forall (fun l => isTriggered l = false) ls -> List.filter isTriggered ls = [].
Proof.
  induction 1 as [|l ls Hl _ IH]; [reflexivity|]. simpl. rewrite Hl. exact IH.
Qed.

Lemma filter_length_le {A} (f : A -> bool) (l : list A) :
  (length (List.filter f l) <= length l)%nat.
Proof.
  induction l as [|x l IH]; simpl; [lia|]. destruct (f x); simpl; lia.
Qed.

(** X9. Bookkeeping of executed levels.  From a fresh instance (nothing
    executed, nothing triggered), after any sequence of [checkLevels] calls
    [executedLevels] is the concatenation of what the calls returned, every
    level in it is triggered, its length equals the number of triggered levels
    and never exceeds the number of levels. *)
Theorem executedLevels_count_triggered (st : t) (prices : list Q) :
  fresh st ->
  let r := checks prices st in
  executedLevels r.2 = concat r.1 /\
  Forall (fun l => isTriggered l = true) (executedLevels r.2) /\
  executedCount r.2 = length (List.filter isTriggered (levels r.2)) /\
  (executedCount r.2 <= length (levels st))%nat /\
  (allLevelsExecuted r.2 = true <-> executedCount r.2 = length (levels st)).
Proof.
  intros [He Hl] r. subst r.
  destruct (checks_bookkeeping prices st) as (H1 & H2 & H3 & H4).
  rewrite He in H1, H4. simpl in H1.
  rewrite (filter_triggered_fresh _ Hl) in H2. simpl in H2.
  assert (Hc : executedCount (checks prices st).2 =
               length (List.filter isTriggered (levels (checks prices st).2))).
  { unfold executedCount. rewrite H1, H2. reflexivity. }
  split; [exact H1|]. split; [apply H4; constructor|]. split; [exact Hc|].
  split.
  - rewrite Hc, <- H3. apply filter_length_le.
  - rewrite Hc, <- H3. unfold allLevelsExecuted.
    generalize (levels (checks prices st).2). intros ls.
    induction ls as [|l ls IH]; simpl; [tauto|].
    destruct (isTriggered l); simpl.
    + rewrite IH. split; intros; lia.
    + split; [discriminate|]. intros H.
      pose proof (filter_length_le isTriggered ls). lia.
Qed.

(** Default levels at entry 100 and prices 105, 115, 112, 125. *)
Lemma executedLevels_count_witness :
  let st := constructor default_config 100 None in
  fresh st /\
  executedCount (checks [105%Q; 115%Q; 112%Q; 125%Q] st).2 = 2%nat /\
  (executedCount (checks [105%Q; 115%Q; 112%Q; 125%Q] st).2 <= length (levels st))%nat.
Proof.
  cbv zeta.
  pose proof (fresh_constructor default_config 100) as Hf.
  split; [exact Hf|]. split; [vm_compute; reflexivity|].
  pose proof (executedLevels_count_triggered _ [105%Q; 115%Q; 112%Q; 125%Q] Hf) as H.
  cbv zeta in H. destruct H as (_ & _ & _ & H & _). exact H.
Defined.

Lemma fresh_triggered_by_target st : fresh st -> triggered_by_target st.
Proof.
  intros [_ Hl] lj lk _ Hk _ Ht. rewrite Forall_forall in Hl.
  rewrite (Hl lk Hk) in Ht. discriminate.
Qed.

Lemma checkLevels_triggered_by_target price st :
  triggered_by_target st -> triggered_by_target (checkLevels price st).1.2.
Proof.
  intros Hinv lj lk Hj Hk Hle Ht.
  rewrite checkLevels_levels in Hj, Hk.
  apply list_elem_of_fmap in Hj as (lj0 & -> & Hj).
  apply list_elem_of_fmap in Hk as (lk0 & -> & Hk).
  destruct (step_fields price lj0) as (_ & _ & Tj & _ & Sj).
  destruct (step_fields price lk0) as (_ & _ & Tk & _ & Sk).
  rewrite Tj, Tk in Hle. rewrite Sk in Ht. rewrite Sj.
  apply orb_true_iff in Ht as [Ht|Ht]; apply orb_true_iff.
  - left. eapply Hinv; eauto.
  - right. apply Qle_bool_iff. apply Qle_bool_iff in Ht. lra.
Qed.

(** X10. Levels trigger in the order of their targets.  From a fresh
    instance, after any sequence of [checkLevels] calls, whenever a level is
    triggered every level with a target at or below its own is triggered too,
    whatever order the levels have in the array. *)
Theorem levels_trigger_in_target_order (st : t) (prices : list Q) :
  fresh st -> triggered_by_target (checks prices st).2.
Proof.
  intros Hf. apply fresh_triggered_by_target in Hf. revert st Hf.
  induction prices as [|p ps IH]; intros st Hinv; [exact Hinv|].
  rewrite checks_cons. cbn [snd]. apply IH, checkLevels_triggered_by_target, Hinv.
Qed.

Lemma levels_trigger_in_target_order_witness :
  let st := constructor default_config 100 None in
  fresh st /\ triggered_by_target (checks [105%Q; 125%Q] st).2.
Proof.
  cbv zeta. pose proof (fresh_constructor default_config 100) as Hf.
  split; [exact Hf|]. exact (levels_trigger_in_target_order _ [105%Q; 125%Q] Hf).
Defined.

End TakeProfitMore.

(** ** ExitManager: lifecycle of a managed pair *)

Module ExitManagerMore.
Import ExitManager ExitManagerRuns.

(** An unmanaged pair is inert: [update] returns the no-action result
    without touching the manager or emitting anything, and [stopManaging] is
    a no-op.  [stopManaging] is idempotent, leaves the pair unmanaged and the
    other pairs as they were. *)
Theorem unmanaged_pair_is_inert (activeExits : gmap string Exit) (pair : string) :
  (activeExits !! pair = None ->
   (forall price, update pair price activeExits = (NoAction, activeExits, [])) /\
   stopManaging pair activeExits = activeExits /\
   isManaging pair activeExits = false) /\
  stopManaging pair (stopManaging pair activeExits) = stopManaging pair activeExits /\
  isManaging pair (stopManaging pair activeExits) = false /\
  (forall price,
     update pair price (stopManaging pair activeExits) =
     (NoAction, stopManaging pair activeExits, [])) /\
  (forall other, other <> pair ->
     stopManaging pair activeExits !! other = activeExits !! other).
Proof.
  assert (Hnone : forall m : gmap string Exit, m !! pair = None ->
            (forall price, update pair price m = (NoAction, m, [])) /\
            stopManaging pair m = m /\ isManaging pair m = false).
  { intros m Hm. split; [intros price; unfold update; rewrite Hm; reflexivity|].
    unfold stopManaging, isManaging. rewrite Hm.
    rewrite bool_decide_eq_false_2 by (intros [x Hx]; discriminate). auto. }
  assert (Hgone : stopManaging pair activeExits !! pair = None).
  { unfold stopManaging. destruct (bool_decide_reflect (is_Some (activeExits !! pair))) as [H|H].
    - apply lookup_delete_eq.
    - apply eq_None_not_Some, H. }
  split; [apply Hnone|].
  destruct (Hnone _ Hgone) as (Hu & Hs & Hm).
  split; [exact Hs|]. split; [exact Hm|]. split; [exact Hu|].
  intros other Hne. unfold stopManaging.
  destruct (bool_decide (is_Some (activeExits !! pair))); [|reflexivity].
  apply lookup_delete_ne. congruence.
Qed.

Lemma unmanaged_pair_witness :
  let exits := startManaging default_config 0 "ETH/USDC" 100 ∅ in
  exits !! "WBTC/USDC" = None /\
  update "WBTC/USDC" 50 exits = (NoAction, exits, []) /\
  stopManaging "WBTC/USDC" exits = exits.
Proof.
  cbv zeta.
  assert (H : startManaging default_config 0 "ETH/USDC" 100 ∅ !! "WBTC/USDC" = None)
    by (vm_compute; reflexivity).
  destruct (unmanaged_pair_is_inert (startManaging default_config 0 "ETH/USDC" 100 ∅)
              "WBTC/USDC") as (Hin & _).
  destruct (Hin H) as (Hu & Hs & _).
  split; [exact H|]. split; [apply Hu|exact Hs].
Defined.

(** [startManaging] puts the pair under management with a stop at
    [entryPrice * (1 - stopLossTrailing)], the high at the entry price and the
    configured take-profit levels untriggered, whatever record the pair had
    before, and leaves other pairs alone; on a pair that was not managed,
    [stopManaging] after [startManaging] gives back the manager as it was. *)
Theorem startManaging_then_stopManaging
    (cfg : Config) (now : Z) (pair : string) (entry : Q)
    (activeExits : gmap string Exit) :
  let started := startManaging cfg now pair entry activeExits in
  isManaging pair started = true /\
  (exists exit, started !! pair = Some exit /\
     entryPrice exit = entry /\ startTime exit = now /\
     TrailingStopLoss.highestPrice (stopLoss exit) = entry /\
     TrailingStopLoss.isTriggered (stopLoss exit) = false /\
     TrailingStopLoss.stopPrice (stopLoss exit) =
       (entry * (1 - cfg_stopLossTrailing cfg))%Q /\
     TakeProfitLevels.levels (takeProfit exit) =
       TakeProfitLevels.fromConfig entry (cfg_takeProfitLevels cfg) /\
     TakeProfitLevels.allLevelsExecuted (takeProfit exit) =
       (0 =? length (cfg_takeProfitLevels cfg))%nat) /\
  (forall other, other <> pair -> started !! other = activeExits !! other) /\
  (forall cfg' now' entry',
     startManaging cfg now pair entry (startManaging cfg' now' pair entry' activeExits)
     = started) /\
  (activeExits !! pair = None -> stopManaging pair started = activeExits).
Proof.
  intros started. subst started. unfold startManaging.
  split; [unfold isManaging; rewrite lookup_insert_eq;
          apply bool_decide_eq_true_2; eauto|].
  split.
  { eexists. rewrite lookup_insert_eq. split; [reflexivity|]. simpl.
    repeat split.
    unfold TakeProfitLevels.allLevelsExecuted. simpl.
    destruct (cfg_takeProfitLevels cfg); reflexivity. }
  split; [intros other Hne; apply lookup_insert_ne; congruence|].
  split; [intros; apply insert_insert_eq|].
  intros Hnone. unfold stopManaging. rewrite lookup_insert_eq.
  rewrite bool_decide_eq_true_2 by eauto.
  rewrite delete_insert_eq. apply delete_id, Hnone.
Qed.

Lemma startManaging_then_stopManaging_witness :
  let exits := startManaging default_config 0 "ETH/USDC" 100 ∅ in
  exits !! "WBTC/USDC" = None /\
  stopManaging "WBTC/USDC" (startManaging default_config 9 "WBTC/USDC" 60000 exits)
  = exits.
Proof.
  cbv zeta.
  assert (H : startManaging default_config 0 "ETH/USDC" 100 ∅ !! "WBTC/USDC" = None)
    by (vm_compute; reflexivity).
  split; [exact H|].
  pose proof (startManaging_then_stopManaging default_config 9 "WBTC/USDC" 60000
                (startManaging default_config 0 "ETH/USDC" 100 ∅)) as T.
  cbv zeta in T. destruct T as (_ & _ & _ & _ & T). exact (T H).
Defined.

Lemma new_high_update (sl : TrailingStopLoss.t) (price : Q) :
  (TrailingStopLoss.highestPrice sl < price)%Q -> (0 < price)%Q ->
  (0 < TrailingStopLoss.trailingPercent sl)%Q ->
  TrailingStopLoss.update price sl = (false, TrailingStopLoss.raise price sl, []).
Proof.
  intros Hhi Hp Htp. unfold TrailingStopLoss.update.
  destruct (TrailingStopLossFacts.raise_fields price sl) as (_ & _ & _ & _ & Fs).
  rewrite Fs. apply Qltb_lt in Hhi as Hb. rewrite Hb.
  assert (Hs : Qle_bool price (price * (1 - TrailingStopLoss.trailingPercent sl)) = false).
  { destruct (Qle_bool _ _) eqn:E; [|reflexivity]. apply Qle_bool_iff in E. nra. }
  rewrite Hs. reflexivity.
Qed.

Lemma all_reached_all_executed price (ls : list TakeProfitLevels.Level) :
  Forall (fun l => (TakeProfitLevels.targetPrice l <= price)%Q) ls ->
  forallb TakeProfitLevels.isTriggered (TakeProfitLevels.step price <$> ls) = true.
Proof.
  induction 1 as [|l ls Hl _ IH]; [reflexivity|].
  rewrite fmap_cons. simpl. rewrite IH, andb_true_r.
  destruct (TakeProfitFacts.step_fields price l) as (_ & _ & _ & _ & Hs).
  rewrite Hs. apply orb_true_iff. right. apply Qle_bool_iff, Hl.
Qed.

Lemma some_untriggered_reached price (ls : list TakeProfitLevels.Level) :
  Forall (fun l => (TakeProfitLevels.targetPrice l <= price)%Q) ls ->
  forallb TakeProfitLevels.isTriggered ls = false ->
  List.filter (TakeProfitLevels.hit price) ls <> [].
Proof.
  induction 1 as [|l ls Hl _ IH]; simpl; [discriminate|].
  unfold TakeProfitLevels.hit at 1.
  destruct (TakeProfitLevels.isTriggered l); simpl.
  - exact IH.
  - intros _. apply Qle_bool_iff in Hl. rewrite Hl. discriminate.
Qed.

(** X11. On a new high (a positive price above [highestPrice], trailing
    percent positive) the stop cannot trigger, so take-profit decides: when
    the price reaches the target of every level and some level was still
    untriggered, [update] returns the full exit with reason
    ['all_take_profit_levels'] and leaves every level triggered; when it
    reaches no untriggered level's target it returns the no-action result. *)
Theorem new_high_take_profit_outcome
    (activeExits : gmap string Exit) (pair : string) (price : Q) (exit : Exit) :
  activeExits !! pair = Some exit ->
  (TrailingStopLoss.highestPrice (stopLoss exit) < price)%Q ->
  (0 < price)%Q ->
  (0 < TrailingStopLoss.trailingPercent (stopLoss exit))%Q ->
  let r := update pair price activeExits in
  (exists exit', r.1.2 !! pair = Some exit' /\
     TrailingStopLoss.highestPrice (stopLoss exit') = price /\
     TrailingStopLoss.isTriggered (stopLoss exit') =
       TrailingStopLoss.isTriggered (stopLoss exit) /\
     TakeProfitLevels.levels (takeProfit exit') =
       TakeProfitLevels.step price <$> TakeProfitLevels.levels (takeProfit exit)) /\
  (Forall (fun l => (TakeProfitLevels.targetPrice l <= price)%Q)
     (TakeProfitLevels.levels (takeProfit exit)) ->
   TakeProfitLevels.allLevelsExecuted (takeProfit exit) = false ->
   r.1.1 = FullExit "all_take_profit_levels" price
             ((price - entryPrice exit) / entryPrice exit * 100) /\
   exists exit', r.1.2 !! pair = Some exit' /\
     TakeProfitLevels.allLevelsExecuted (takeProfit exit') = true) /\
  (List.filter (TakeProfitLevels.hit price)
     (TakeProfitLevels.levels (takeProfit exit)) = [] ->
   r.1.1 = NoAction /\ r.2 = []).
Proof.
  intros Hex Hhi Hp Htp r. subst r. unfold update. rewrite Hex.
  rewrite (new_high_update _ _ Hhi Hp Htp).
  cbn [with_stopLoss takeProfit].
  pose proof (TakeProfitFacts.checkLevels_levels price (takeProfit exit)) as Hlv.
  pose proof (TakeProfitFacts.checkLevels_returned price (takeProfit exit)) as Hret.
  destruct (TakeProfitLevels.checkLevels price (takeProfit exit)) as [[trig tp] e2] eqn:Ecl.
  cbn [fst snd] in Hlv, Hret.
  assert (Hstate : forall (res : Result) (evs : list Event),
            exists exit',
              (res, <[pair := with_takeProfit tp
                               {| stopLoss := TrailingStopLoss.raise price (stopLoss exit);
                                  takeProfit := takeProfit exit;
                                  entryPrice := entryPrice exit;
                                  startTime := startTime exit |}]> activeExits, evs).1.2
                !! pair = Some exit' /\
              TrailingStopLoss.highestPrice (stopLoss exit') = price /\
              TrailingStopLoss.isTriggered (stopLoss exit') =
                TrailingStopLoss.isTriggered (stopLoss exit) /\
              TakeProfitLevels.levels (takeProfit exit') =
                TakeProfitLevels.step price <$> TakeProfitLevels.levels (takeProfit exit)).
  { intros res evs. eexists. cbn [fst snd]. rewrite lookup_insert_eq.
    split; [reflexivity|]. cbn [with_takeProfit stopLoss takeProfit].
    destruct (TrailingStopLossFacts.raise_fields price (stopLoss exit))
      as (_ & _ & Fi & Fh & _).
    rewrite Fh, Fi. apply Qltb_lt in Hhi. rewrite Hhi. auto. }
  split; [|split].
  - destruct (0 <? length trig)%nat; [|apply Hstate].
    destruct (TakeProfitLevels.allLevelsExecuted tp); apply Hstate.
  - intros Hall Hnot.
    assert (Htrig : (0 <? length trig)%nat = true).
    { rewrite Hret, length_fmap. apply Nat.ltb_lt.
      pose proof (some_untriggered_reached price _ Hall Hnot) as Hne.
      destruct (List.filter _ _); [contradiction|simpl; lia]. }
    assert (Hdone : TakeProfitLevels.allLevelsExecuted tp = true).
    { unfold TakeProfitLevels.allLevelsExecuted. rewrite Hlv.
      apply all_reached_all_executed, Hall. }
    rewrite Htrig, Hdone. cbn [fst snd]. split; [reflexivity|].
    eexists. rewrite lookup_insert_eq. split; [reflexivity|]. exact Hdone.
  - intros Hnil. rewrite Hret, Hnil. cbn [fmap list_fmap length Nat.ltb Nat.leb fst snd].
    split; [reflexivity|].
    unfold TakeProfitLevels.checkLevels in Ecl.
    assert (Hev : forall entry ls, List.filter (TakeProfitLevels.hit price) ls = [] ->
              (TakeProfitLevels.checkLoop entry price ls).2 = []).
    { intros entry ls. induction ls as [|l ls IH]; [reflexivity|]. simpl.
      destruct (TakeProfitLevels.hit price l); [discriminate|]. intros H.
      specialize (IH H). destruct (TakeProfitLevels.checkLoop entry price ls) as [[? ?] ?].
      exact IH. }
    specialize (Hev (TakeProfitLevels.entryPrice (takeProfit exit)) _ Hnil).
    destruct (TakeProfitLevels.checkLoop _ _ _) as [[? ?] ?].
    inversion Ecl; subst. simpl in Hev. rewrite Hev. reflexivity.
Qed.

(** Default configuration, entry 100: a jump to 135 closes the position on
    take-profit; a move to 105 does nothing. *)
Lemma new_high_take_profit_witness :
  let exits := startManaging default_config 0 "ETH/USDC" 100 ∅ in
  (exists exit, exits !! "ETH/USDC" = Some exit /\
     (TrailingStopLoss.highestPrice (stopLoss exit) < 135)%Q /\
     (0 < TrailingStopLoss.trailingPercent (stopLoss exit))%Q) /\
  reason (update "ETH/USDC" 135 exits).1.1 = Some "all_take_profit_levels" /\
  (update "ETH/USDC" 105 exits).1.1 = NoAction.
Proof.
  cbv zeta.
  set (exits := startManaging default_config 0 "ETH/USDC" 100 ∅).
  assert (Hex : exits !! "ETH/USDC" =
                Some {| stopLoss := TrailingStopLoss.constructor default_config 100 None;
                        takeProfit := TakeProfitLevels.constructor default_config 100 None;
                        entryPrice := 100; startTime := 0 |})
    by apply lookup_insert_eq.
  assert (H135 : (100 < 135)%Q) by reflexivity.
  assert (H105 : (100 < 105)%Q) by reflexivity.
  assert (Htp : (0 < 3 # 100)%Q) by reflexivity.
  split.
  { eexists. split; [exact Hex|]. split; [exact H135|exact Htp]. }
  pose proof (new_high_take_profit_outcome exits "ETH/USDC" 135 _ Hex H135
                (eq_refl : (0 < 135)%Q) Htp) as T1.
  pose proof (new_high_take_profit_outcome exits "ETH/USDC" 105 _ Hex H105
                (eq_refl : (0 < 105)%Q) Htp) as T2.
  cbv zeta in T1, T2. destruct T1 as (_ & T1 & _). destruct T2 as (_ & _ & T2).
  split.
  - destruct T1 as [T1 _]; [|vm_compute; reflexivity|rewrite T1; reflexivity].
    repeat constructor; vm_compute; discriminate.
  - apply T2. vm_compute. reflexivity.
Defined.

Lemma updates_cons call calls exits :
  updates (call :: calls) exits =
  (call.1, (update call.1 call.2 exits).1.1)
    :: updates calls (update call.1 call.2 exits).1.2.
Proof. simpl. destruct (update call.1 call.2 exits) as [[r e1] evs]. reflexivity. Qed.

Lemma update_other_pair pair q price (exits : gmap string Exit) :
  q <> pair -> (update q price exits).1.2 !! pair = exits !! pair.
Proof.
  intros Hne. unfold update. destruct (exits !! q) as [exit|]; [|reflexivity].
  destruct (TrailingStopLoss.update price (stopLoss exit)) as [[b sl] e1].
  destruct b; [apply lookup_insert_ne; congruence|].
  destruct (TakeProfitLevels.checkLevels price _) as [[trig tp] e2].
  destruct (0 <? length trig)%nat; [destruct (TakeProfitLevels.allLevelsExecuted tp)|];
    apply lookup_insert_ne; congruence.
Qed.

Lemma update_latched pair price (exits : gmap string Exit) exit :
  exits !! pair = Some exit ->
  TrailingStopLoss.isTriggered (stopLoss exit) = true ->
  reason (update pair price exits).1.1 <> Some "stop_loss" /\
  exists exit', (update pair price exits).1.2 !! pair = Some exit' /\
    TrailingStopLoss.isTriggered (stopLoss exit') = true.
Proof.
  intros Hex Ht. unfold update. rewrite Hex.
  pose proof (TrailingStopLossFacts.update_fields price (stopLoss exit)) as (_ & _ & _ & _ & Hl).
  specialize (Hl Ht).
  assert (Hfalse : (TrailingStopLoss.update price (stopLoss exit)).1.1 = false).
  { unfold TrailingStopLoss.update.
    destruct (TrailingStopLossFacts.raise_fields price (stopLoss exit)) as (_ & _ & Hi & _).
    rewrite Hi, Ht, andb_false_r. reflexivity. }
  destruct (TrailingStopLoss.update price (stopLoss exit)) as [[b sl] e1].
  cbn [fst snd] in Hl, Hfalse. subst b.
  destruct (TakeProfitLevels.checkLevels price _) as [[trig tp] e2].
  destruct (0 <? length trig)%nat; [destruct (TakeProfitLevels.allLevelsExecuted tp)|];
    cbn [fst snd reason]; (split; [discriminate|]);
    eexists; rewrite lookup_insert_eq; (split; [reflexivity|exact Hl]).
Qed.

Lemma update_stop_loss_latches pair price (exits : gmap string Exit) :
  reason (update pair price exits).1.1 = Some "stop_loss" ->
  exists exit', (update pair price exits).1.2 !! pair = Some exit' /\
    TrailingStopLoss.isTriggered (stopLoss exit') = true.
Proof.
  unfold update. destruct (exits !! pair) as [exit|]; [|discriminate].
  pose proof (TrailingStopLossMore.update_true_latches price (stopLoss exit)) as Hl.
  destruct (TrailingStopLoss.update price (stopLoss exit)) as [[b sl] e1].
  cbn [fst snd] in Hl. destruct b.
  - intros _. destruct (Hl eq_refl) as (_ & Ht & _).
    eexists. cbn [fst snd]. rewrite lookup_insert_eq. split; [reflexivity|exact Ht].
  - destruct (TakeProfitLevels.checkLevels price _) as [[trig tp] e2].
    destruct (0 <? length trig)%nat; [destruct (TakeProfitLevels.allLevelsExecuted tp)|];
      discriminate.
Qed.

Lemma update_unmanaged pair price (exits : gmap string Exit) :
  exits !! pair = None -> update pair price exits = (NoAction, exits, []).
Proof. intros H. unfold update. rewrite H. reflexivity. Qed.

Lemma isStopLossFor_other pair q r : q <> pair -> isStopLossFor pair (q, r) = false.
Proof.
  intros Hne. unfold isStopLossFor. simpl.
  destruct (String.eqb_spec q pair); [contradiction|reflexivity].
Qed.

Lemma isStopLossFor_same pair r :
  isStopLossFor pair (pair, r) = true <-> reason r = Some "stop_loss".
Proof.
  unfold isStopLossFor. simpl. rewrite String.eqb_refl. simpl.
  destruct (reason r) as [s|]; [|split; discriminate].
  destruct (String.eqb_spec s "stop_loss"); split; congruence.
Qed.

Lemma no_stop_loss_once_latched pair calls : forall (exits : gmap string Exit),
  match exits !! pair with
  | Some exit => TrailingStopLoss.isTriggered (stopLoss exit) = true
  | None => True
  end ->
  List.filter (isStopLossFor pair) (updates calls exits) = [].
Proof.
  induction calls as [|[q price] calls IH]; intros exits Hinv; [reflexivity|].
  rewrite updates_cons. cbn [fst snd List.filter].
  destruct (decide (q = pair)) as [->|Hne].
  - destruct (exits !! pair) as [exit|] eqn:Hex.
    + destruct (update_latched pair price exits exit Hex Hinv) as (Hr & exit' & Hex' & Ht').
      assert (Hno : isStopLossFor pair (pair, (update pair price exits).1.1) = false).
      { destruct (isStopLossFor _ _) eqn:E; [|reflexivity].
        apply isStopLossFor_same in E. contradiction. }
      rewrite Hno. apply IH. rewrite Hex'. exact Ht'.
    + rewrite (update_unmanaged pair price exits Hex). cbn [fst snd].
      unfold isStopLossFor at 1. simpl. rewrite andb_false_r.
      apply IH. rewrite Hex. exact I.
  - rewrite isStopLossFor_other by exact Hne. apply IH.
    rewrite update_other_pair by exact Hne. exact Hinv.
Qed.

(** X12. While a pair stays managed, its stop-loss is reported at most once:
    in any sequence of [update] calls on any pairs, at most one result for a
    given pair has reason ['stop_loss'], and once the pair's stop has
    triggered no later [update] reports it again. *)
Theorem stop_loss_reported_once_per_pair
    (pair : string) (calls : list (string * Q)) (activeExits : gmap string Exit) :
  (length (List.filter (isStopLossFor pair) (updates calls activeExits)) <= 1)%nat /\
  (forall exit, activeExits !! pair = Some exit ->
     TrailingStopLoss.isTriggered (stopLoss exit) = true ->
     List.filter (isStopLossFor pair) (updates calls activeExits) = []).
Proof.
  split.
  - revert activeExits. induction calls as [|[q price] calls IH]; intros exits;
      [simpl; lia|].
    rewrite updates_cons. cbn [fst snd List.filter].
    destruct (isStopLossFor pair (q, (update q price exits).1.1)) eqn:E; [|apply IH].
    assert (q = pair) as ->.
    { unfold isStopLossFor in E. simpl in E. apply andb_true_iff in E as [E _].
      apply String.eqb_eq, E. }
    apply isStopLossFor_same, update_stop_loss_latches in E as (exit' & Hex' & Ht').
    rewrite no_stop_loss_once_latched; [simpl; lia|]. rewrite Hex'. exact Ht'.
  - intros exit Hex Ht. apply no_stop_loss_once_latched. rewrite Hex. exact Ht.
Qed.

(** Entry 100: prices 96, 95, 94 report the stop once. *)
Lemma stop_loss_reported_once_witness :
  let exits := startManaging default_config 0 "ETH/USDC" 100 ∅ in
  let calls := [("ETH/USDC", 96%Q); ("ETH/USDC", 95%Q); ("ETH/USDC", 94%Q)] in
  (reason <$> (updates calls exits).*2) = [Some "stop_loss"; None; None] /\
  (length (List.filter (isStopLossFor "ETH/USDC") (updates calls exits)) <= 1)%nat.
Proof.
  cbv zeta. split; [vm_compute; reflexivity|].
  apply (stop_loss_reported_once_per_pair "ETH/USDC").
Defined.

End ExitManagerMore.

(** ** PositionManager: opening, revaluing and closing *)

Module PositionManagerMore.
Import PositionManager PositionQueries PositionManagerFacts.

Lemma exposure_is_capitalInPositions st :
  totalInvested (getTotalExposure st) = capitalInPositions (openPositions st).
Proof. reflexivity. Qed.

Lemma hasOpenPosition_false pair st :
  hasOpenPosition pair st = false <-> openPositions st !! pair = None.
Proof.
  unfold hasOpenPosition. rewrite bool_decide_eq_false.
  rewrite eq_None_not_Some. tauto.
Qed.

(** X13. [openPosition] on a pair without an open position returns true and
    records the position as given, valued at its entry price with no
    unrealized P&L; capital is unchanged, available capital drops by
    [amountUSD], exposure rises by [amountUSD], the number of open positions
    grows by one and the other pairs are untouched. *)
Theorem openPosition_on_free_pair
    (now : Z) (pair : string) (entry usd tok : Q) (st : t) :
  hasOpenPosition pair st = false ->
  let r := openPosition now pair entry usd tok st in
  r.1 = true /\
  currentCapital r.2 = currentCapital st /\
  getPosition pair r.2 =
    Some {| PositionManager.pair := pair; entryPrice := entry; entryTime := now;
            investedAmount := usd; tokenAmount := tok; currentPrice := entry;
            unrealizedPnL := 0; unrealizedPnLPercent := 0 |} /\
  hasOpenPosition pair r.2 = true /\
  (getAvailableCapital r.2 == getAvailableCapital st - usd)%Q /\
  (totalInvested (getTotalExposure r.2) ==
   totalInvested (getTotalExposure st) + usd)%Q /\
  numPositions r.2 = S (numPositions st) /\
  (forall other, other <> pair -> getPosition other r.2 = getPosition other st).
Proof.
  intros Hfree r. subst r.
  pose proof (open_fresh_available now pair entry usd tok st Hfree) as Hav.
  apply hasOpenPosition_false in Hfree as Hnone.
  revert Hav. unfold openPosition. rewrite Hfree. cbn [fst snd]. intros Hav.
  split; [reflexivity|]. split; [reflexivity|].
  split; [apply lookup_insert_eq|].
  split.
  { unfold hasOpenPosition. apply bool_decide_eq_true_2. simpl.
    rewrite lookup_insert_eq. eauto. }
  split; [exact Hav|]. split.
  { rewrite !exposure_is_capitalInPositions. simpl.
    rewrite capital_insert by exact Hnone. reflexivity. }
  split; [apply map_size_insert_None, Hnone|].
  intros other Hne. unfold getPosition. simpl. apply lookup_insert_ne. congruence.
Qed.

Lemma openPosition_on_free_pair_witness :
  let st := constructor default_config in
  hasOpenPosition "ETH/USDC" st = false /\
  (openPosition 0 "ETH/USDC" 2000 5 (5 / 2000) st).1 = true /\
  (getAvailableCapital (openPosition 0 "ETH/USDC" 2000 5 (5 / 2000) st).2 ==
   getAvailableCapital st - 5)%Q.
Proof.
  cbv zeta.
  assert (H : hasOpenPosition "ETH/USDC" (constructor default_config) = false)
    by reflexivity.
  pose proof (openPosition_on_free_pair 0 "ETH/USDC" 2000 5 (5 / 2000) _ H) as T.
  cbv zeta in T. destruct T as (T1 & _ & _ & _ & T2 & _).
  split; [exact H|]. split; [exact T1|exact T2].
Defined.

(** X14. [closePosition] on an open pair adds the realized P&L
    [tokenAmount * exitPrice - investedAmount] to the capital, removes the
    position and reports it in the trade record; available capital rises by
    the exit value [tokenAmount * exitPrice], other pairs are untouched, and
    a second [closePosition] for the pair returns null and changes nothing.
    On a pair that is not open it returns null and changes nothing. *)
Theorem closePosition_folds_realized_pnl
    (now : Z) (pair : string) (exitPrice : Q) (st : t) :
  (forall position, openPositions st !! pair = Some position ->
     let r := closePosition now pair exitPrice st in
     let pnl := (tokenAmount position * exitPrice - investedAmount position)%Q in
     (exists record, r.1 = Some record /\
        tr_realizedPnL record = pnl /\ tr_exitPrice record = exitPrice /\
        tr_investedAmount record = investedAmount position /\
        tr_entryPrice record = entryPrice position) /\
     currentCapital r.2 = (currentCapital st + pnl)%Q /\
     (getAvailableCapital r.2 ==
      getAvailableCapital st + tokenAmount position * exitPrice)%Q /\
     hasOpenPosition pair r.2 = false /\
     S (numPositions r.2) = numPositions st /\
     (forall other, other <> pair -> getPosition other r.2 = getPosition other st) /\
     (forall now' price', closePosition now' pair price' r.2 = (None, r.2))) /\
  (openPositions st !! pair = None ->
   closePosition now pair exitPrice st = (None, st)).
Proof.
  split.
  - intros position Hp r pnl. subst r pnl. unfold closePosition. rewrite Hp.
    cbn [fst snd]. split; [eexists; split; [reflexivity|]; repeat split|].
    split; [reflexivity|]. split.
    { unfold getAvailableCapital. simpl.
      rewrite (capital_delete _ pair position Hp). ring. }
    split.
    { apply hasOpenPosition_false. simpl. apply lookup_delete_eq. }
    split.
    { unfold numPositions. simpl.
      rewrite <- (insert_delete_id (openPositions st) pair position Hp) at 2.
      rewrite map_size_insert_None by apply lookup_delete_eq. reflexivity. }
    split.
    { intros other Hne. unfold getPosition. simpl. apply lookup_delete_ne. congruence. }
    intros now' price'. simpl. rewrite lookup_delete_eq. reflexivity.
  - intros Hnone. unfold closePosition. rewrite Hnone. reflexivity.
Qed.

(** A position of 5 at 2000 closed at 2200. *)
Lemma closePosition_folds_witness :
  let st := (openPosition 0 "ETH/USDC" 2000 5 (5 / 2000) (constructor default_config)).2 in
  (exists position, openPositions st !! "ETH/USDC" = Some position) /\
  (currentCapital (closePosition 9 "ETH/USDC" 2200 st).2 == 101 # 2)%Q.
Proof.
  cbv zeta.
  set (st := (openPosition 0 "ETH/USDC" 2000 5 (5 / 2000) (constructor default_config)).2).
  assert (Hp : openPositions st !! "ETH/USDC" =
               Some {| PositionManager.pair := "ETH/USDC"; entryPrice := 2000;
                       entryTime := 0; investedAmount := 5;
                       tokenAmount := 5 / 2000; currentPrice := 2000;
                       unrealizedPnL := 0; unrealizedPnLPercent := 0 |})
    by apply lookup_insert_eq.
  split; [eexists; exact Hp|].
  destruct (closePosition_folds_realized_pnl 9 "ETH/USDC" 2200 st) as [T _].
  specialize (T _ Hp). cbv zeta in T. destruct T as (_ & T & _).
  rewrite T. vm_compute. reflexivity.
Defined.

(** X15. Opening a position with [amountToken = amountUSD / entryPrice] and
    closing it at the entry price is a round trip: the open positions are as
    before, the realized P&L is zero and the capital is back to its value. *)
Theorem open_then_close_at_entry_price
    (now now' : Z) (pair : string) (price usd : Q) (st : t) :
  hasOpenPosition pair st = false ->
  ~ (price == 0)%Q ->
  let opened := (openPosition now pair price usd (usd / price) st).2 in
  let r := closePosition now' pair price opened in
  openPositions r.2 = openPositions st /\
  (currentCapital r.2 == currentCapital st)%Q /\
  (getAvailableCapital r.2 == getAvailableCapital st)%Q /\
  (exists record, r.1 = Some record /\ (tr_realizedPnL record == 0)%Q /\
     tr_entryTime record = now /\ tr_exitTime record = now').
Proof.
  intros Hfree Hprice opened r. subst r opened.
  apply hasOpenPosition_false in Hfree as Hnone.
  unfold openPosition. rewrite Hfree. cbn [snd].
  unfold closePosition. cbn [openPositions with_positions].
  rewrite lookup_insert_eq. cbn [fst snd].
  assert (Hmap : delete pair (<[pair := {| PositionManager.pair := pair;
                    entryPrice := price; entryTime := now; investedAmount := usd;
                    tokenAmount := usd / price; currentPrice := price;
                    unrealizedPnL := 0; unrealizedPnLPercent := 0 |}]>
                    (openPositions st)) = openPositions st).
  { rewrite delete_insert_eq. apply delete_id, Hnone. }
  assert (Hzero : (usd / price * price - usd == 0)%Q) by (field; exact Hprice).
  split; [exact Hmap|]. split.
  { simpl. rewrite Hzero. ring. }
  split.
  { unfold getAvailableCapital. simpl. rewrite Hmap, Hzero. ring. }
  eexists. split; [reflexivity|]. simpl. auto.
Qed.

Lemma open_then_close_witness :
  let st := constructor default_config in
  hasOpenPosition "ETH/USDC" st = false /\ ~ (2000 == 0)%Q /\
  openPositions
    (closePosition 9 "ETH/USDC" 2000
       (openPosition 0 "ETH/USDC" 2000 5 (5 / 2000) st).2).2 = openPositions st.
Proof.
  cbv zeta.
  assert (H : hasOpenPosition "ETH/USDC" (constructor default_config) = false)
    by reflexivity.
  assert (Hp : ~ (2000 == 0)%Q) by discriminate.
  pose proof (open_then_close_at_entry_price 0 9 "ETH/USDC" 2000 5 _ H Hp) as T.
  cbv zeta in T. destruct T as (T & _).
  split; [exact H|]. split; [exact Hp|exact T].
Defined.

(** X16. [updatePosition] on an open pair revalues the position at the new
    price: unrealized P&L is [tokenAmount * currentPrice - investedAmount],
    entry data and invested amount stay, and nothing else moves: capital,
    available capital, exposure, number of positions and the other pairs are
    as before.  On a pair that is not open it returns null and changes
    nothing. *)
Theorem updatePosition_revalues_only (pair : string) (price : Q) (st : t) :
  (forall position, openPositions st !! pair = Some position ->
     let r := updatePosition pair price st in
     (exists position', r.1 = Some position' /\ getPosition pair r.2 = Some position' /\
        currentPrice position' = price /\
        unrealizedPnL position' =
          (tokenAmount position * price - investedAmount position)%Q /\
        investedAmount position' = investedAmount position /\
        tokenAmount position' = tokenAmount position /\
        entryPrice position' = entryPrice position /\
        entryTime position' = entryTime position) /\
     currentCapital r.2 = currentCapital st /\
     (getAvailableCapital r.2 == getAvailableCapital st)%Q /\
     (totalInvested (getTotalExposure r.2) == totalInvested (getTotalExposure st))%Q /\
     numPositions r.2 = numPositions st /\
     (forall other, other <> pair -> getPosition other r.2 = getPosition other st)) /\
  (openPositions st !! pair = None -> updatePosition pair price st = (None, st)).
Proof.
  split.
  - intros position Hp r. subst r. unfold updatePosition. rewrite Hp. cbn [fst snd].
    split.
    { eexists. split; [reflexivity|]. split; [apply lookup_insert_eq|]. simpl. auto 10. }
    split; [reflexivity|].
    assert (Hcap : (capitalInPositions
              (openPositions
                 (with_positions
                    (<[pair := {| PositionManager.pair := PositionManager.pair position;
                                  entryPrice := entryPrice position;
                                  entryTime := entryTime position;
                                  investedAmount := investedAmount position;
                                  tokenAmount := tokenAmount position;
                                  currentPrice := price;
                                  unrealizedPnL :=
                                    tokenAmount position * price - investedAmount position;
                                  unrealizedPnLPercent :=
                                    (tokenAmount position * price - investedAmount position)
                                    / investedAmount position * 100 |}]>
                       (openPositions st)) st))
              == capitalInPositions (openPositions st))%Q).
    { simpl. apply (capital_replace _ pair position); [exact Hp|reflexivity]. }
    split; [unfold getAvailableCapital; rewrite Hcap; reflexivity|].
    split; [rewrite !exposure_is_capitalInPositions; exact Hcap|].
    split.
    { unfold numPositions. simpl. apply map_size_insert_Some. eauto. }
    intros other Hne. unfold getPosition. simpl. apply lookup_insert_ne. congruence.
  - intros Hnone. unfold updatePosition. rewrite Hnone. reflexivity.
Qed.

(** A position of 5 at 2000 revalued at 2200. *)
Lemma updatePosition_revalues_witness :
  let st := (openPosition 0 "ETH/USDC" 2000 5 (5 / 2000) (constructor default_config)).2 in
  (exists position, openPositions st !! "ETH/USDC" = Some position) /\
  (getAvailableCapital (updatePosition "ETH/USDC" 2200 st).2 == getAvailableCapital st)%Q.
Proof.
  cbv zeta.
  set (st := (openPosition 0 "ETH/USDC" 2000 5 (5 / 2000) (constructor default_config)).2).
  assert (Hp : openPositions st !! "ETH/USDC" =
               Some {| PositionManager.pair := "ETH/USDC"; entryPrice := 2000;
                       entryTime := 0; investedAmount := 5;
                       tokenAmount := 5 / 2000; currentPrice := 2000;
                       unrealizedPnL := 0; unrealizedPnLPercent := 0 |})
    by apply lookup_insert_eq.
  split; [eexists; exact Hp|].
  destruct (updatePosition_revalues_only "ETH/USDC" 2200 st) as [T _].
  specialize (T _ Hp). cbv zeta in T. destruct T as (_ & _ & T & _). exact T.
Defined.

Lemma Math_max_cases v :
  ((1 # 4 <= v)%Q -> (Math_max (1 # 2) (1 - v / (1 # 2)) == 1 # 2)%Q) /\
  ((v <= 1 # 4)%Q -> (Math_max (1 # 2) (1 - v / (1 # 2)) == 1 - 2 * v)%Q).
Proof.
  assert (Hd : (v / (1 # 2) == 2 * v)%Q) by (field; discriminate).
  unfold Math_max. destruct (Qle_bool (1 # 2) (1 - v / (1 # 2))) eqn:E.
  - apply Qle_bool_iff in E. rewrite Hd in *. split; intros; lra.
  - apply Qle_bool_false in E. rewrite Hd in *. split; intros; lra.
Qed.

(** X17. Position sizing.  Without a volatility the size is
    [availableCapital * maxPositionPercent]; with a volatility [v] it is that
    base times [1 - 2 v] for [v <= 0.25] and times one half from [v = 0.25]
    on.  So for a non-negative base the size never grows with the volatility
    and, for [v >= 0], stays between half the base and the base.  For a
    non-zero price, [amountToken * currentPrice] gives back [amountUSD]. *)
Theorem calculatePositionSize_volatility_scaling (price : Q) (st : t) :
  let base := (getAvailableCapital st * maxPositionPercent st)%Q in
  amountUSD (calculatePositionSize price None st) = base /\
  (forall v, (1 # 4 <= v)%Q ->
     (amountUSD (calculatePositionSize price (Some v) st) == base * (1 # 2))%Q) /\
  (forall v, (v <= 1 # 4)%Q ->
     (amountUSD (calculatePositionSize price (Some v) st) == base * (1 - 2 * v))%Q) /\
  ((0 <= base)%Q ->
   (forall v1 v2, (v1 <= v2)%Q ->
      (amountUSD (calculatePositionSize price (Some v2) st) <=
       amountUSD (calculatePositionSize price (Some v1) st))%Q) /\
   (forall v, (0 <= v)%Q ->
      (base * (1 # 2) <= amountUSD (calculatePositionSize price (Some v) st) <= base)%Q)) /\
  (~ (price == 0)%Q ->
   forall volatility,
     (amountToken (calculatePositionSize price volatility st) * price ==
      amountUSD (calculatePositionSize price volatility st))%Q).
Proof.
  intros base. unfold calculatePositionSize. cbn [amountUSD amountToken].
  fold base.
  split; [reflexivity|]. split; [|split; [|split]].
  - intros v Hv. rewrite (proj1 (Math_max_cases v) Hv). reflexivity.
  - intros v Hv. rewrite (proj2 (Math_max_cases v) Hv). reflexivity.
  - intros Hbase. split.
    + intros v1 v2 Hle.
      assert (Hm : (Math_max (1 # 2) (1 - v2 / (1 # 2))
                    <= Math_max (1 # 2) (1 - v1 / (1 # 2)))%Q).
      { destruct (Qlt_le_dec v1 (1 # 4)) as [H1|H1];
          destruct (Qlt_le_dec v2 (1 # 4)) as [H2|H2].
        - rewrite (proj2 (Math_max_cases v1)), (proj2 (Math_max_cases v2)) by lra. lra.
        - rewrite (proj2 (Math_max_cases v1)), (proj1 (Math_max_cases v2)) by lra. lra.
        - lra.
        - rewrite (proj1 (Math_max_cases v1)), (proj1 (Math_max_cases v2)) by lra. lra. }
      nra.
    + intros v Hv. destruct (Math_max_bounds v Hv) as [Hl Hu]. split; nra.
  - intros Hprice volatility. field. exact Hprice.
Qed.

(** Capital 50 and 10%: volatility 0.1 gives 4, volatility 0.4 gives 2.5. *)
Lemma calculatePositionSize_witness :
  let st := constructor default_config in
  (0 <= getAvailableCapital st * maxPositionPercent st)%Q /\
  (amountUSD (calculatePositionSize 2000 (Some (1 # 10)) st) == 4)%Q /\
  (amountUSD (calculatePositionSize 2000 (Some (4 # 10)) st) == 5 # 2)%Q /\
  (amountUSD (calculatePositionSize 2000 (Some (4 # 10)) st) <=
   amountUSD (calculatePositionSize 2000 (Some (1 # 10)) st))%Q.
Proof.
  cbv zeta.
  assert (Hb : (0 <= getAvailableCapital (constructor default_config)
                     * maxPositionPercent (constructor default_config))%Q).
  { unfold getAvailableCapital. simpl. rewrite capital_empty. vm_compute. discriminate. }
  pose proof (calculatePositionSize_volatility_scaling 2000 (constructor default_config)) as T.
  cbv zeta in T. destruct T as (_ & _ & _ & T & _). destruct (T Hb) as [Tm _].
  split; [exact Hb|].
  split; [unfold calculatePositionSize, getAvailableCapital; simpl;
          rewrite capital_empty; vm_compute; reflexivity|].
  split; [unfold calculatePositionSize, getAvailableCapital; simpl;
          rewrite capital_empty; vm_compute; reflexivity|].
  apply Tm. vm_compute. discriminate.
Defined.

End PositionManagerMore.

(** ** BaseStrategy: trade metrics *)

Module BaseStrategyFacts.
Import BaseStrategy.

Lemma natQ_nonneg n : (0 <= natQ n)%Q.
Proof.
  unfold natQ. change 0%Q with (inject_Z 0). rewrite <- Zle_Qle. lia.
Qed.

Lemma natQ_pos n : (0 < n)%nat -> (0 < natQ n)%Q.
Proof.
  intros H. unfold natQ. change 0%Q with (inject_Z 0). rewrite <- Zlt_Qlt. lia.
Qed.

Lemma natQ_le n m : (n <= m)%nat -> (natQ n <= natQ m)%Q.
Proof. intros H. unfold natQ. rewrite <- Zle_Qle. lia. Qed.

Lemma recordTrades_snoc ts trade st :
  recordTrades (ts ++ [trade]) st = recordTrade trade (recordTrades ts st).
Proof. unfold recordTrades. rewrite fold_left_app. reflexivity. Qed.

Lemma recordTrades_fields ts : forall st,
  trades (recordTrades ts st) = trades st ++ ts /\
  executedTrades (metrics (recordTrades ts st)) =
    (executedTrades (metrics st) + length ts)%nat /\
  totalSignals (metrics (recordTrades ts st)) = totalSignals (metrics st) /\
  name (recordTrades ts st) = name st /\ isActive (recordTrades ts st) = isActive st.
Proof.
  induction ts as [|trade ts IH]; intros st.
  - simpl. rewrite app_nil_r. repeat split; lia.
  - change (recordTrades (trade :: ts) st) with (recordTrades ts (recordTrade trade st)).
    destruct (IH (recordTrade trade st)) as (H1 & H2 & H3 & H4 & H5).
    rewrite H1, H2, H3, H4, H5. simpl. rewrite <- app_assoc.
    repeat split; simpl; lia.
Qed.

Lemma fold_pnl_shift (ts : list Trade) : forall a,
  (fold_left (fun sum trade => sum + pnlOrZero trade) ts a ==
   a + fold_left (fun sum trade => sum + pnlOrZero trade) ts 0)%Q.
Proof.
  induction ts as [|t ts IH]; intros a; simpl; [ring|].
  rewrite IH, (IH (0 + pnlOrZero t)%Q). ring.
Qed.

(** X18. Trade metrics.  After any trades recorded on a strategy that starts
    with no trades (new, or after [resetMetrics]), [executedTrades] is the
    number of trades, [successRate] is 100 times the share of trades with a
    positive [pnl] and lies between 0 and 100, and the average P&L times the
    number of trades is the sum of the P&Ls (a missing [pnl] counting 0). *)
Theorem trade_metrics_track_trades (st : t) (ts : list Trade) :
  trades st = [] -> executedTrades (metrics st) = 0%nat ->
  let st' := recordTrades ts st in
  trades st' = ts /\
  executedTrades (metrics st') = length ts /\
  (ts <> [] ->
   (successRate (metrics st') ==
    natQ (length (List.filter profitable ts)) / natQ (length ts) * 100)%Q /\
   (0 <= successRate (metrics st') <= 100)%Q /\
   (Forall (fun trade => profitable trade = true) ts ->
    (successRate (metrics st') == 100)%Q)) /\
  (calculateAveragePnL st' * natQ (length ts) ==
   fold_right Qplus 0 (pnlOrZero <$> ts))%Q /\
  trades (resetMetrics st') = [] /\
  executedTrades (metrics (resetMetrics st')) = 0%nat.
Proof.
  intros Ht He st'. subst st'.
  destruct (recordTrades_fields ts st) as (H1 & H2 & _).
  rewrite Ht in H1. rewrite He in H2. simpl in H1, H2.
  split; [exact H1|]. split; [exact H2|]. split; [|split; [|split; reflexivity]].
  - intros Hne.
    destruct (exists_last Hne) as (ts0 & trade & ->).
    rewrite recordTrades_snoc.
    destruct (recordTrades_fields ts0 st) as (G1 & _).
    rewrite Ht in G1. simpl in G1.
    assert (Hrate : successRate (metrics (recordTrade trade (recordTrades ts0 st))) =
              (natQ (length (List.filter profitable (ts0 ++ [trade])))
               / natQ (length (ts0 ++ [trade])) * 100)%Q).
    { unfold recordTrade. cbn [metrics successRate]. rewrite G1.
      rewrite length_app. simpl. replace (0 <? length ts0 + 1)%nat with true; [reflexivity|].
      symmetry. apply Nat.ltb_lt. lia. }
    rewrite Hrate.
    set (n := length (ts0 ++ [trade])). set (w := length (List.filter profitable (ts0 ++ [trade]))).
    assert (Hn : (0 < n)%nat) by (subst n; rewrite length_app; simpl; lia).
    assert (Hw : (w <= n)%nat).
    { subst w n. generalize (ts0 ++ [trade]). intros l.
      induction l as [|x l IH]; simpl; [lia|]. destruct (profitable x); simpl; lia. }
    pose proof (natQ_pos n Hn) as Hnq. pose proof (natQ_nonneg w) as Hwq.
    pose proof (natQ_le w n Hw) as Hle.
    split; [reflexivity|]. split.
    + assert (H0 : (0 <= natQ w / natQ n)%Q) by (apply Qle_shift_div_l; lra).
      assert (H1' : (natQ w / natQ n <= 1)%Q) by (apply Qle_shift_div_r; lra).
      split; lra.
    + intros Hall. assert (Hwn : w = n).
      { subst w n. revert Hall. generalize (ts0 ++ [trade]). intros l Hall.
        induction Hall as [|x l Hx _ IH]; [reflexivity|]. simpl. rewrite Hx. simpl. lia. }
      rewrite Hwn. field. lra.
  - unfold calculateAveragePnL. rewrite H1.
    destruct ts as [|t0 ts']; [simpl; ring|].
    replace (length (t0 :: ts') =? 0)%nat with false by reflexivity.
    assert (Hn : (0 < natQ (length (t0 :: ts')))%Q) by (apply natQ_pos; simpl; lia).
    assert (Hsum : forall l : list Trade,
              (fold_left (fun sum trade => sum + pnlOrZero trade) l 0 ==
               fold_right Qplus 0 (pnlOrZero <$> l))%Q).
    { induction l as [|x l IH]; [reflexivity|]. simpl fold_left.
      rewrite fold_pnl_shift, IH. rewrite fmap_cons. simpl. ring. }
    rewrite <- Hsum. field. lra.
Qed.

(** Three trades, two of them with a profit. *)
Lemma trade_metrics_witness :
  let st := constructor "Momentum" in
  let ts := [ {| side := "sell"; pnl := Some 2%Q |};
              {| side := "sell"; pnl := Some (- (1))%Q |};
              {| side := "sell"; pnl := Some 3%Q |} ] in
  trades st = [] /\ executedTrades (metrics st) = 0%nat /\ ts <> [] /\
  executedTrades (metrics (recordTrades ts st)) = 3%nat /\
  (0 <= successRate (metrics (recordTrades ts st)) <= 100)%Q /\
  (successRate (metrics (recordTrades ts st)) == 200 # 3)%Q.
Proof.
  cbv zeta.
  pose proof (trade_metrics_track_trades (constructor "Momentum")
                [ {| side := "sell"; pnl := Some 2%Q |};
                  {| side := "sell"; pnl := Some (- (1))%Q |};
                  {| side := "sell"; pnl := Some 3%Q |} ] eq_refl eq_refl) as T.
  cbv zeta in T. destruct T as (_ & T1 & T2 & _).
  assert (Hne : [ {| side := "sell"; pnl := Some 2%Q |};
                  {| side := "sell"; pnl := Some (- (1))%Q |};
                  {| side := "sell"; pnl := Some 3%Q |} ] <> []) by discriminate.
  destruct (T2 Hne) as (_ & T3 & _).
  split; [reflexivity|]. split; [reflexivity|]. split; [exact Hne|].
  split; [exact T1|]. split; [exact T3|]. vm_compute. reflexivity.
Defined.

End BaseStrategyFacts.

(** ** StrategyManager: one active strategy, trend, automatic selection *)

Module StrategySelectionFacts.
Import StrategyManager StrategySelection.

Lemma exclusive_setLastSwitch l st : exclusive st -> exclusive (setLastSwitch l st).
Proof. intros H. exact H. Qed.

Lemma selectStrategy_exclusive now n r st :
  exclusive st -> exclusive (selectStrategy now n r st).1.2.
Proof.
  intros [Hg Hm]. unfold selectStrategy.
  destruct (inCooldown now st); [split; assumption|].
  destruct (lookupStrategy n) as [key| |]; [| |split; assumption];
    destruct (currentStrategy st) as [|k|] eqn:Ec; try (split; assumption);
    try destruct key; try destruct k; unfold exclusive; simpl;
    rewrite ?Ec; split; split; intros H; try discriminate; try reflexivity;
    try (apply Hg in H; discriminate); try (apply Hm in H; discriminate).
Qed.

Lemma forceSwitch_exclusive now n r st :
  exclusive st -> exclusive (forceSwitch now n r st).1.2.
Proof.
  intros H. unfold forceSwitch.
  pose proof (selectStrategy_exclusive now n (Some r) (setLastSwitch None st)
                (exclusive_setLastSwitch None st H)) as Hs.
  destruct (selectStrategy now n (Some r) (setLastSwitch None st)) as [[o s] e].
  destruct o as [[|]|]; exact Hs.
Qed.

Lemma exec_exclusive op st : exclusive st -> exclusive (exec op st).
Proof.
  intros H. destruct op as [now n r|now n r|now md|now|]; simpl.
  - apply selectStrategy_exclusive, H.
  - apply forceSwitch_exclusive, H.
  - unfold autoSelectStrategy. destruct (needsSelection _ st); [|exact H].
    pose proof (selectStrategy_exclusive now (selectedStrategy md)
                  (Some "market_conditions") st H) as Hs.
    destruct (selectStrategy _ _ _ st) as [[o s] e]. exact Hs.
  - unfold initialize. destruct (String.eqb _ "auto"); [exact H|].
    pose proof (selectStrategy_exclusive now (defaultStrategy st) (Some "default") st H) as Hs.
    destruct (selectStrategy _ _ _ st) as [[o s] e]. exact Hs.
  - split; split; discriminate.
Qed.

(** X19. At most one strategy is active, and it is the current one: after
    any sequence of [selectStrategy], [forceSwitch], [autoSelectStrategy],
    [initialize] and [reset] calls on a new manager, a strategy's [isActive]
    flag is set exactly when it is [currentStrategy], so the two flags are
    never set together. *)
Theorem one_active_strategy (defaultMode : string) (ops : list Op) :
  let st := run ops (constructor defaultMode) in
  exclusive st /\
  gridIsActive st && momentumIsActive st = false /\
  (currentStrategy st = CurNull -> gridIsActive st = false /\ momentumIsActive st = false).
Proof.
  intros st.
  assert (Hex : exclusive st).
  { subst st. unfold run.
    assert (H0 : exclusive (constructor defaultMode)) by (split; split; discriminate).
    revert H0. generalize (constructor defaultMode).
    induction ops as [|op ops IH]; intros s H0; [exact H0|].
    simpl. apply IH, exec_exclusive, H0. }
  split; [exact Hex|]. destruct Hex as [Hg Hm]. split.
  - destruct (gridIsActive st) eqn:Eg; [|reflexivity].
    destruct (momentumIsActive st) eqn:Em; [|reflexivity].
    pose proof (proj1 Hg eq_refl) as H1. pose proof (proj1 Hm eq_refl) as H2.
    congruence.
  - intros Hc. split.
    + destruct (gridIsActive st); [|reflexivity].
      pose proof (proj1 Hg eq_refl). congruence.
    + destruct (momentumIsActive st); [|reflexivity].
      pose proof (proj1 Hm eq_refl). congruence.
Qed.

(** Grid selected, then a forced switch to momentum: only momentum is
    active. *)
Lemma one_active_strategy_witness :
  let st := run [OpSelect 1000 "grid" None; OpForce 2000 "momentum" "manual"]
              (constructor "auto") in
  currentStrategy st = CurStrategy Momentum /\
  momentumIsActive st = true /\
  gridIsActive st && momentumIsActive st = false.
Proof.
  cbv zeta. split; [vm_compute; reflexivity|]. split; [vm_compute; reflexivity|].
  pose proof (one_active_strategy "auto"
                [OpSelect 1000 "grid" None; OpForce 2000 "momentum" "manual"]) as T.
  cbv zeta in T. destruct T as (_ & T & _). exact T.
Defined.

(** X20. [reset] clears the cooldown and the current strategy: whatever came
    before and whatever the clock reads, the next [selectStrategy] with
    ['grid'] or ['momentum'] succeeds and leaves exactly that strategy
    active. *)
Theorem reset_allows_immediate_selection
    (st : t) (now : Z) (strategyName : string) (reason : option string)
    (key : StrategyKey) :
  lookupStrategy strategyName = Own key ->
  let r := selectStrategy now strategyName reason (reset st) in
  r.1.1 = Returned true /\
  currentStrategy r.1.2 = CurStrategy key /\
  lastSwitch r.1.2 = Some now /\
  gridIsActive r.1.2 = (if key is Grid then true else false) /\
  momentumIsActive r.1.2 = (if key is Momentum then true else false) /\
  r.2 = [Activated key; StrategySelected strategyName reason].
Proof.
  intros Hk r. subst r. unfold selectStrategy, reset. simpl. rewrite Hk.
  destruct key; repeat split.
Qed.

Lemma reset_allows_immediate_selection_witness :
  let st := (selectStrategy 1000 "grid" None (constructor "auto")).1.2 in
  lookupStrategy "momentum" = Own Momentum /\
  (selectStrategy 2000 "momentum" None st).1.1 = Returned false /\
  (selectStrategy 2000 "momentum" None (reset st)).1.1 = Returned true.
Proof.
  cbv zeta. split; [reflexivity|]. split; [reflexivity|].
  apply (reset_allows_immediate_selection _ 2000 "momentum" None Momentum eq_refl).
Defined.

(** *** Averages *)

Lemma natQ_S n : (BaseStrategy.natQ (S n) == BaseStrategy.natQ n + 1)%Q.
Proof.
  unfold BaseStrategy.natQ. rewrite Nat2Z.inj_succ, <- Z.add_1_r, inject_Z_plus.
  reflexivity.
Qed.

Lemma sum_shift (l : list Q) : forall a, (fold_left Qplus l a == a + sum l)%Q.
Proof.
  unfold sum. induction l as [|x l IH]; intros a; simpl; [ring|].
  rewrite IH, (IH (0 + x)%Q). ring.
Qed.

Lemma sum_cons x l : (sum (x :: l) == x + sum l)%Q.
Proof. unfold sum at 1. simpl. rewrite sum_shift. ring. Qed.

Lemma sum_bounds (l : list Q) a b :
  (forall x, x ∈ l -> (a <= x <= b)%Q) ->
  (BaseStrategy.natQ (length l) * a <= sum l <= BaseStrategy.natQ (length l) * b)%Q.
Proof.
  induction l as [|x l IH]; intros H.
  - unfold sum. simpl. split; vm_compute; discriminate.
  - rewrite sum_cons. simpl length. rewrite natQ_S.
    destruct (H x (list_elem_of_here _ _)) as [Hx1 Hx2].
    destruct IH as [I1 I2]; [intros y Hy; apply H, list_elem_of_further, Hy|].
    split; nra.
Qed.

Lemma sum_above (l : list Q) a :
  l <> [] -> (forall x, x ∈ l -> (a < x)%Q) ->
  (BaseStrategy.natQ (length l) * a < sum l)%Q.
Proof.
  induction l as [|x l IH]; intros Hne H; [contradiction|].
  rewrite sum_cons. simpl length. rewrite natQ_S.
  pose proof (H x (list_elem_of_here _ _)) as Hx.
  destruct l as [|y l'].
  - unfold sum. simpl. change (BaseStrategy.natQ 0) with 0%Q. lra.
  - assert (I : (BaseStrategy.natQ (length (y :: l')) * a < sum (y :: l'))%Q).
    { apply IH; [discriminate|]. intros z Hz. apply H, list_elem_of_further, Hz. }
    nra.
Qed.

Lemma sum_below (l : list Q) b :
  l <> [] -> (forall x, x ∈ l -> (x < b)%Q) ->
  (sum l < BaseStrategy.natQ (length l) * b)%Q.
Proof.
  induction l as [|x l IH]; intros Hne H; [contradiction|].
  rewrite sum_cons. simpl length. rewrite natQ_S.
  pose proof (H x (list_elem_of_here _ _)) as Hx.
  destruct l as [|y l'].
  - unfold sum. simpl. change (BaseStrategy.natQ 0) with 0%Q. lra.
  - assert (I : (sum (y :: l') < BaseStrategy.natQ (length (y :: l')) * b)%Q).
    { apply IH; [discriminate|]. intros z Hz. apply H, list_elem_of_further, Hz. }
    nra.
Qed.

Lemma average_bounds (l : list Q) a b :
  l <> [] -> (forall x, x ∈ l -> (a <= x <= b)%Q) -> (a <= average l <= b)%Q.
Proof.
  intros Hne H. destruct (sum_bounds l a b H) as [H1 H2].
  assert (Hn : (0 < BaseStrategy.natQ (length l))%Q).
  { apply BaseStrategyFacts.natQ_pos. destruct l; [contradiction|simpl; lia]. }
  unfold average. split.
  - apply Qle_shift_div_l; [exact Hn|]. lra.
  - apply Qle_shift_div_r; [exact Hn|]. lra.
Qed.

Lemma average_above_le (l : list Q) a :
  l <> [] -> (forall x, x ∈ l -> (a <= x)%Q) -> (a <= average l)%Q.
Proof.
  intros Hne H.
  assert (Hn : (0 < BaseStrategy.natQ (length l))%Q).
  { apply BaseStrategyFacts.natQ_pos. destruct l; [contradiction|simpl; lia]. }
  assert (H1 : (BaseStrategy.natQ (length l) * a <= sum l)%Q).
  { clear Hne Hn. induction l as [|x l IH].
    - unfold sum. simpl. change (BaseStrategy.natQ 0) with 0%Q. lra.
    - rewrite sum_cons. simpl length. rewrite natQ_S.
      pose proof (H x (list_elem_of_here _ _)).
      assert (BaseStrategy.natQ (length l) * a <= sum l)%Q
        by (apply IH; intros y Hy; apply H, list_elem_of_further, Hy).
      nra. }
  unfold average. apply Qle_shift_div_l; [exact Hn|]. lra.
Qed.

Lemma average_above (l : list Q) a :
  l <> [] -> (forall x, x ∈ l -> (a < x)%Q) -> (a < average l)%Q.
Proof.
  intros Hne H. pose proof (sum_above l a Hne H) as H1.
  assert (Hn : (0 < BaseStrategy.natQ (length l))%Q).
  { apply BaseStrategyFacts.natQ_pos. destruct l; [contradiction|simpl; lia]. }
  unfold average. apply Qlt_shift_div_l; [exact Hn|]. lra.
Qed.

Lemma average_below (l : list Q) b :
  l <> [] -> (forall x, x ∈ l -> (x < b)%Q) -> (average l < b)%Q.
Proof.
  intros Hne H. pose proof (sum_below l b Hne H) as H1.
  assert (Hn : (0 < BaseStrategy.natQ (length l))%Q).
  { apply BaseStrategyFacts.natQ_pos. destruct l; [contradiction|simpl; lia]. }
  unfold average. apply Qlt_shift_div_r; [exact Hn|]. lra.
Qed.

(** *** [detectTrend] *)

Lemma recent_length h : (10 < length h)%nat -> length (recent h) = 10%nat.
Proof. intros H. unfold recent. rewrite length_drop. lia. Qed.

Lemma older_length h : (10 < length h)%nat -> (0 < length (older h))%nat.
Proof.
  intros H. unfold older. rewrite length_take, length_drop. lia.
Qed.

Lemma recent_subset h x : x ∈ recent h -> x ∈ h.
Proof. unfold recent. intros H. apply (subseteq_drop _ _ _ H). Qed.

Lemma older_subset h x : x ∈ older h -> x ∈ h.
Proof.
  unfold older. intros H. apply elem_of_take in H as (i & Hi & _).
  rewrite lookup_drop in Hi. apply list_elem_of_lookup. eauto.
Qed.

Lemma detectTrend_long h :
  (10 < length h)%nat ->
  detectTrend h =
  let diff := ((average (recent h) - average (older h)) / average (older h))%Q in
  if Qltb (5 # 100) diff then "uptrend"
  else if Qltb diff (- (5 # 100)) then "downtrend" else "sideways".
Proof.
  intros H. unfold detectTrend.
  replace (length h <? 10)%nat with false by (symmetry; apply Nat.ltb_ge; lia).
  pose proof (older_length h H) as Ho.
  replace (length (older h) =? 0)%nat with false
    by (symmetry; apply Nat.eqb_neq; lia).
  reflexivity.
Qed.

Lemma nonempty_of_length {A} (l : list A) : (0 < length l)%nat -> l <> [].
Proof. destruct l; simpl; [lia|discriminate]. Qed.

Lemma detectTrend_short (h : list Q) :
  (length h <= 10)%nat -> detectTrend h = "insufficient_data".
Proof.
  intros Hlen. unfold detectTrend.
  destruct (length h <? 10)%nat eqn:E; [reflexivity|].
  apply Nat.ltb_ge in E. assert (Hl : length h = 10%nat) by lia.
  unfold older. rewrite Hl. simpl. reflexivity.
Qed.

(** X21. [detectTrend].  A history of at most 10 prices is
    ['insufficient_data'] (10 prices pass the length test but leave no older
    window).  With more than 10 prices and a level [m > 0]: if the older
    window lies in (0, m] and every recent price is above 1.05 m the trend is
    ['uptrend']; if the older window lies at or above m and every recent
    price is below 0.95 m it is ['downtrend']; if all prices lie between m
    and 1.05 m it is ['sideways']. *)
Theorem detectTrend_thresholds (h : list Q) :
  ((length h <= 10)%nat -> detectTrend h = "insufficient_data") /\
  ((10 < length h)%nat -> forall m, (0 < m)%Q ->
     ((forall o, o ∈ older h -> (0 < o <= m)%Q) ->
      (forall r, r ∈ recent h -> ((105 # 100) * m < r)%Q) ->
      detectTrend h = "uptrend") /\
     ((forall o, o ∈ older h -> (m <= o)%Q) ->
      (forall r, r ∈ recent h -> (r < (95 # 100) * m)%Q) ->
      detectTrend h = "downtrend") /\
     (forall hi, (forall p, p ∈ h -> (m <= p <= hi)%Q) ->
      (hi <= (105 # 100) * m)%Q ->
      detectTrend h = "sideways")).
Proof.
  split.
  - apply detectTrend_short.
  - intros Hlen m Hm.
    pose proof (nonempty_of_length _ (older_length h Hlen)) as Ho.
    assert (Hr : recent h <> []).
    { apply nonempty_of_length. rewrite recent_length by exact Hlen. lia. }
    rewrite (detectTrend_long h Hlen). cbv zeta.
    set (aR := average (recent h)). set (aO := average (older h)).
    split; [|split].
    + intros Hold Hrec.
      assert (HaO : (0 < aO <= m)%Q).
      { split.
        - apply average_above; [exact Ho|]. intros o Hin. apply Hold, Hin.
        - apply (average_bounds (older h) 0 m Ho).
          intros o Hin. destruct (Hold o Hin). split; lra. }
      assert (HaR : ((105 # 100) * m < aR)%Q) by (apply average_above; assumption).
      assert (Hd : (5 # 100 < (aR - aO) / aO)%Q).
      { apply Qlt_shift_div_l; [lra|]. lra. }
      apply Qltb_lt in Hd. rewrite Hd. reflexivity.
    + intros Hold Hrec.
      assert (HaO : (m <= aO)%Q).
      { apply average_above_le; assumption. }
      assert (HaR : (aR < (95 # 100) * m)%Q) by (apply average_below; assumption).
      assert (Hd : ((aR - aO) / aO < - (5 # 100))%Q).
      { apply Qlt_shift_div_r; [lra|]. lra. }
      assert (Hnot : Qltb (5 # 100) ((aR - aO) / aO) = false).
      { apply Qltb_ge. lra. }
      apply Qltb_lt in Hd. rewrite Hnot, Hd. reflexivity.
    + intros hi Hall Hhi.
      assert (HaO : (m <= aO <= hi)%Q).
      { apply average_bounds; [exact Ho|]. intros o Hin. apply Hall, older_subset, Hin. }
      assert (HaR : (m <= aR <= hi)%Q).
      { apply average_bounds; [exact Hr|]. intros r Hin. apply Hall, recent_subset, Hin. }
      assert (H1 : Qltb (5 # 100) ((aR - aO) / aO) = false).
      { apply Qltb_ge. apply Qle_shift_div_r; [lra|]. lra. }
      assert (H2 : Qltb ((aR - aO) / aO) (- (5 # 100)) = false).
      { apply Qltb_ge. apply Qle_shift_div_l; [lra|]. lra. }
      rewrite H1, H2. reflexivity.
Qed.

(** Ten prices at 100 then ten at 110 are an uptrend. *)
Lemma detectTrend_thresholds_witness :
  (10 < length SelectionSamples.rising)%nat /\ (0 < 100)%Q /\
  (forall o, o ∈ older SelectionSamples.rising -> (0 < o <= 100)%Q) /\
  (forall r, r ∈ recent SelectionSamples.rising -> ((105 # 100) * 100 < r)%Q) /\
  detectTrend SelectionSamples.rising = "uptrend".
Proof.
  assert (Hlen : (10 < length SelectionSamples.rising)%nat) by (vm_compute; lia).
  assert (Hm : (0 < 100)%Q) by reflexivity.
  assert (Ho : forall o, o ∈ older SelectionSamples.rising -> (0 < o <= 100)%Q).
  { apply Forall_forall. vm_compute.
    repeat constructor; discriminate. }
  assert (Hr : forall r, r ∈ recent SelectionSamples.rising -> ((105 # 100) * 100 < r)%Q).
  { apply Forall_forall. vm_compute. repeat constructor. }
  split; [exact Hlen|]. split; [exact Hm|]. split; [exact Ho|]. split; [exact Hr|].
  destruct (detectTrend_thresholds SelectionSamples.rising) as [_ T].
  destruct (T Hlen 100%Q Hm) as (T1 & _). exact (T1 Ho Hr).
Defined.

(** X22. Automatic selection re-selects the grid strategy on every call.
    The grid strategy is named ['Grid Trading'] while the comparison is
    against ['Grid'], so when grid is current, the market selects grid and no
    cooldown runs, [autoSelectStrategy] selects grid again: it re-activates
    it, emits the selection events and restarts the cooldown at the current
    time.  With momentum current and selected, nothing happens; and during a
    cooldown nothing changes whatever the market selects. *)
Theorem autoSelect_reselects_grid (now : Z) (marketData : MarketInput) (st : t) :
  (currentStrategy st = CurStrategy Grid ->
   selectedStrategy marketData = "grid" ->
   inCooldown now st = false ->
   let r := autoSelectStrategy now marketData st in
   r.1.1 = Fulfilled /\
   r.2 = [Activated Grid; StrategySelected "grid" (Some "market_conditions")] /\
   currentStrategy r.1.2 = CurStrategy Grid /\ gridIsActive r.1.2 = true /\
   lastSwitch r.1.2 = Some now) /\
  (currentStrategy st = CurStrategy Momentum ->
   selectedStrategy marketData = "momentum" ->
   autoSelectStrategy now marketData st = (Fulfilled, st, [])) /\
  (inCooldown now st = true ->
   autoSelectStrategy now marketData st = (Fulfilled, st, [])).
Proof.
  split; [|split].
  - intros Hc Hs Hcool r. subst r. unfold autoSelectStrategy, needsSelection.
    rewrite Hs, Hc. simpl String.eqb. cbn [negb].
    unfold selectStrategy. rewrite Hcool, Hc. simpl. repeat split.
  - intros Hc Hs. unfold autoSelectStrategy, needsSelection. rewrite Hs, Hc.
    reflexivity.
  - intros Hcool. unfold autoSelectStrategy.
    destruct (needsSelection _ st); [|reflexivity].
    unfold selectStrategy. rewrite Hcool. reflexivity.
Qed.

(** Grid selected at 1000; the calm market at 400000 selects it again and
    moves [lastSwitch]. *)
Lemma autoSelect_reselects_grid_witness :
  let st := (selectStrategy 1000 "grid" None (constructor "auto")).1.2 in
  currentStrategy st = CurStrategy Grid /\
  selectedStrategy SelectionSamples.calm_market = "grid" /\
  inCooldown 400000 st = false /\
  lastSwitch st = Some 1000%Z /\
  lastSwitch (autoSelectStrategy 400000 SelectionSamples.calm_market st).1.2
  = Some 400000%Z.
Proof.
  cbv zeta.
  assert (Hs : selectedStrategy SelectionSamples.calm_market = "grid")
    by (vm_compute; reflexivity).
  destruct (autoSelect_reselects_grid 400000 SelectionSamples.calm_market
              (selectStrategy 1000 "grid" None (constructor "auto")).1.2) as (T & _).
  specialize (T eq_refl Hs eq_refl). cbv zeta in T.
  destruct T as (_ & _ & _ & _ & T).
  split; [reflexivity|]. split; [exact Hs|]. split; [reflexivity|].
  split; [reflexivity|exact T].
Defined.

Lemma volumeRatio_cases (md : MarketInput) vol :
  volume md = Some vol ->
  (forall a, avgVolume md = Some a -> ~ (a == 0)%Q ->
     volumeRatio md = Some (vol / a)%Q) /\
  ((avgVolume md = None \/ exists a, avgVolume md = Some a /\ (a == 0)%Q) ->
   volumeRatio md = if Qeq_bool vol 0 then None else Some (vol / vol)%Q).
Proof.
  intros Hv. unfold volumeRatio. rewrite Hv. split.
  - intros a Ha Hne. rewrite Ha. unfold truthyQ.
    destruct (Qeq_bool a 0) eqn:E; [apply Qeq_bool_iff in E; contradiction|].
    simpl. rewrite E. reflexivity.
  - intros [Ha|(a & Ha & Hz)]; rewrite Ha; [reflexivity|].
    unfold truthyQ. apply Qeq_bool_iff in Hz. rewrite Hz. reflexivity.
Qed.

(** X23. What the market selects.  Momentum is selected when the volatility
    is above 0.15, the volume is above 1.5 times a positive average volume,
    and the trend is not ['sideways']; a missing price history, or one of at
    most 10 prices, counts as a trend.  Grid is selected whenever the
    volatility is absent or at most 0.15, whenever the trend is
    ['sideways'], and whenever the average volume is absent or zero (the
    volume is then compared with itself). *)
Theorem selectedStrategy_rule (marketData : MarketInput) :
  (forall v vol a,
     volatility marketData = Some v -> (15 # 100 < v)%Q ->
     volume marketData = Some vol -> avgVolume marketData = Some a ->
     (0 < a)%Q -> ((15 # 10) * a < vol)%Q ->
     (priceHistory marketData = None \/
      exists h, priceHistory marketData = Some h /\
                ((length h <= 10)%nat \/ detectTrend h <> "sideways")) ->
     selectedStrategy marketData = "momentum") /\
  ((volatility marketData = None \/
    exists v, volatility marketData = Some v /\ (v <= 15 # 100)%Q) ->
   selectedStrategy marketData = "grid") /\
  (forall h, priceHistory marketData = Some h -> detectTrend h = "sideways" ->
     selectedStrategy marketData = "grid") /\
  ((avgVolume marketData = None \/
    exists a, avgVolume marketData = Some a /\ (a == 0)%Q) ->
   selectedStrategy marketData = "grid").
Proof.
  split; [|split; [|split]].
  - intros v vol a Hv Hvgt Hvol Havg Ha Hratio Hhist.
    unfold selectedStrategy. rewrite Hv.
    assert (Htv : truthyQ v = true).
    { unfold truthyQ. destruct (Qeq_bool v 0) eqn:E; [|reflexivity].
      apply Qeq_bool_iff in E. lra. }
    rewrite Htv. apply Qltb_lt in Hvgt. rewrite Hvgt.
    destruct (volumeRatio_cases marketData vol Hvol) as [Hr _].
    rewrite (Hr a Havg) by lra.
    assert (Hq : Qltb (15 # 10) (vol / a) = true).
    { apply Qltb_lt. apply Qlt_shift_div_l; lra. }
    rewrite Hq. cbn [andb].
    assert (Ht : String.eqb (detectTrend (default [] (priceHistory marketData)))
                   "sideways" = false).
    { destruct Hhist as [Hn|(h & Hh & [Hlen|Hns])].
      - rewrite Hn. reflexivity.
      - rewrite Hh. simpl default.
        rewrite (detectTrend_short h Hlen). reflexivity.
      - rewrite Hh. simpl default. apply String.eqb_neq, Hns. }
    rewrite Ht. reflexivity.
  - intros Hvol. unfold selectedStrategy.
    assert (Hq : Qltb (15 # 100)
              match volatility marketData with
              | Some v => if truthyQ v then v else 0%Q
              | None => 0%Q
              end = false).
    { destruct Hvol as [Hn|(v & Hv & Hle)]; [rewrite Hn; reflexivity|].
      rewrite Hv. apply Qltb_ge. destruct (truthyQ v); [exact Hle|]. discriminate. }
    rewrite Hq. reflexivity.
  - intros h Hh Hs. unfold selectedStrategy. rewrite Hh. simpl default. rewrite Hs.
    simpl String.eqb. cbn [negb]. rewrite andb_false_r. reflexivity.
  - intros Havg. unfold selectedStrategy.
    assert (Hq : match volumeRatio marketData with
                 | Some r => Qltb (15 # 10) r
                 | None => false
                 end = false).
    { destruct (volume marketData) as [vol|] eqn:Hvol.
      - destruct (volumeRatio_cases marketData vol Hvol) as [_ Hr].
        rewrite (Hr Havg). destruct (Qeq_bool vol 0) eqn:E; [reflexivity|].
        apply Qltb_ge.
        assert (Hne : ~ (vol == 0)%Q).
        { intros H. apply Qeq_bool_iff in H. congruence. }
        assert (Hone : (vol / vol == 1)%Q) by (field; exact Hne).
        rewrite Hone. discriminate.
      - unfold volumeRatio. rewrite Hvol. reflexivity. }
    rewrite Hq, andb_false_r. reflexivity.
Qed.

(** High volatility and twice the average volume without any price history
    select momentum. *)
Lemma selectedStrategy_rule_witness :
  volatility SelectionSamples.hot_market = Some (20 # 100) /\
  (15 # 100 < 20 # 100)%Q /\ (0 < 1000)%Q /\ ((15 # 10) * 1000 < 2000)%Q /\
  priceHistory SelectionSamples.hot_market = None /\
  selectedStrategy SelectionSamples.hot_market = "momentum".
Proof.
  destruct (selectedStrategy_rule SelectionSamples.hot_market) as (T & _).
  assert (H1 : (15 # 100 < 20 # 100)%Q) by reflexivity.
  assert (H2 : (0 < 1000)%Q) by reflexivity.
  assert (H3 : ((15 # 10) * 1000 < 2000)%Q) by reflexivity.
  split; [reflexivity|]. split; [exact H1|]. split; [exact H2|]. split; [exact H3|].
  split; [reflexivity|].
  exact (T _ _ _ eq_refl H1 eq_refl eq_refl H2 H3 (or_introl eq_refl)).
Defined.

End StrategySelectionFacts.

(** ** GridTradingStrategy *)

Module GridTradingFacts.
Import GridTrading.

Lemma natQ_pred n : (1 <= n)%nat ->
  (BaseStrategy.natQ (n - 1) == BaseStrategy.natQ n - 1)%Q.
Proof.
  intros H. unfold BaseStrategy.natQ.
  rewrite Nat2Z.inj_sub by exact H. unfold Zminus.
  rewrite inject_Z_plus, inject_Z_opp. reflexivity.
Qed.

Lemma natQ_lt n m : (n < m)%nat -> (BaseStrategy.natQ n < BaseStrategy.natQ m)%Q.
Proof. intros H. unfold BaseStrategy.natQ. rewrite <- Zlt_Qlt. lia. Qed.

Lemma calculateGridLevels_lookup config base i :
  (i < numLevels config)%nat ->
  calculateGridLevels config base !! i = Some (levelAt config base i).
Proof.
  intros H. unfold calculateGridLevels.
  change (map ?f ?l) with (f <$> l).
  rewrite list_lookup_fmap, lookup_seq_lt by exact H. reflexivity.
Qed.

Lemma calculateGridLevels_length config base :
  length (calculateGridLevels config base) = numLevels config.
Proof. unfold calculateGridLevels. rewrite length_map, length_seq. reflexivity. Qed.

Lemma step_positive config :
  (2 <= numLevels config)%nat -> (rangeMin config < rangeMax config)%Q ->
  (0 < step config)%Q.
Proof.
  intros Hn Hr. unfold step.
  assert (H1 : (1 < BaseStrategy.natQ (numLevels config))%Q).
  { change 1%Q with (BaseStrategy.natQ 1). apply natQ_lt. lia. }
  apply Qlt_shift_div_l; lra.
Qed.

(** X24. The grid [calculateGridLevels] builds.  With at least two levels it
    has [numLevels] untriggered levels, level [i] carrying index [i]; the
    first price is [base * (1 + rangeMin)] and the last
    [base * (1 + rangeMax)].  For a positive base and [rangeMin < rangeMax]
    the prices increase strictly with the index, and a level is a buy level
    exactly when its price is below the base, a sell level exactly when it is
    above. *)
Theorem calculateGridLevels_structure (config : GridConfig) (base : Q) :
  (2 <= numLevels config)%nat ->
  let levels := calculateGridLevels config base in
  length levels = numLevels config /\
  (forall i l, levels !! i = Some l -> levelIndex l = i /\ isTriggered l = false /\
     amountPercent l = amountPerLevel config) /\
  (exists first last,
     levels !! 0%nat = Some first /\ levels !! (numLevels config - 1)%nat = Some last /\
     (price first == base * (1 + rangeMin config))%Q /\
     (price last == base * (1 + rangeMax config))%Q) /\
  ((0 < base)%Q -> (rangeMin config < rangeMax config)%Q ->
   (forall i j li lj, (i < j)%nat -> levels !! i = Some li -> levels !! j = Some lj ->
      (price li < price lj)%Q) /\
   (forall l, l ∈ levels ->
      (action l = "buy" <-> (price l < base)%Q) /\
      (action l = "sell" <-> (base < price l)%Q) /\
      (action l = "neutral" <-> (price l == base)%Q))).
Proof.
  intros Hn levels. subst levels.
  assert (Hlk : forall i l, calculateGridLevels config base !! i = Some l ->
            (i < numLevels config)%nat /\ l = levelAt config base i).
  { intros i l Hl. assert (Hi : (i < numLevels config)%nat).
    { apply lookup_lt_Some in Hl. rewrite calculateGridLevels_length in Hl. exact Hl. }
    rewrite calculateGridLevels_lookup in Hl by exact Hi. split; congruence. }
  split; [apply calculateGridLevels_length|]. split.
  { intros i l Hl. destruct (Hlk i l Hl) as [_ ->]. repeat split. }
  split.
  { exists (levelAt config base 0), (levelAt config base (numLevels config - 1)).
    split; [apply calculateGridLevels_lookup; lia|].
    split; [apply calculateGridLevels_lookup; lia|].
    unfold levelAt, step. cbn [price].
    assert (H1 : (1 < BaseStrategy.natQ (numLevels config))%Q).
    { change 1%Q with (BaseStrategy.natQ 1). apply natQ_lt. lia. }
    split.
    - change (BaseStrategy.natQ 0) with 0%Q. ring.
    - rewrite natQ_pred by lia. field. lra. }
  intros Hb Hr. pose proof (step_positive config Hn Hr) as Hs. split.
  - intros i j li lj Hij Hi Hj.
    destruct (Hlk i li Hi) as [_ ->]. destruct (Hlk j lj Hj) as [_ ->].
    unfold levelAt. cbn [price]. pose proof (natQ_lt i j Hij) as Hq.
    assert (Hm : (step config * BaseStrategy.natQ i
                  < step config * BaseStrategy.natQ j)%Q) by nra.
    nra.
  - intros l Hl. apply list_elem_of_lookup in Hl as [i Hi].
    destruct (Hlk i l Hi) as [_ ->]. unfold levelAt. cbn [price action].
    set (m := (rangeMin config + step config * BaseStrategy.natQ i)%Q).
    destruct (Qltb m 0) eqn:E1.
    + apply Qltb_lt in E1. repeat split; intros; try discriminate; try reflexivity; nra.
    + apply Qltb_ge in E1. destruct (Qltb 0 m) eqn:E2.
      * apply Qltb_lt in E2. repeat split; intros; try discriminate; try reflexivity; nra.
      * apply Qltb_ge in E2.
        repeat split; intros; try discriminate; try reflexivity; nra.
Qed.

(** Five levels from -5% to +5% around 100: 95, 97.5, 100, 102.5, 105. *)
Lemma calculateGridLevels_structure_witness :
  (2 <= numLevels sample_config)%nat /\ (0 < 100)%Q /\
  (rangeMin sample_config < rangeMax sample_config)%Q /\
  length (calculateGridLevels sample_config 100) = 5%nat /\
  (action <$> calculateGridLevels sample_config 100) =
    ["buy"; "buy"; "neutral"; "sell"; "sell"] /\
  (forall i j li lj, (i < j)%nat ->
     calculateGridLevels sample_config 100 !! i = Some li ->
     calculateGridLevels sample_config 100 !! j = Some lj ->
     (price li < price lj)%Q).
Proof.
  assert (Hn : (2 <= numLevels sample_config)%nat) by (vm_compute; lia).
  assert (Hb : (0 < 100)%Q) by reflexivity.
  assert (Hr : (rangeMin sample_config < rangeMax sample_config)%Q) by reflexivity.
  pose proof (calculateGridLevels_structure sample_config 100 Hn) as T.
  cbv zeta in T. destruct T as (T1 & _ & _ & T2). destruct (T2 Hb Hr) as [T3 _].
  split; [exact Hn|]. split; [exact Hb|]. split; [exact Hr|]. split; [exact T1|].
  split; [vm_compute; reflexivity|exact T3].
Defined.

(** *** findClosestLevel *)

Lemma closer_inv currentPrice done acc x :
  closest_inv currentPrice done acc ->
  closest_inv currentPrice (done ++ [x]) (closer currentPrice acc (length done, x)).
Proof.
  intros H. unfold closer. cbn [fst snd].
  assert (Hx : (done ++ [x]) !! length done = Some x).
  { rewrite lookup_app_r by lia. rewrite Nat.sub_diag. reflexivity. }
  assert (Hcase : forall j lj, (done ++ [x]) !! j = Some lj ->
            done !! j = Some lj \/ (j = length done /\ lj = x)).
  { intros j lj Hj. destruct (decide (j < length done)%nat) as [Hlt|Hge].
    - rewrite lookup_app_l in Hj by exact Hlt. left; exact Hj.
    - right. assert (Hb := lookup_lt_Some _ _ _ Hj).
      rewrite length_app in Hb. cbn in Hb.
      assert (j = length done) by lia. subst j. split; congruence. }
  destruct acc as [[[i l] d]|].
  - destruct H as (Hi & Hd & Hmin & Hfirst).
    destruct (Qltb (Qabs (currentPrice - price x)) d) eqn:E.
    + apply Qltb_lt in E. repeat split; [exact Hx| |].
      * intros j lj Hj. destruct (Hcase j lj Hj) as [Hj'|[-> ->]].
        -- pose proof (Hmin j lj Hj'). lra.
        -- lra.
      * intros j lj Hlt Hj. destruct (Hcase j lj Hj) as [Hj'|[-> _]]; [|lia].
        pose proof (Hmin j lj Hj'). lra.
    + apply Qltb_ge in E. repeat split.
      * apply lookup_app_l_Some. exact Hi.
      * exact Hd.
      * intros j lj Hj. destruct (Hcase j lj Hj) as [Hj'|[-> ->]].
        -- exact (Hmin j lj Hj').
        -- exact E.
      * intros j lj Hlt Hj. destruct (Hcase j lj Hj) as [Hj'|[-> _]].
        -- exact (Hfirst j lj Hlt Hj').
        -- apply lookup_lt_Some in Hi. lia.
  - unfold closest_inv in H. subst done. cbn. repeat split.
    + intros j lj Hj. destruct j; cbn in Hj; [|discriminate].
      injection Hj as <-. lra.
    + intros j lj Hlt. lia.
Qed.

Lemma closest_fold_inv currentPrice ls : forall done acc,
  closest_inv currentPrice done acc ->
  closest_inv currentPrice (done ++ ls)
    (fold_left (closer currentPrice) (combine (seq (length done) (length ls)) ls) acc).
Proof.
  induction ls as [|x ls IH]; intros done acc H.
  - rewrite app_nil_r. exact H.
  - cbn [length seq combine fold_left].
    replace (done ++ x :: ls) with ((done ++ [x]) ++ ls)
      by (rewrite <- app_assoc; reflexivity).
    replace (S (length done)) with (length (done ++ [x]))
      by (rewrite length_app; cbn; lia).
    apply IH. apply closer_inv. exact H.
Qed.

Lemma closest_spec currentPrice levels :
  closest_inv currentPrice levels (closest currentPrice levels).
Proof.
  unfold closest.
  exact (closest_fold_inv currentPrice levels [] None eq_refl).
Qed.

(** X25. [findClosestLevel] on a grid whose level prices are numbers, that
    is with [numLevels] other than 1 (a single level is priced NaN by the
    code).  It returns null exactly when the grid is empty; otherwise it
    returns the level of the grid whose price is nearest to the current
    price, and among equally near levels the first one. *)
Theorem findClosestLevel_nearest_first (currentPrice : Q) (st : t) :
  numLevels (config st) <> 1%nat ->
  (findClosestLevel currentPrice st = None <-> gridLevels st = []) /\
  (forall l, findClosestLevel currentPrice st = Some l ->
     exists i, gridLevels st !! i = Some l /\
       (forall l', l' ∈ gridLevels st ->
          (Qabs (currentPrice - price l) <= Qabs (currentPrice - price l'))%Q) /\
       (forall j lj, (j < i)%nat -> gridLevels st !! j = Some lj ->
          (Qabs (currentPrice - price l) < Qabs (currentPrice - price lj))%Q)).
Proof.
  intros _.
  pose proof (closest_spec currentPrice (gridLevels st)) as H.
  unfold findClosestLevel, closest_inv in *.
  destruct (closest currentPrice (gridLevels st)) as [[[i l] d]|].
  - destruct H as (Hi & Hd & Hmin & Hfirst). subst d. split.
    + split; [discriminate|]. intros E. rewrite E in Hi. discriminate.
    + intros l0 [= <-]. exists i. split; [exact Hi|]. split; [|exact Hfirst].
      intros l' Hl'. apply list_elem_of_lookup in Hl' as [j Hj]. exact (Hmin j l' Hj).
  - split; [tauto|]. intros l0 [=].
Qed.

(** The grid of three levels around 100 has the prices 50, 100 and 150.  At
    125, as far from 100 as from 150, the earlier level 100 is the one found;
    at 126 it is the level 150. *)
Lemma findClosestLevel_nearest_first_witness :
  let st := initialize 0 100 (constructor dyadic_config) in
  numLevels (config st) <> 1%nat /\
  Forall2 Qeq (price <$> gridLevels st) [50; 100; 150]%Q /\
  findClosestLevel 125 st = Some (levelAt dyadic_config 100 1) /\
  findClosestLevel 126 st = Some (levelAt dyadic_config 100 2) /\
  exists i, gridLevels st !! i = Some (levelAt dyadic_config 100 1) /\
    (forall l', l' ∈ gridLevels st ->
       (Qabs (125 - price (levelAt dyadic_config 100 1))
        <= Qabs (125 - price l'))%Q) /\
    (forall j lj, (j < i)%nat -> gridLevels st !! j = Some lj ->
       (Qabs (125 - price (levelAt dyadic_config 100 1))
        < Qabs (125 - price lj))%Q).
Proof.
  intros st.
  assert (Hn : numLevels (config st) <> 1%nat) by (vm_compute; discriminate).
  assert (E : findClosestLevel 125 st = Some (levelAt dyadic_config 100 1))
    by (vm_compute; reflexivity).
  split; [exact Hn|]. split; [vm_compute; repeat constructor|]. split; [exact E|].
  split; [vm_compute; reflexivity|].
  exact (proj2 (findClosestLevel_nearest_first 125 st Hn) _ E).
Defined.

(** *** analyze *)

Lemma closest_fold_same_prices currentPrice ls ls' :
  Forall2 (fun a b => price a = price b) ls ls' ->
  forall k acc acc', same_choice acc acc' ->
  same_choice
    (fold_left (closer currentPrice) (combine (seq k (length ls)) ls) acc)
    (fold_left (closer currentPrice) (combine (seq k (length ls')) ls') acc').
Proof.
  induction 1 as [|x y ls ls' Hxy _ IH]; intros k acc acc' Hacc.
  - exact Hacc.
  - cbn [length seq combine fold_left]. apply IH.
    unfold closer. cbn [fst snd]. rewrite <- Hxy.
    destruct acc as [[[i l] d]|], acc' as [[[i' l'] d']|]; cbn in Hacc; try tauto.
    + destruct Hacc as [-> ->].
      destruct (Qltb (Qabs (currentPrice - price x)) d'); cbn; auto.
    + cbn. auto.
Qed.

Lemma closest_after_trigger currentPrice levels i l d :
  closest currentPrice levels = Some (i, l, d) ->
  closest currentPrice (<[i := markTriggered l]> levels) = Some (i, markTriggered l, d).
Proof.
  intros E.
  pose proof (closest_spec currentPrice levels) as S1. rewrite E in S1.
  destruct S1 as (Hi & _).
  assert (F : Forall2 (fun a b => price a = price b) levels
                (<[i := markTriggered l]> levels)).
  { rewrite <- (list_insert_id levels i l Hi) at 1.
    apply Forall2_insert; [|reflexivity].
    apply Forall2_same_length_lookup_2; [reflexivity|].
    intros j a b Ha Hb. congruence. }
  pose proof (closest_fold_same_prices currentPrice _ _ F 0%nat None None I) as S2.
  fold (closest currentPrice levels) in S2.
  fold (closest currentPrice (<[i := markTriggered l]> levels)) in S2.
  pose proof (closest_spec currentPrice (<[i := markTriggered l]> levels)) as S3.
  rewrite E in S2.
  destruct (closest currentPrice (<[i := markTriggered l]> levels))
    as [[[i' l'] d']|]; [|contradiction].
  destruct S2 as [<- <-]. destruct S3 as (Hi' & _).
  rewrite list_lookup_insert_eq in Hi' by (apply lookup_lt_Some in Hi; exact Hi).
  congruence.
Qed.

Lemma prepare_fields now currentPrice st :
  isActive (prepare now currentPrice st) = isActive st /\
  totalSignals (prepare now currentPrice st) = totalSignals st /\
  config (prepare now currentPrice st) = config st.
Proof.
  unfold prepare, rebalance, initialize.
  repeat match goal with |- context [if ?c then _ else _] => destruct c end;
    cbn; auto.
Qed.

(** After [prepare] either the base price is a non-zero number or the grid
    has just been built around a current price of zero. *)
Lemma prepare_base now currentPrice st :
  hasBase (prepare now currentPrice st) = true \/
  (truthyQ currentPrice = false /\
   gridLevels (prepare now currentPrice st)
   = calculateGridLevels (config st) currentPrice).
Proof.
  unfold prepare. destruct (hasBase st) eqn:Hb.
  - destruct (shouldRebalance now st); [|left; exact Hb].
    unfold rebalance.
    destruct (Qltb _ 5); [left; exact Hb|].
    unfold hasBase. cbn. destruct (truthyQ currentPrice); [left|right]; auto.
  - assert (Hi : hasBase (initialize now currentPrice st) = truthyQ currentPrice)
      by reflexivity.
    destruct (truthyQ currentPrice) eqn:Ht.
    + left. destruct (shouldRebalance now _); [|exact Hi].
      unfold rebalance. destruct (Qltb _ 5); [exact Hi|].
      unfold hasBase. cbn. exact Ht.
    + right. split; [reflexivity|].
      destruct (shouldRebalance now _); [|reflexivity].
      unfold rebalance. destruct (Qltb _ 5); reflexivity.
Qed.

Lemma zero_grid_prices config base l :
  truthyQ base = false -> l ∈ calculateGridLevels config base ->
  truthyQ (price l) = false.
Proof.
  intros Hz Hl. apply negb_false_iff, Qeq_bool_iff in Hz.
  unfold calculateGridLevels in Hl. change (map ?f ?x) with (f <$> x) in Hl.
  apply list_elem_of_fmap in Hl as (i & -> & _).
  apply StrategyFacts.truthyQ_zero. unfold levelAt. cbn [price]. rewrite Hz. ring.
Qed.

(** X26. A grid level gives its signal once.  When [analyze] returns a
    signal, it is the signal of the level nearest to the price, which was
    not yet triggered and lies within 0.5% of the price; the call marks that
    level and counts the signal.  As long as no rebalance is due, a further
    [analyze] at the same price returns null and changes nothing. *)
Theorem analyze_signals_a_level_once (now : Z) (currentPrice : Q) (st : t)
    (sig : Signal) (st' : t) :
  analyze now currentPrice st = (Some sig, st') ->
  (exists i l,
     let st2 := prepare now currentPrice st in
     gridLevels st2 !! i = Some l /\
     findClosestLevel currentPrice st2 = Some l /\
     isTriggered l = false /\
     (Qabs ((currentPrice - price l) / price l) < 5 # 1000)%Q /\
     sig_action sig = action l /\ sig_levelIndex sig = levelIndex l /\
     sig_price sig = currentPrice /\
     gridLevels st' = <[i := markTriggered l]> (gridLevels st2) /\
     totalSignals st' = S (totalSignals st)) /\
  (forall now', shouldRebalance now' st' = false ->
     analyze now' currentPrice st' = (None, st')).
Proof.
  intros H. unfold analyze in H.
  destruct (isActive st) eqn:Hact; cbn [negb] in H; [|discriminate].
  cbv zeta in H.
  destruct (prepare_fields now currentPrice st) as (Pact & Psig & _).
  pose proof (prepare_base now currentPrice st) as Pbase.
  set (st2 := prepare now currentPrice st) in *.
  destruct (closest currentPrice (gridLevels st2)) as [[[i l] d]|] eqn:E;
    [|discriminate].
  pose proof (closest_spec currentPrice (gridLevels st2)) as S1. rewrite E in S1.
  destruct S1 as (Hi & _).
  destruct (truthyQ (price l)) eqn:Ht; cbn [andb] in H; [|discriminate].
  destruct (Qltb (Qabs ((currentPrice - price l) / price l)) (5 # 1000)) eqn:Hd;
    cbn [andb] in H; [|discriminate].
  destruct (isTriggered l) eqn:Htr; cbn [negb] in H; [discriminate|].
  injection H as <- <-. split.
  - exists i, l. cbv zeta. fold st2. split; [exact Hi|]. split.
    { unfold findClosestLevel. rewrite E. reflexivity. }
    split; [exact Htr|]. split; [apply Qltb_lt; exact Hd|].
    cbn. rewrite Psig. repeat split.
  - intros now' Hsr. unfold analyze. cbn [isActive].
    rewrite Pact, Hact in Hsr |- *. cbn [negb].
    cbv zeta.
    assert (Hb : hasBase st2 = true).
    { destruct Pbase as [Hb|[Hz Hg]]; [exact Hb|].
      assert (Hl : l ∈ calculateGridLevels (config st) currentPrice).
      { rewrite <- Hg. apply list_elem_of_lookup. exists i. exact Hi. }
      pose proof (zero_grid_prices _ _ _ Hz Hl). congruence. }
    match goal with |- context [prepare now' currentPrice ?s] =>
      assert (Hp : prepare now' currentPrice s = s)
    end.
    { unfold prepare.
      match goal with |- context [hasBase ?s] =>
        change (hasBase s) with (hasBase st2) end.
      rewrite Hb. cbv iota zeta. rewrite Hsr. reflexivity. }
    rewrite Hp. cbn [gridLevels].
    rewrite (closest_after_trigger _ _ _ _ _ E). cbn [markTriggered isTriggered price].
    rewrite andb_false_r. reflexivity.
Qed.

(** At 97.51 the sample grid around 100 signals its level 97.5 (a buy
    level); asked again one second later it stays silent. *)
Lemma analyze_signals_a_level_once_witness :
  let st := activate (initialize 0 100 (constructor sample_config)) in
  exists sig st',
    analyze 1000 (9751 # 100) st = (Some sig, st') /\
    sig_action sig = "buy" /\ sig_levelIndex sig = 1%nat /\
    shouldRebalance 2000 st' = false /\
    analyze 2000 (9751 # 100) st' = (None, st').
Proof.
  intros st.
  destruct (analyze 1000 (9751 # 100) st) as [[sig|] st'] eqn:E;
    [|vm_compute in E; discriminate].
  exists sig, st'. split; [reflexivity|].
  assert (Hsr : shouldRebalance 2000 st' = false).
  { vm_compute in E. injection E as _ <-. vm_compute. reflexivity. }
  pose proof (analyze_signals_a_level_once 1000 (9751 # 100) st sig st' E) as [_ T].
  split; [vm_compute in E; injection E as <- _; reflexivity|].
  split; [vm_compute in E; injection E as <- _; reflexivity|].
  split; [exact Hsr|]. exact (T 2000%Z Hsr).
Defined.

Lemma analyze_state now currentPrice st :
  isActive st = true ->
  let st2 := prepare now currentPrice st in
  let st' := (analyze now currentPrice st).2 in
  basePrice st' = basePrice st2 /\ lastRebalance st' = lastRebalance st2 /\
  price <$> gridLevels st' = price <$> gridLevels st2 /\
  (forall i l, gridLevels st2 !! i = Some l -> isTriggered l = true ->
     exists l', gridLevels st' !! i = Some l' /\ isTriggered l' = true).
Proof.
  intros Hact st2 st'. subst st'. unfold analyze. rewrite Hact. cbn [negb].
  cbv zeta. fold st2.
  pose proof (closest_spec currentPrice (gridLevels st2)) as S1.
  destruct (closest currentPrice (gridLevels st2)) as [[[i l] d]|];
    [|cbn; eauto 6].
  destruct S1 as (Hi & _).
  match goal with |- context [if ?c then _ else _] => destruct c end;
    [|cbn; eauto 6].
  cbn [snd basePrice lastRebalance gridLevels]. repeat split.
  - rewrite list_fmap_insert. apply list_insert_id.
    rewrite list_lookup_fmap, Hi. reflexivity.
  - intros j lj Hj Htr. destruct (decide (j = i)) as [->|Hne].
    + exists (markTriggered l). split; [|reflexivity].
      apply list_lookup_insert_eq. apply lookup_lt_Some in Hi. exact Hi.
    + exists lj. rewrite list_lookup_insert_ne by congruence. auto.
Qed.

(** X27. When the grid moves.  For an initialised grid with base price [b],
    one [analyze] either keeps the base price, the time of the last
    rebalance and every level price, and un-triggers no level; or the
    strategy is active, the rebalance interval has elapsed, the price has
    moved at least 5% from [b], and the grid is rebuilt around the current
    price with the rebalance time set to now. *)
Theorem analyze_moves_grid_only_on_due_rebalance (now : Z) (currentPrice : Q)
    (st : t) (b : Q) :
  basePrice st = Some b -> ~ (b == 0)%Q ->
  let st' := (analyze now currentPrice st).2 in
  (basePrice st' = Some b /\ lastRebalance st' = lastRebalance st /\
   price <$> gridLevels st' = price <$> gridLevels st /\
   (forall i l, gridLevels st !! i = Some l -> isTriggered l = true ->
      exists l', gridLevels st' !! i = Some l' /\ isTriggered l' = true)) \/
  (isActive st = true /\ shouldRebalance now st = true /\
   (5 <= Qabs (BaseStrategy.calculatePriceChange currentPrice (Some b)))%Q /\
   basePrice st' = Some currentPrice /\ lastRebalance st' = Some now /\
   price <$> gridLevels st' = price <$> calculateGridLevels (config st) currentPrice).
Proof.
  intros Hbase Hb st'.
  destruct (isActive st) eqn:Hact.
  2:{ left. subst st'. unfold analyze. rewrite Hact. cbn. eauto 6. }
  destruct (analyze_state now currentPrice st Hact) as (A1 & A2 & A3 & A4).
  fold st' in A1, A2, A3, A4.
  assert (Hhas : hasBase st = true).
  { unfold hasBase. rewrite Hbase. unfold truthyQ.
    destruct (Qeq_bool b 0) eqn:E; [|reflexivity].
    apply Qeq_bool_iff in E. contradiction. }
  unfold prepare in A1, A2, A3, A4. rewrite Hhas in A1, A2, A3, A4.
  cbv zeta in A1, A2, A3, A4.
  destruct (shouldRebalance now st) eqn:Hsr.
  2:{ left. rewrite A1, A2, A3. repeat split; auto. }
  unfold rebalance in A1, A2, A3, A4. rewrite Hbase in A1, A2, A3, A4.
  destruct (Qltb (Qabs (BaseStrategy.calculatePriceChange currentPrice (Some b))) 5)
    eqn:Hch.
  - left. rewrite A1, A2, A3. repeat split; auto.
  - right. apply Qltb_ge in Hch. cbn in A1, A2, A3. repeat split; assumption.
Qed.

(** The sample grid around 100, last rebalanced at time 1 ms: at 106 after 301 s
    it is rebuilt around 106; at 106 after 10 s, and at 103 after 301 s, it
    stays where it is. *)
Lemma analyze_moves_grid_witness :
  let st := activate (initialize 1 100 (constructor sample_config)) in
  basePrice st = Some 100%Q /\ ~ (100 == 0)%Q /\
  basePrice (analyze 301001 106 st).2 = Some 106%Q /\
  basePrice (analyze 10001 106 st).2 = Some 100%Q /\
  basePrice (analyze 301001 103 st).2 = Some 100%Q /\
  ((basePrice (analyze 301001 106 st).2 = Some 100%Q /\
    lastRebalance (analyze 301001 106 st).2 = lastRebalance st /\
    price <$> gridLevels (analyze 301001 106 st).2 = price <$> gridLevels st /\
    (forall i l, gridLevels st !! i = Some l -> isTriggered l = true ->
       exists l', gridLevels (analyze 301001 106 st).2 !! i = Some l' /\
                  isTriggered l' = true)) \/
   (isActive st = true /\ shouldRebalance 301001 st = true /\
    (5 <= Qabs (BaseStrategy.calculatePriceChange 106 (Some 100%Q)))%Q /\
    basePrice (analyze 301001 106 st).2 = Some 106%Q /\
    lastRebalance (analyze 301001 106 st).2 = Some 301001%Z /\
    price <$> gridLevels (analyze 301001 106 st).2
    = price <$> calculateGridLevels (config st) 106)).
Proof.
  intros st.
  assert (H1 : basePrice st = Some 100%Q) by reflexivity.
  assert (H2 : ~ (100 == 0)%Q) by discriminate.
  split; [exact H1|]. split; [exact H2|].
  split; [vm_compute; reflexivity|]. split; [vm_compute; reflexivity|].
  split; [vm_compute; reflexivity|].
  exact (analyze_moves_grid_only_on_due_rebalance 301001 106 st 100 H1 H2).
Defined.

End GridTradingFacts.

(** ** Indicators: RSI and EMA *)

Module IndicatorFacts.
Import Indicators.

Lemma slice_last_fmap {A B} (f : A -> B) n (l : list A) :
  slice_last n (f <$> l) = f <$> slice_last n l.
Proof.
  destruct n as [|n]; [reflexivity|]. unfold slice_last.
  rewrite length_fmap, fmap_drop. reflexivity.
Qed.

Lemma changes_length prices : length (changes prices) = (length prices - 1)%nat.
Proof.
  induction prices as [|a [|b rest] IH]; [reflexivity|reflexivity|].
  change (changes (a :: b :: rest)) with ((b - a)%Q :: changes (b :: rest)).
  cbn [length] in *. rewrite IH. lia.
Qed.

Lemma slice_last_length {A} n (l : list A) :
  (1 <= n <= length l)%nat -> length (slice_last n l) = n.
Proof.
  intros H. destruct n as [|n]; [lia|]. unfold slice_last.
  rewrite length_drop. lia.
Qed.

Lemma gain_cases c : (0 <= gain c)%Q /\ ((gain c == 0)%Q <-> (c <= 0)%Q).
Proof.
  unfold gain. destruct (Qltb 0 c) eqn:E.
  - apply Qltb_lt in E. split; [lra|]. split; intros; lra.
  - apply Qltb_ge in E. split; [lra|]. split; intros; lra.
Qed.

Lemma loss_cases c : (0 <= loss c)%Q /\ ((loss c == 0)%Q <-> (0 <= c)%Q).
Proof.
  unfold loss. destruct (Qltb c 0) eqn:E.
  - apply Qltb_lt in E. rewrite Qabs_neg by lra. split; [lra|]. split; intros; lra.
  - apply Qltb_ge in E. split; [lra|]. split; intros; lra.
Qed.

(** A sum of non-negative terms is non-negative, and zero only when every
    term is. *)
Lemma sum_nonneg_zero (f : Q -> Q) (l : list Q) :
  (forall c, (0 <= f c)%Q) ->
  (0 <= StrategySelection.sum (f <$> l))%Q /\
  ((StrategySelection.sum (f <$> l) == 0)%Q <-> forall c, c ∈ l -> (f c == 0)%Q).
Proof.
  intros Hf. induction l as [|x l [IH1 IH2]].
  - split; [vm_compute; discriminate|]. split; [|reflexivity].
    intros _ c Hc. inversion Hc.
  - rewrite fmap_cons, StrategySelectionFacts.sum_cons. pose proof (Hf x) as Hx.
    split; [lra|]. split.
    + intros H c Hc. apply elem_of_cons in Hc as [->|Hc].
      * lra.
      * apply IH2; [lra|exact Hc].
    + intros H. pose proof (H x (list_elem_of_here _ _)) as H0.
      assert (H1 : (StrategySelection.sum (f <$> l) == 0)%Q).
      { apply IH2. intros c Hc. apply H, list_elem_of_further, Hc. }
      lra.
Qed.

(** X28. [calculateRSI] for a period of at least 1.  It returns null exactly
    when there are at most [period] prices.  Otherwise the result lies
    between 0 and 100; it is 100 exactly when none of the last [period] price
    changes is a fall, and 0 exactly when none of them is a rise and at least
    one is a fall. *)
Theorem calculateRSI_between_0_and_100 (prices : list Q) (period : nat) :
  (1 <= period)%nat ->
  (calculateRSI prices period = None <-> (length prices <= period)%nat) /\
  (forall rsi, calculateRSI prices period = Some rsi ->
     let window := slice_last period (changes prices) in
     length window = period /\
     (0 <= rsi <= 100)%Q /\
     ((rsi == 100)%Q <-> forall c, c ∈ window -> (0 <= c)%Q) /\
     ((rsi == 0)%Q <->
      (forall c, c ∈ window -> (c <= 0)%Q) /\ exists c, c ∈ window /\ (c < 0)%Q)).
Proof.
  intros Hp. unfold calculateRSI.
  destruct (length prices <? period + 1)%nat eqn:Hlen.
  { apply Nat.ltb_lt in Hlen. split; [split; [lia|reflexivity]|discriminate]. }
  apply Nat.ltb_ge in Hlen. cbv zeta. split.
  { split; [|lia]. intros H.
    match type of H with context [Qeq_bool ?a ?b] => destruct (Qeq_bool a b) end;
      discriminate. }
  change (map ?f ?l) with (f <$> l). rewrite !slice_last_fmap.
  set (window := slice_last period (changes prices)).
  destruct (sum_nonneg_zero gain window (fun c => proj1 (gain_cases c))) as [G0 Gz].
  destruct (sum_nonneg_zero loss window (fun c => proj1 (loss_cases c))) as [L0 Lz].
  set (G := StrategySelection.sum (gain <$> window)) in *.
  set (L := StrategySelection.sum (loss <$> window)) in *.
  assert (Hn : (0 < BaseStrategy.natQ period)%Q)
    by (apply BaseStrategyFacts.natQ_pos; lia).
  set (n := BaseStrategy.natQ period) in *.
  assert (HLz : (L == 0)%Q <-> forall c, c ∈ window -> (0 <= c)%Q).
  { rewrite Lz. split; intros H c Hc; apply (loss_cases c), H, Hc. }
  assert (HGz : (G == 0)%Q <-> forall c, c ∈ window -> (c <= 0)%Q).
  { rewrite Gz. split; intros H c Hc; apply (gain_cases c), H, Hc. }
  assert (Hw : length window = period).
  { apply slice_last_length. rewrite changes_length. lia. }
  intros rsi Hrsi. split; [exact Hw|].
  destruct (Qeq_bool (L / n) 0) eqn:E.
  - injection Hrsi as <-. apply Qeq_bool_iff in E.
    assert (HL : (L == 0)%Q).
    { assert (H : (L == L / n * n)%Q) by (field; lra). rewrite E in H. lra. }
    split; [lra|]. split.
    + split; [intros _; apply HLz, HL|reflexivity].
    + split; [intros H; lra|].
      intros [_ (c & Hc & Hneg)]. pose proof (proj1 HLz HL c Hc). lra.
  - injection Hrsi as <-. apply Qeq_bool_neq in E.
    assert (HL : (0 < L)%Q).
    { destruct (Qlt_le_dec 0 L) as [H|H]; [exact H|].
      exfalso. apply E. assert (L == 0)%Q by lra. rewrite H0. field. lra. }
    assert (Hb : (0 < L / n)%Q) by (apply Qlt_shift_div_l; lra).
    assert (Ha : (0 <= G / n)%Q) by (apply Qle_shift_div_l; lra).
    set (rs := (G / n / (L / n))%Q).
    assert (Hrs : (rs == G / L)%Q) by (unfold rs; field; lra).
    assert (Hrs0 : (0 <= rs)%Q).
    { rewrite Hrs. apply Qle_shift_div_l; lra. }
    assert (Hrsz : (rs == 0)%Q <-> (G == 0)%Q).
    { rewrite Hrs. split; intros H.
      - assert (H1 : (G == G / L * L)%Q) by (field; lra). rewrite H in H1. lra.
      - rewrite H. field. lra. }
    set (q := (100 / (1 + rs))%Q).
    assert (Hq : (q * (1 + rs) == 100)%Q) by (unfold q; field; lra).
    assert (Hq0 : (0 < q)%Q) by (unfold q; apply Qlt_shift_div_l; lra).
    assert (Hq1 : (q <= 100)%Q) by (unfold q; apply Qle_shift_div_r; lra).
    split; [lra|]. split.
    + split; [intros H; lra|].
      intros H. apply HLz in H. lra.
    + split.
      * intros H. assert (Hq100 : (q == 100)%Q) by lra.
        rewrite Hq100 in Hq. assert (Hz : (rs == 0)%Q) by lra.
        apply Hrsz in Hz. split; [apply HGz, Hz|].
        destruct (decide (Exists (fun c => Qltb c 0 = true) window)) as [Hex|Hno].
        -- apply Exists_exists in Hex as (c & Hc & Hlt). apply Qltb_lt in Hlt. eauto.
        -- exfalso. assert (HL0 : (L == 0)%Q); [|lra].
           apply HLz. intros c Hc. apply Qltb_ge.
           destruct (Qltb c 0) eqn:Ec; [|reflexivity].
           exfalso. apply Hno, Exists_exists. eauto.
      * intros [H _]. apply HGz, Hrsz in H. rewrite H in Hq. lra.
Qed.

(** Prices 100, 102, 101, 103 over a period of 3: gains 4, losses 1, RSI 80. *)
Lemma calculateRSI_witness :
  (1 <= 3)%nat /\
  exists rsi, calculateRSI [100; 102; 101; 103]%Q 3 = Some rsi /\
    (rsi == 80)%Q /\ (0 <= rsi <= 100)%Q.
Proof.
  assert (Hp : (1 <= 3)%nat) by lia.
  split; [exact Hp|].
  destruct (calculateRSI [100; 102; 101; 103]%Q 3) as [rsi|] eqn:E;
    [|vm_compute in E; discriminate].
  exists rsi. split; [reflexivity|].
  pose proof (proj2 (calculateRSI_between_0_and_100 [100; 102; 101; 103]%Q 3 Hp) rsi E)
    as T.
  cbv zeta in T. destruct T as (_ & T & _).
  split; [|exact T].
  vm_compute in E. injection E as <-. reflexivity.
Defined.

(** *** EMA *)

Lemma emaStep_bounds m lo hi ema p :
  (0 < m <= 1)%Q -> (lo <= ema <= hi)%Q -> (lo <= p <= hi)%Q ->
  (lo <= emaStep m ema p <= hi)%Q.
Proof.
  intros Hm He Hp. unfold emaStep.
  assert (E : ((p - ema) * m + ema == m * p + (1 - m) * ema)%Q) by ring.
  rewrite E. split; nra.
Qed.

Lemma ema_fold_bounds m lo hi rest : forall ema,
  (0 < m <= 1)%Q -> (lo <= ema <= hi)%Q ->
  (forall p, p ∈ rest -> (lo <= p <= hi)%Q) ->
  (lo <= fold_left (emaStep m) rest ema <= hi)%Q.
Proof.
  induction rest as [|p rest IH]; intros ema Hm He Hr; [exact He|].
  cbn [fold_left]. apply IH; [exact Hm| |].
  - apply emaStep_bounds; [exact Hm|exact He|]. apply Hr, list_elem_of_here.
  - intros q Hq. apply Hr, list_elem_of_further, Hq.
Qed.

(** X29. [calculateEMA] for a period of at least 1.  It returns null exactly
    when there are fewer than [period] prices.  Otherwise the result stays
    within the range of the prices: between any lower and any upper bound of
    all of them (so the EMA of a constant series is that constant), and over
    exactly [period] prices it is their simple average. *)
Theorem calculateEMA_within_price_range (prices : list Q) (period : nat) :
  (1 <= period)%nat ->
  (calculateEMA prices period = None <-> (length prices < period)%nat) /\
  (forall ema, calculateEMA prices period = Some ema ->
     (forall lo hi, (forall p, p ∈ prices -> (lo <= p <= hi)%Q) ->
        (lo <= ema <= hi)%Q) /\
     (length prices = period -> ema = StrategySelection.average prices)).
Proof.
  intros Hp. unfold calculateEMA.
  destruct (length prices <? period)%nat eqn:Hlen.
  { apply Nat.ltb_lt in Hlen. split; [split; [lia|reflexivity]|discriminate]. }
  apply Nat.ltb_ge in Hlen. split; [split; [discriminate|lia]|].
  cbv zeta. intros ema [= <-]. split.
  - intros lo hi Hb.
    assert (Hn : (0 < BaseStrategy.natQ period)%Q)
      by (apply BaseStrategyFacts.natQ_pos; lia).
    assert (H1 : (1 <= BaseStrategy.natQ period)%Q).
    { change 1%Q with (BaseStrategy.natQ 1). apply BaseStrategyFacts.natQ_le. lia. }
    apply ema_fold_bounds.
    + split.
      * apply Qlt_shift_div_l; lra.
      * apply Qle_shift_div_r; lra.
    + assert (Hlt : length (take period prices) = period)
        by (rewrite length_take; lia).
      pose proof (StrategySelectionFacts.average_bounds (take period prices) lo hi)
        as A.
      unfold StrategySelection.average in A. rewrite Hlt in A. apply A.
      * intros E. rewrite E in Hlt. cbn in Hlt. lia.
      * intros p Hp'. apply Hb. eapply subseteq_take, Hp'.
    + intros p Hp'. apply Hb. eapply subseteq_drop, Hp'.
  - intros E. rewrite <- E, drop_all, firstn_all. reflexivity.
Qed.

(** Prices 10, 20, 30, 40 over a period of 2: the average 15, then
    (30 - 15) * 2/3 + 15 = 25 and (40 - 25) * 2/3 + 25 = 35. *)
Lemma calculateEMA_witness :
  (1 <= 2)%nat /\
  exists ema, calculateEMA [10; 20; 30; 40]%Q 2 = Some ema /\
    (ema == 35)%Q /\ (10 <= ema <= 40)%Q.
Proof.
  assert (Hp : (1 <= 2)%nat) by lia.
  split; [exact Hp|].
  destruct (calculateEMA [10; 20; 30; 40]%Q 2) as [ema|] eqn:E;
    [|vm_compute in E; discriminate].
  exists ema. split; [reflexivity|].
  destruct (proj2 (calculateEMA_within_price_range [10; 20; 30; 40]%Q 2 Hp) ema E)
    as [T _].
  split; [vm_compute in E; injection E as <-; reflexivity|].
  apply T. intros p Hin.
  repeat (apply elem_of_cons in Hin as [->|Hin]; [split; discriminate|]).
  inversion Hin.
Defined.

End IndicatorFacts.

(** ** MomentumStrategy: the history window *)

Module MomentumFacts.
Import Momentum.

(** One push on a history that is within the bound: the result is within
    the bound, and whatever is pushed after it, the last [max] entries are
    the same as if nothing had been dropped. *)
Lemma window_push (max : nat) (h : list Q) (x : Q) :
  (1 <= max)%nat -> (length h <= max)%nat ->
  let h' := if (max <? length (h ++ [x]))%nat then shift (h ++ [x]) else h ++ [x] in
  (length h' <= max)%nat /\
  forall rest,
    drop (length (h' ++ rest) - max) (h' ++ rest)
    = drop (length (h ++ x :: rest) - max) (h ++ x :: rest).
Proof.
  intros Hmax Hlen h'. subst h'. rewrite length_app. cbn [length].
  destruct (max <? length h + 1)%nat eqn:E.
  - apply Nat.ltb_lt in E. assert (Hl : length h = max) by lia.
    destruct h as [|y h0]; [cbn in Hl; lia|]. cbn [shift tail app length] in *.
    split; [rewrite length_app; cbn; lia|]. intros rest.
    rewrite <- app_assoc. cbn [app].
    replace (length (h0 ++ x :: rest) - max)%nat with (length rest)
      by (rewrite length_app; cbn; lia).
    replace (S (length (h0 ++ x :: rest)) - max)%nat with (S (length rest))
      by (rewrite length_app; cbn; lia).
    reflexivity.
  - apply Nat.ltb_ge in E. split; [rewrite length_app; cbn; lia|]. intros rest.
    rewrite <- app_assoc. reflexivity.
Qed.

Lemma updates_window (feed : list (Q * Q)) : forall st,
  (length (priceHistory st) <= lookbackPeriod st + 10)%nat ->
  (length (volumeHistory st) <= lookbackPeriod st + 10)%nat ->
  let st' := updates feed st in
  let maxHistory := (lookbackPeriod st + 10)%nat in
  lookbackPeriod st' = lookbackPeriod st /\
  priceHistory st' =
    drop (length (priceHistory st ++ feed.*1) - maxHistory) (priceHistory st ++ feed.*1) /\
  volumeHistory st' =
    drop (length (volumeHistory st ++ feed.*2) - maxHistory)
      (volumeHistory st ++ feed.*2).
Proof.
  induction feed as [|d feed IH]; intros st Hp Hv; cbv zeta.
  - cbn. rewrite !app_nil_r.
    replace (length (priceHistory st) - _)%nat with 0%nat by lia.
    replace (length (volumeHistory st) - _)%nat with 0%nat by lia.
    auto.
  - cbn [updates fold_left]. fold (updates feed (updateHistory d st)).
    destruct (window_push (lookbackPeriod st + 10) (priceHistory st) d.1
                ltac:(lia) Hp) as [P1 P2].
    destruct (window_push (lookbackPeriod st + 10) (volumeHistory st) d.2
                ltac:(lia) Hv) as [V1 V2].
    destruct (IH (updateHistory d st) P1 V1) as (I1 & I2 & I3).
    cbn [lookbackPeriod updateHistory] in I1, I2, I3.
    split; [exact I1|]. rewrite I2, I3. rewrite fmap_cons. split.
    + apply P2.
    + apply V2.
Qed.

(** X30. The momentum histories are sliding windows.  Starting from
    histories of at most [lookbackPeriod + 10] entries (the constructor and
    [reset] leave them empty), after any number of [updateHistory] calls the
    price history is exactly the last [lookbackPeriod + 10] prices pushed, in
    order, and the volume history the last [lookbackPeriod + 10] volumes; so
    neither grows beyond that bound, and the average volume lies between any
    bounds of the volumes. *)
Theorem histories_are_sliding_windows (feed : list (Q * Q)) (st : t) :
  (length (priceHistory st) <= lookbackPeriod st + 10)%nat ->
  (length (volumeHistory st) <= lookbackPeriod st + 10)%nat ->
  let st' := updates feed st in
  let maxHistory := (lookbackPeriod st + 10)%nat in
  let prices := priceHistory st ++ feed.*1 in
  let volumes := volumeHistory st ++ feed.*2 in
  priceHistory st' = drop (length prices - maxHistory) prices /\
  volumeHistory st' = drop (length volumes - maxHistory) volumes /\
  length (priceHistory st') = Nat.min (length prices) maxHistory /\
  length (volumeHistory st') = Nat.min (length volumes) maxHistory /\
  (forall lo hi, volumes <> [] -> (forall v, v ∈ volumes -> (lo <= v <= hi)%Q) ->
     (lo <= calculateAverageVolume st' <= hi)%Q).
Proof.
  intros Hp Hv st' maxHistory prices volumes.
  destruct (updates_window feed st Hp Hv) as (_ & E1 & E2).
  fold st' maxHistory prices in E1. fold st' maxHistory volumes in E2.
  split; [exact E1|]. split; [exact E2|].
  split; [rewrite E1, length_drop; lia|]. split; [rewrite E2, length_drop; lia|].
  intros lo hi Hne Hb. unfold calculateAverageVolume.
  assert (Hlen : length (volumeHistory st') = Nat.min (length volumes) maxHistory)
    by (rewrite E2, length_drop; lia).
  assert (Hpos : (0 < length (volumeHistory st'))%nat).
  { assert (Hvl : length volumes <> 0%nat)
      by (intros H0; apply Hne, nil_length_inv, H0).
    rewrite Hlen. subst maxHistory. lia. }
  destruct (length (volumeHistory st') =? 0)%nat eqn:E0;
    [apply Nat.eqb_eq in E0; lia|].
  apply (StrategySelectionFacts.average_bounds (volumeHistory st') lo hi).
  - intros E. rewrite E in Hpos. cbn in Hpos. lia.
  - intros v Hin. apply Hb. rewrite E2 in Hin. eapply subseteq_drop, Hin.
Qed.

(** With a lookback of 0 the window holds 10 entries: after the prices
    1, ..., 12 it holds 3, ..., 12. *)
Lemma histories_are_sliding_windows_witness :
  let feed := (fun n => (BaseStrategy.natQ n, 1%Q)) <$> seq 1 12 in
  let st' := updates feed (empty 0) in
  priceHistory st' = BaseStrategy.natQ <$> seq 3 10 /\
  length (priceHistory st') = 10%nat /\ length (volumeHistory st') = 10%nat.
Proof.
  intros feed st'.
  assert (Hp : (length (priceHistory (empty 0)) <= lookbackPeriod (empty 0) + 10)%nat)
    by (cbn; lia).
  assert (Hv : (length (volumeHistory (empty 0)) <= lookbackPeriod (empty 0) + 10)%nat)
    by (cbn; lia).
  pose proof (histories_are_sliding_windows feed (empty 0) Hp Hv) as T.
  cbv zeta in T. destruct T as (T1 & _ & T3 & T4 & _).
  split; [exact T1|]. split; [exact T3|exact T4].
Defined.

End MomentumFacts.
